(** * BF6 stats pipeline: API client, config loader, pipeline, storage writers

    A shallow embedding of [src/api.py], [src/pipeline.py] and
    [src/storage.py].  Python values are a small inductive type, dicts are
    insertion-ordered association lists, exceptions are a sum type, and the
    outside world (HTTP server, monotonic clock, wall clock, disk) is explicit
    state threaded through a state-and-exception monad. *)

From Stdlib Require Import ZArith List String Ascii Bool Lia Arith DecimalString.
Import ListNotations.

Local Open Scope string_scope.
Local Open Scope list_scope.
Local Open Scope Z_scope.

(** ** Python values *)

(** The values [json.loads] / [r.json()] / [yaml.safe_load] hand to the
    program.  A float is carried by its [repr]: the program only moves floats
    around and prints them.  Strings are sequences of code points below 256.
    A dict is the list of its items in insertion order. *)
#[local] Unset Elimination Schemes.
Inductive pyval : Type :=
| PNone
| PBool (b : bool)
| PInt (n : Z)
| PFloat (repr : string)
| PStr (s : string)
| PList (l : list pyval)
| PDict (d : list (string * pyval)).
#[local] Set Elimination Schemes.

Definition dict : Type := list (string * pyval).

Module Dict.

(** [k in d] *)
Fixpoint mem (k : string) (d : dict) : bool :=
  match d with
  | [] => false
  | (k', _) :: d' => if String.eqb k k' then true else mem k d'
  end.

(** [d.get(k)], [None] when the key is absent *)
Fixpoint get (k : string) (d : dict) : option pyval :=
  match d with
  | [] => None
  | (k', v) :: d' => if String.eqb k k' then Some v else get k d'
  end.

(** [d.get(k, dflt)] *)
Definition get_default (k : string) (dflt : pyval) (d : dict) : pyval :=
  match get k d with
  | Some v => v
  | None => dflt
  end.

(** [d[k] = v]: an existing key keeps its position, a new key goes last. *)
Fixpoint set (k : string) (v : pyval) (d : dict) : dict :=
  match d with
  | [] => [(k, v)]
  | (k', v') :: d' =>
      if String.eqb k k' then (k', v) :: d' else (k', v') :: set k v d'
  end.

(** [list(d.keys())] *)
Definition keys (d : dict) : list string := map fst d.

End Dict.

(** ** [str()] and [repr()] *)

Definition join (sep : string) (l : list string) : string := String.concat sep l.

Definition hex_digit (n : N) : ascii :=
  match String.get (N.to_nat n) "0123456789abcdef" with
  | Some c => c
  | None => "0"%char
  end.

Definition contains_char (c : ascii) (s : string) : bool :=
  existsb (Ascii.eqb c) (list_ascii_of_string s).

(** What [repr] prints for one character of a string quoted with [q]. *)
Definition repr_char (q c : ascii) : string :=
  let n := N_of_ascii c in
  if (Ascii.eqb c q || Ascii.eqb c "\"%char)%bool then String "\" (String c "")
  else if (n =? 9)%N then "\t"
  else if (n =? 10)%N then "\n"
  else if (n =? 13)%N then "\r"
  else if ((n <? 32) || (n =? 127) || ((128 <=? n) && (n <=? 160)) || (n =? 173))%N%bool
       then String "\" (String "x" (String (hex_digit (n / 16)) (String (hex_digit (n mod 16)) "")))
  else String c "".

(** [repr(s)] for a string: double quotes only when [s] has a single quote and
    no double quote. *)
Definition repr_str (s : string) : string :=
  let q := if (contains_char "'"%char s && negb (contains_char "034"%char s))%bool
           then "034"%char else "'"%char in
  String q (String.concat "" (map (repr_char q) (list_ascii_of_string s)) ++ String q "")%string.

Definition str_int (n : Z) : string := NilZero.string_of_int (Z.to_int n).

Fixpoint py_repr (v : pyval) : string :=
  match v with
  | PNone => "None"
  | PBool true => "True"
  | PBool false => "False"
  | PInt n => str_int n
  | PFloat r => r
  | PStr s => repr_str s
  | PList l => ("[" ++ join ", " (map py_repr l) ++ "]")%string
  | PDict d =>
      ("{" ++ join ", " (map (fun '(k, x) => repr_str k ++ ": " ++ py_repr x) d) ++ "}")%string
  end.

(** [str(v)] *)
Definition py_str (v : pyval) : string :=
  match v with
  | PStr s => s
  | _ => py_repr v
  end.

(** [type(v).__name__] *)
Definition type_name (v : pyval) : string :=
  match v with
  | PNone => "NoneType"
  | PBool _ => "bool"
  | PInt _ => "int"
  | PFloat _ => "float"
  | PStr _ => "str"
  | PList _ => "list"
  | PDict _ => "dict"
  end.

(** Iterating a value, as [list.extend] does: a list gives its items, a dict
    its keys, a string its characters; anything else is not iterable. *)
Definition py_iter (v : pyval) : option (list pyval) :=
  match v with
  | PList l => Some l
  | PDict d => Some (map PStr (Dict.keys d))
  | PStr s => Some (map (fun c => PStr (String c "")) (list_ascii_of_string s))
  | _ => None
  end.

(** ** Exceptions *)

(** An exception is its class and its message.  [json.JSONDecodeError] is a
    [ValueError]. *)
Inductive exn : Type :=
| BF6APIError (m : string)
| ValueError (m : string)
| FileNotFoundError (m : string)
| ImportError (m : string)
| TypeError (m : string)
| IndexError (m : string)
| OverflowError (m : string)
| YAMLError (m : string)
| ProgrammingError (m : string)          (* sqlite3.ProgrammingError *)
| UnicodeDecodeError (m : string)
| IsADirectoryError (m : string).

Definition is_BF6APIError (e : exn) : bool :=
  match e with BF6APIError _ => true | _ => false end.

(** ** State and exception monad *)

Definition result (A : Type) : Type := (exn + A)%type.

Definition M (S A : Type) : Type := S -> result A * S.

Definition ret {S A} (a : A) : M S A := fun s => (inr a, s).
Definition raise {S A} (e : exn) : M S A := fun s => (inl e, s).
Definition bind {S A B} (c : M S A) (k : A -> M S B) : M S B :=
  fun s => match c s with
           | (inr a, s') => k a s'
           | (inl e, s') => (inl e, s')
           end.

(** [try: c  except <the exceptions selected by sel>: h] *)
Definition try_except {S A} (c : M S A) (sel : exn -> bool) (h : M S A) : M S A :=
  fun s => match c s with
           | (inl e, s') => if sel e then h s' else (inl e, s')
           | r => r
           end.

Declare Scope py_scope.
Delimit Scope py_scope with py.
Notation "x <- c ;; k" := (bind c (fun x => k))
  (at level 100, c at next level, right associativity) : py_scope.
Notation "c ;;; k" := (bind c (fun _ => k))
  (at level 100, right associativity) : py_scope.

Local Open Scope py_scope.

(** ** The API client ([src/api.py]) *)

Definition BASE_URL : string := "https://api.gametools.network".

(** Durations and clock readings are integers in milliseconds, so the
    source's [1.0] seconds is [1000]. *)
Definition DEFAULT_RATE_LIMIT_SEC : Z := 1000.
Definition MAX_RETRIES : Z := 3.
Definition RETRY_BACKOFF_SEC : Z := 1000.

(** The two literals the callers pass as [method]. *)
Inductive http_method : Type := GET | POST.

Record request : Type := {
  req_method : http_method;
  req_url : string;
  req_params : option dict;
  req_json : option pyval
}.

(** [r.json()]: the parsed body, or the decoder's failure. *)
Inductive json_body : Type :=
| JsonOk (v : pyval)
| JsonFail (e : string).

(** What [requests.get] / [requests.post] does: raise a [RequestException] or
    return a response [r] with [r.status_code], [r.text] and [r.json()]. *)
Inductive outcome : Type :=
| RequestException (e : string)
| Response (status_code : Z) (text : string) (json : json_body).

Record reply : Type := {
  took : Z;            (* monotonic time the call took *)
  answer : outcome
}.

(** What an observer of the client sees.  Both sleeps are [time.sleep]; they
    are told apart by the method that calls it. *)
Inductive event : Type :=
| Http (r : request)
| RateLimitSleep (ms : Z)    (* in [_wait_rate_limit] *)
| BackoffSleep (ms : Z).     (* in [_sleep_or_raise] *)

(** The monotonic clock, the client's [_last_request_time], the number of HTTP
    calls sent so far and the observable trace, oldest event first. *)
Record net : Type := {
  now : Z;
  last_request_time : Z;
  sent : nat;
  trace : list event
}.

Record BF6APIClient : Type := {
  base_url : string;
  rate_limit_sec : Z;
  max_retries : Z
}.

(** [s.rstrip("/")] *)
Fixpoint rstrip_slash (s : string) : string :=
  match s with
  | EmptyString => EmptyString
  | String c s' =>
      match rstrip_slash s' with
      | EmptyString => if Ascii.eqb c "/"%char then EmptyString else String c EmptyString
      | t => String c t
      end
  end.

(** [BF6APIClient.__init__], without the [_last_request_time] it resets
    (see [new_client]). *)
Definition mk_client (url : string) (rate_limit max : Z) : BF6APIClient :=
  {| base_url := rstrip_slash url; rate_limit_sec := rate_limit; max_retries := max |}.

(** [range(n)] *)
Definition py_range (n : Z) : list Z := map Z.of_nat (seq 0 (Z.to_nat n)).

(** [s[:n]] *)
Definition prefix_str (n : nat) (s : string) : string := substring 0 n s.

Definition is_rate_limit_sleep (e : event) : bool :=
  match e with RateLimitSleep _ => true | _ => false end.

(** A trace without the sleeps of the rate limiter. *)
Definition visible (tr : list event) : list event :=
  filter (fun e => negb (is_rate_limit_sleep e)) tr.

(** From [s] to [s'], [n] HTTP calls were sent and the events [tr] were
    appended to the trace, rate-limit sleeps aside. *)
Definition advances (s s' : net) (n : nat) (tr : list event) : Prop :=
  sent s' = (sent s + n)%nat /\
  exists w, trace s' = trace s ++ w /\ visible w = tr.

(** An attempt that the request loop answers with [_sleep_or_raise]: the
    request raised, or the status is 5xx. *)
Definition retryable (o : outcome) : bool :=
  match o with
  | RequestException _ => true
  | Response status_code _ _ => status_code >=? 500
  end.

Section Client.

(** The server: the reply to the [n]-th HTTP call of the run, given the
    request that is sent. *)
Variable server : nat -> request -> reply.

Definition monotonic : M net Z := fun s => (inr (now s), s).

Definition time_sleep (tag : Z -> event) (d : Z) : M net unit :=
  fun s => (inr tt, {| now := now s + d;
                       last_request_time := last_request_time s;
                       sent := sent s;
                       trace := trace s ++ [tag d] |}).

Definition set_last_request_time (t : Z) : M net unit :=
  fun s => (inr tt, {| now := now s;
                       last_request_time := t;
                       sent := sent s;
                       trace := trace s |}).

Definition get_last_request_time : M net Z :=
  fun s => (inr (last_request_time s), s).

(** [requests.get(...)] / [requests.post(...)] *)
Definition http_send (req : request) : M net outcome :=
  fun s => let rep := server (sent s) req in
           (inr (answer rep),
            {| now := now s + took rep;
               last_request_time := last_request_time s;
               sent := S (sent s);
               trace := trace s ++ [Http req] |}).

Definition _wait_rate_limit (self : BF6APIClient) : M net unit :=
  t <- monotonic ;;
  last <- get_last_request_time ;;
  let elapsed := t - last in
  (if elapsed <? rate_limit_sec self
   then time_sleep RateLimitSleep (rate_limit_sec self - elapsed)
   else ret tt) ;;;
  t' <- monotonic ;;
  set_last_request_time t'.

Definition _sleep_or_raise (self : BF6APIClient) (attempt : Z) (message : string)
  : M net unit :=
  if attempt =? max_retries self - 1
  then raise (BF6APIError message)
  else time_sleep BackoffSleep (RETRY_BACKOFF_SEC * (attempt + 1)).

(** The [errors] of a 4xx response: [err.get("errors", [r.text[:200]])], and
    [[r.text[:200]]] when [r.json()] or the [.get] raises. *)
Definition errors_of (text : string) (body : json_body) : pyval :=
  match body with
  | JsonOk (PDict err) => Dict.get_default "errors" (PList [PStr (prefix_str 200 text)]) err
  | _ => PList [PStr (prefix_str 200 text)]
  end.

(** The body of the [for attempt in range(self.max_retries)] loop of
    [_request], over the attempts that remain. *)
Fixpoint request_loop (self : BF6APIClient) (req : request) (attempts : list Z)
  : M net pyval :=
  match attempts with
  | [] => raise (BF6APIError "Max retries exceeded")
  | attempt :: rest =>
      _wait_rate_limit self ;;;
      r <- http_send req ;;
      match r with
      | RequestException e =>
          _sleep_or_raise self attempt ("Request failed: " ++ e)%string ;;;
          request_loop self req rest
      | Response status_code text body =>
          if status_code >=? 500 then
            _sleep_or_raise self attempt
              ("Server error " ++ str_int status_code ++ ": " ++ prefix_str 200 text)%string ;;;
            request_loop self req rest
          else if status_code >=? 400 then
            raise (BF6APIError ("API error " ++ str_int status_code ++ ": "
                                ++ py_str (errors_of text body))%string)
          else
            match body with
            | JsonOk v => ret v
            | JsonFail e => raise (BF6APIError ("Invalid JSON response: " ++ e)%string)
            end
      end
  end.

(** The message [_request] hands to [_sleep_or_raise] for a failed attempt. *)
Definition failure_message (o : outcome) : string :=
  match o with
  | RequestException e => ("Request failed: " ++ e)%string
  | Response status_code text _ =>
      ("Server error " ++ str_int status_code ++ ": " ++ prefix_str 200 text)%string
  end.

Definition mk_request (self : BF6APIClient) (method : http_method) (path : string)
           (params : option dict) (json : option pyval) : request :=
  {| req_method := method;
     req_url := (base_url self ++ path)%string;
     req_params := params;
     req_json := match method with GET => None | POST => json end |}.

Definition _request (self : BF6APIClient) (method : http_method) (path : string)
           (params : option dict) (json : option pyval) : M net pyval :=
  request_loop self (mk_request self method path params json)
               (py_range (max_retries self)).

Definition could_not_resolve (name platform : string) : exn :=
  BF6APIError ("Could not resolve player: " ++ name ++ " on " ++ platform)%string.

Definition get_player_id (self : BF6APIClient) (name platform : string) : M net pyval :=
  let path := "/bf6/player/" in
  let params := [("name", PStr name); ("platform", PStr platform)] in
  data <- _request self GET path (Some params) None ;;
  match data with
  | PDict d =>
      if Dict.mem "id" d then ret data
      else raise (could_not_resolve name platform)
  | PList (first :: _) =>
      ret (match first with
           | PDict _ => first
           | _ => PDict [("id", first)]
           end)
  | _ => raise (could_not_resolve name platform)
  end.

Definition get_stats (self : BF6APIClient) (name : option string)
           (player_id : option pyval) (platform : string) : M net pyval :=
  let path := "/bf6/stats/" in
  let params := [("platform", PStr platform)] in
  match player_id, name with
  | Some pid, _ =>
      _request self GET path (Some (Dict.set "playerid" (PStr (py_str pid)) params)) None
  | None, Some (String c n) =>
      _request self GET path (Some (Dict.set "name" (PStr (String c n)) params)) None
  | None, _ => raise (ValueError "Provide either name or player_id")
  end.

Definition batch_body (player_ids : list pyval) (platform : string) : pyval :=
  PDict [("playerIds", PList (map (fun pid => PStr (py_str pid)) player_ids));
         ("platform", PStr platform)].

Definition get_stats_batch (self : BF6APIClient) (player_ids : list pyval)
           (platform : string) : M net pyval :=
  match player_ids with
  | [] => ret (PList [])
  | _ =>
      if (128 <? List.length player_ids)%nat
      then raise (ValueError "Maximum 128 players per batch")
      else
        let path := "/bf6/multiple/" in
        let body := batch_body player_ids platform in
        data <- _request self POST path None (Some body) ;;
        match data with
        | PList _ => ret data
        | PDict d =>
            match Dict.get "result" d with
            | Some res => ret res
            | None => ret (PList [data])
            end
        | _ => ret (PList [])
        end
  end.

End Client.

(** ** The pipeline ([src/pipeline.py]) *)

Definition BATCH_SIZE : nat := 128.

(** A [{"name": ..., "platform": ...}] dict as [load_config] and
    [parse_players_arg] build it: both keys present, both values strings. *)
Record PlayerDescriptor : Type := {
  pd_name : string;
  pd_platform : string
}.

(** *** [load_config] *)

(** The [Path] that [load_config] is given, by what the function observes of
    it: [path.exists()], [path.suffix.lower()] and
    [path.read_text(encoding="utf-8")], which gives the text or raises
    ([UnicodeDecodeError] for bytes that are not UTF-8, [IsADirectoryError] for
    a directory). *)
Record config_path : Type := {
  cp_shown : string;          (* f"{path}" *)
  cp_exists : bool;
  cp_suffix_lower : string;
  cp_read_text : result string
}.

Section Config.

(** Whether [import yaml] succeeded, and the two parsers. *)
Variable HAS_YAML : bool.
Variable yaml_safe_load : string -> result pyval.
Variable json_loads : string -> result pyval.

Definition lift {S A} (r : result A) : M S A := fun s => (r, s).

(** Lines 28-42: the parsed document, or the exception raised before one
    exists.  The text is read before the suffix is looked at. *)
Definition load_document (path : config_path) : result pyval :=
  if negb (cp_exists path)
  then inl (FileNotFoundError ("Config not found: " ++ cp_shown path)%string)
  else
    match cp_read_text path with
    | inl e => inl e
    | inr text =>
        let suffix := cp_suffix_lower path in
        if (String.eqb suffix ".yaml" || String.eqb suffix ".yml")%bool then
          if negb HAS_YAML
          then inl (ImportError "PyYAML required for YAML config. pip install pyyaml")
          else yaml_safe_load text
        else if String.eqb suffix ".json" then json_loads text
        else inl (ValueError ("Unsupported config format: " ++ suffix
                              ++ ". Use .yaml or .json")%string)
    end.

(** The dict appended for one entry [p]. *)
Definition descriptor_of (p : dict) : PlayerDescriptor :=
  {| pd_name := py_str (Dict.get_default "name" PNone p);
     pd_platform := py_str (Dict.get_default "platform" (PStr "pc") p) |}.

(** The [for p in players] loop. *)
Fixpoint collect_players (players : list pyval) (out : list PlayerDescriptor)
  : result (list PlayerDescriptor) :=
  match players with
  | [] => inr out
  | p :: rest =>
      match p with
      | PDict d =>
          if Dict.mem "name" d
          then collect_players rest (out ++ [descriptor_of d])
          else inl (ValueError ("Invalid player entry: " ++ py_str p)%string)
      | _ => inl (ValueError ("Invalid player entry: " ++ py_str p)%string)
      end
  end.

(** Lines 43-55, from the parsed document on. *)
Definition players_of_document (data : pyval) : result (list PlayerDescriptor) :=
  let players := match data with
                 | PDict d => Dict.get_default "players" data d
                 | _ => data
                 end in
  match players with
  | PList l => collect_players l []
  | _ => inl (ValueError "Config must contain a 'players' list")
  end.

Definition load_config (path : config_path) : result (list PlayerDescriptor) :=
  match load_document path with
  | inl e => inl e
  | inr data => players_of_document data
  end.

End Config.

(** *** [run_pipeline] *)

(** [ids_by_platform.setdefault(platform, []).append(pid)] on the ordered dict
    of groups. *)
Fixpoint setdefault_append (platform pid : string) (groups : list (string * list string))
  : list (string * list string) :=
  match groups with
  | [] => [(platform, [pid])]
  | (k, ids) :: rest =>
      if String.eqb platform k then (k, ids ++ [pid]) :: rest
      else (k, ids) :: setdefault_append platform pid rest
  end.

(** [range(0, n, step)] *)
Definition py_range_step (n step : nat) : list nat :=
  map (fun k => k * step)%nat (seq 0 ((n + step - 1) / step)).

(** [l[i : i + n]] *)
Definition slice {A} (i n : nat) (l : list A) : list A := firstn n (skipn i l).

(** [results.extend(batch)] *)
Definition extend {S} (results : list pyval) (batch : pyval) : M S (list pyval) :=
  match py_iter batch with
  | Some items => ret (results ++ items)
  | None => raise (TypeError ("'" ++ type_name batch ++ "' object is not iterable")%string)
  end.

Section Pipeline.

Variable server : nat -> request -> reply.

(** [BF6APIClient(rate_limit_sec=...)]: the fresh client starts with
    [_last_request_time = 0.0]. *)
Definition new_client (rate_limit : Z) : M net BF6APIClient :=
  set_last_request_time 0 ;;;
  ret (mk_client BASE_URL rate_limit MAX_RETRIES).

(** [str(info.get("id", info) if isinstance(info, dict) else info)] *)
Definition pid_of (info : pyval) : string :=
  py_str (match info with
          | PDict d => Dict.get_default "id" info d
          | _ => info
          end).

(** The first loop of batch mode. *)
Fixpoint resolve_ids (client : BF6APIClient) (players : list PlayerDescriptor)
         (ids_by_platform : list (string * list string))
  : M net (list (string * list string)) :=
  match players with
  | [] => ret ids_by_platform
  | p :: rest =>
      let platform := pd_platform p in
      ids' <- try_except
                (info <- get_player_id server client (pd_name p) platform ;;
                 ret (setdefault_append platform (pid_of info) ids_by_platform))
                is_BF6APIError
                (ret ids_by_platform) ;;
      resolve_ids client rest ids'
  end.

(** The [for i in range(0, len(id_list), BATCH_SIZE)] loop. *)
Fixpoint fetch_chunks (client : BF6APIClient) (platform : string) (id_list : list string)
         (offsets : list nat) (results : list pyval) : M net (list pyval) :=
  match offsets with
  | [] => ret results
  | i :: rest =>
      let chunk := slice i BATCH_SIZE id_list in
      batch <- get_stats_batch server client (map PStr chunk) platform ;;
      results' <- extend results batch ;;
      fetch_chunks client platform id_list rest results'
  end.

(** The [for platform, id_list in ids_by_platform.items()] loop. *)
Fixpoint fetch_groups (client : BF6APIClient) (groups : list (string * list string))
         (results : list pyval) : M net (list pyval) :=
  match groups with
  | [] => ret results
  | (platform, id_list) :: rest =>
      results' <- fetch_chunks client platform id_list
                    (py_range_step (List.length id_list) BATCH_SIZE) results ;;
      fetch_groups client rest results'
  end.

(** The loop of single mode. *)
Fixpoint fetch_single (client : BF6APIClient) (players : list PlayerDescriptor)
         (results : list pyval) : M net (list pyval) :=
  match players with
  | [] => ret results
  | p :: rest =>
      results' <- try_except
                    (stats <- get_stats server client (Some (pd_name p)) None (pd_platform p) ;;
                     ret (results ++ [stats]))
                    is_BF6APIError
                    (ret results) ;;
      fetch_single client rest results'
  end.

Definition run_pipeline (players : list PlayerDescriptor) (use_batch : bool)
           (rate_limit : Z) : M net (list pyval) :=
  client <- new_client rate_limit ;;
  if (use_batch && (1 <? List.length players)%nat)%bool then
    ids_by_platform <- resolve_ids client players [] ;;
    fetch_groups client ids_by_platform []
  else
    fetch_single client players [].

End Pipeline.

(** ** Storage ([src/storage.py]) *)

Definition SUMMARY_KEYS : list string :=
  [ "userName"; "id"; "userId"; "kills"; "deaths"; "wins"; "loses";
    "winPercent"; "killDeath"; "killsPerMinute"; "damagePerMinute";
    "accuracy"; "headshots"; "timePlayed"; "secondsPlayed"; "matchesPlayed";
    "revives"; "heals"; "resupplies"; "repairs" ].

Definition SQLITE_COLUMNS : list string := ["run_id"; "fetched_at"] ++ SUMMARY_KEYS.

(** A [datetime] in UTC. *)
Record datetime : Type := {
  year : Z; month : Z; day : Z;
  hour : Z; minute : Z; second : Z;
  microsecond : Z
}.

(** Decimal digits of [n], zero-padded on the left to [width]. *)
Definition pad (width : nat) (n : Z) : string :=
  let digits := str_int n in
  (string_of_list_ascii (repeat "0"%char (width - String.length digits)) ++ digits)%string.

(** [now.isoformat().replace("+00:00", "Z")] *)
Definition isoformat_z (t : datetime) : string :=
  (pad 4 (year t) ++ "-" ++ pad 2 (month t) ++ "-" ++ pad 2 (day t) ++ "T" ++
   pad 2 (hour t) ++ ":" ++ pad 2 (minute t) ++ ":" ++ pad 2 (second t) ++
   (if (microsecond t =? 0)%Z then "" else "." ++ pad 6 (microsecond t)) ++ "Z")%string.

(** [now.strftime("%Y%m%d_%H%M%S")], for the years of four digits that the
    clock gives. *)
Definition strftime_stamp (t : datetime) : string :=
  (pad 4 (year t) ++ pad 2 (month t) ++ pad 2 (day t) ++ "_" ++
   pad 2 (hour t) ++ pad 2 (minute t) ++ pad 2 (second t))%string.

(** [Path(dir) / name], kept as the two parts. *)
Definition path : Type := (string * string)%type.

Definition path_eqb (p q : path) : bool :=
  (String.eqb (fst p) (fst q) && String.eqb (snd p) (snd q))%bool.

(** What a writer leaves in a file: the records given to [json.dump], or the
    field names and the rows of field texts given to the [csv] writer. *)
Inductive file : Type :=
| JsonFile (records : list dict)
| CsvFile (fieldnames : list string) (rows : list (list string)).

(** The wall clock is read [ticks] times so far; [dirs] exist; [files] and
    [databases] map a path to its content, a database being the rows of its
    [stats] table, oldest first. *)
Record disk : Type := {
  ticks : nat;
  dirs : list string;
  files : list (path * file);
  databases : list (path * list dict)
}.

Fixpoint lookup {A} (p : path) (m : list (path * A)) : option A :=
  match m with
  | [] => None
  | (q, a) :: m' => if path_eqb p q then Some a else lookup p m'
  end.

Fixpoint store {A} (p : path) (a : A) (m : list (path * A)) : list (path * A) :=
  match m with
  | [] => [(p, a)]
  | (q, b) :: m' => if path_eqb p q then (q, a) :: m' else (q, b) :: store p a m'
  end.

(** The rows of the [stats] table of the database at [p]; none when the file
    does not exist. *)
Definition table_rows (p : path) (d : disk) : list dict :=
  match lookup p (databases d) with
  | Some rows => rows
  | None => []
  end.

(** The text the [csv] writer puts in a field, before quoting: empty for
    [None], [str(v)] otherwise. *)
Definition csv_field (v : pyval) : string :=
  match v with
  | PNone => ""
  | _ => py_str v
  end.

(** Binding a value to the placeholder at position [pos], counted from 1.
    [sqlite3] binds [None], [int] in 64 bits (so [bool] too), [float] and
    [str]; it raises for a list or a dict, with a message that gives the
    position and the type, and for a larger [int]. *)
Definition sqlite_bind (pos : nat) (v : pyval) : result unit :=
  match v with
  | PNone | PBool _ | PFloat _ | PStr _ => inr tt
  | PInt n =>
      if ((- 2 ^ 63 <=? n) && (n <? 2 ^ 63))%bool then inr tt
      else inl (OverflowError "Python int too large to convert to SQLite INTEGER")
  | PList _ | PDict _ =>
      inl (ProgrammingError ("Error binding parameter " ++ str_int (Z.of_nat pos)
                             ++ ": type '" ++ type_name v ++ "' is not supported")%string)
  end.

Definition sqlite_supported (v : pyval) : bool :=
  match sqlite_bind 1 v with inr _ => true | inl _ => false end.

(** The values of a row are bound in the order of the placeholders, which is
    the order of the columns; the first failure is the one raised. *)
Fixpoint bind_parameters (pos : nat) (row : dict) : result unit :=
  match row with
  | [] => inr tt
  | (_, v) :: rest =>
      match sqlite_bind pos v with
      | inl e => inl e
      | inr _ => bind_parameters (S pos) rest
      end
  end.

(** [run_id] is truthy: not [None] and not empty. *)
Definition truthy (run_id : option string) : option string :=
  match run_id with
  | Some (String c s) => Some (String c s)
  | _ => None
  end.

Section Storage.

(** The wall clock: the value of the [n]-th [datetime.now(timezone.utc)]. *)
Variable wall_clock : nat -> datetime.

Definition datetime_now : M disk datetime :=
  fun d => (inr (wall_clock (ticks d)),
            {| ticks := S (ticks d); dirs := dirs d;
               files := files d; databases := databases d |}).

Definition mkdir (dir : string) : M disk unit :=
  fun d => (inr tt,
            {| ticks := ticks d;
               dirs := if existsb (String.eqb dir) (dirs d) then dirs d else dirs d ++ [dir];
               files := files d; databases := databases d |}).

(** [with open(path, "w", ...) as f: ...] on a disk that takes the write: the
    name is that of a file directly in its directory (a run id with a path
    separator in it would make [open] raise). *)
Definition write_file (p : path) (content : file) : M disk unit :=
  fun d => (inr tt,
            {| ticks := ticks d; dirs := dirs d;
               files := store p content (files d); databases := databases d |}).

Definition _stats_filename (run_id : option string) (extension : string) : M disk string :=
  match truthy run_id with
  | Some rid => ret ("stats_" ++ rid ++ "." ++ extension)%string
  | None =>
      t <- datetime_now ;;
      ret ("stats_" ++ strftime_stamp t ++ "." ++ extension)%string
  end.

Definition _ensure_output_dir (output_dir : string) : M disk string :=
  mkdir output_dir ;;; ret output_dir.

(** The [for key in SUMMARY_KEYS] loop of [flatten_summary]. *)
Definition copy_keys (stats : dict) (keys : list string) (out : dict) : dict :=
  fold_left (fun out key =>
               match Dict.get key stats with
               | Some v => Dict.set key v out
               | None => out
               end) keys out.

Definition flatten_summary (stats : dict) : M disk dict :=
  t <- datetime_now ;;
  ret (copy_keys stats SUMMARY_KEYS [("fetched_at", PStr (isoformat_z t))]).

(** [for k in s: if k not in keys: keys.append(k)] *)
Definition add_keys (keys : list string) (s : dict) : list string :=
  fold_left (fun keys k => if existsb (String.eqb k) keys then keys else keys ++ [k])
            (Dict.keys s) keys.

Definition _all_summary_keys (summaries : list dict) : result (list string) :=
  match summaries with
  | [] => inl (IndexError "list index out of range")
  | first :: rest => inr (fold_left add_keys rest (Dict.keys first))
  end.

(** [[f(x) for x in l]] *)
Fixpoint comprehension {S A B} (f : A -> M S B) (l : list A) : M S (list B) :=
  match l with
  | [] => ret []
  | x :: l' =>
      y <- f x ;;
      ys <- comprehension f l' ;;
      ret (y :: ys)
  end.

Definition save_json (results : list dict) (output_dir : string) (run_id : option string)
  : M disk path :=
  out_dir <- _ensure_output_dir output_dir ;;
  name <- _stats_filename run_id "json" ;;
  let p := (out_dir, name) in
  write_file p (JsonFile results) ;;;
  ret p.

(** One row as [DictWriter] hands it to the writer: [rowdict.get(key, "")]
    for each field name, keys outside the header ignored. *)
Definition csv_row (fieldnames : list string) (summary : dict) : list string :=
  map (fun k => csv_field (Dict.get_default k (PStr "") summary)) fieldnames.

Definition save_csv (results : list dict) (output_dir : string) (run_id : option string)
  : M disk path :=
  match results with
  | [] => raise (ValueError "No results to write to CSV")
  | _ =>
      summaries <- comprehension flatten_summary results ;;
      out_dir <- _ensure_output_dir output_dir ;;
      name <- _stats_filename run_id "csv" ;;
      let p := (out_dir, name) in
      fieldnames <- lift (_all_summary_keys summaries) ;;
      write_file p (CsvFile fieldnames (map (csv_row fieldnames) summaries)) ;;;
      ret p
  end.

(** [sqlite3.connect] followed by [CREATE TABLE IF NOT EXISTS]: the table
    exists from here on, whatever happens to the inserts. *)
Definition create_table_if_not_exists (p : path) : M disk unit :=
  fun d => (inr tt,
            {| ticks := ticks d; dirs := dirs d; files := files d;
               databases := match lookup p (databases d) with
                            | Some _ => databases d
                            | None => store p [] (databases d)
                            end |}).

(** [conn.commit()]: the rows inserted on this connection reach the table. *)
Definition commit (p : path) (inserted : list dict) : M disk unit :=
  fun d => (inr tt,
            {| ticks := ticks d; dirs := dirs d; files := files d;
               databases := store p (table_rows p d ++ inserted) (databases d) |}).

(** [cur.execute(insert_sql, row)]: every value is bound; the row joins the
    open transaction. *)
Definition execute_insert (row : dict) (inserted : list dict) : M disk (list dict) :=
  match bind_parameters 1 row with
  | inl e => raise e
  | inr _ => ret (inserted ++ [row])
  end.

(** [{c: summary.get(c) for c in SQLITE_COLUMNS}] *)
Definition row_of (summary : dict) : dict :=
  map (fun c => (c, Dict.get_default c PNone summary)) SQLITE_COLUMNS.

(** The [for stat in results] loop of [save_sqlite]; an exception leaves the
    inserted rows uncommitted, and closing the connection drops them. *)
Fixpoint insert_all (rid fetched_at : string) (results : list dict) (inserted : list dict)
  : M disk (list dict) :=
  match results with
  | [] => ret inserted
  | stat :: rest =>
      summary <- flatten_summary stat ;;
      let summary := Dict.set "run_id" (PStr rid) summary in
      let summary := Dict.set "fetched_at" (PStr fetched_at) summary in
      let row := row_of summary in
      inserted' <- execute_insert row inserted ;;
      insert_all rid fetched_at rest inserted'
  end.

Definition save_sqlite (results : list dict) (output_dir : string) (db_name : string)
           (run_id : option string) : M disk path :=
  match results with
  | [] => ret (output_dir, db_name)
  | _ =>
      out_dir <- _ensure_output_dir output_dir ;;
      let db_path := (out_dir, db_name) in
      t <- datetime_now ;;
      let fetched_at := isoformat_z t in
      let rid := match truthy run_id with
                 | Some r => r
                 | None => strftime_stamp t
                 end in
      create_table_if_not_exists db_path ;;;
      inserted <- insert_all rid fetched_at results [] ;;
      commit db_path inserted ;;;
      ret db_path
  end.

End Storage.

(** ** Reference behaviours the properties are stated against *)

(** What an observer sees of [n] failed attempts that are retried, the first
    of them being attempt number [a]: each HTTP call is followed by a backoff
    of [RETRY_BACKOFF_SEC * (attempt + 1)]. *)
Definition retry_events (req : request) (a n : nat) : list event :=
  flat_map (fun k => [Http req; BackoffSleep (RETRY_BACKOFF_SEC * (Z.of_nat k + 1))])
           (seq a n).

(** The chunks the batch loop of [run_pipeline] cuts one group into: the
    slice at each offset of the [range]. *)
Definition chunks (id_list : list string) : list (list string) :=
  map (fun i => slice i BATCH_SIZE id_list)
      (py_range_step (List.length id_list) BATCH_SIZE).

(** The distinct elements of a list, each at its first occurrence. *)
Fixpoint first_seen (l : list string) : list string :=
  match l with
  | [] => []
  | k :: l' => k :: filter (fun k' => negb (String.eqb k k')) (first_seen l')
  end.

(** The IDs resolved for one platform, in the order they were resolved. *)
Definition ids_on (platform : string) (resolved : list (string * string)) : list string :=
  map snd (filter (fun r => String.eqb platform (fst r)) resolved).

(** [(platform, id)] pairs grouped by platform: the platforms in the order
    of their first pair, the IDs of a platform in the order of its pairs. *)
Definition group_by_platform (resolved : list (string * string))
  : list (string * list string) :=
  map (fun platform => (platform, ids_on platform resolved))
      (first_seen (map fst resolved)).

(** The [(platform, chunk)] pairs of all groups, group after group and chunk
    after chunk. *)
Definition batch_calls (groups : list (string * list string))
  : list (string * list string) :=
  flat_map (fun '(platform, id_list) => map (fun c => (platform, c)) (chunks id_list))
           groups.

(** What [get_player_id] returns for a document the lookup endpoint sends;
    [None] when it raises "could not resolve". *)
Definition info_of (data : pyval) : option pyval :=
  match data with
  | PDict d => if Dict.mem "id" d then Some data else None
  | PList (first :: _) =>
      Some (match first with
            | PDict _ => first
            | _ => PDict [("id", first)]
            end)
  | _ => None
  end.

(** The [(platform, id)] pairs of the players whose lookup document resolves,
    in input order. *)
Definition resolved_ids (lookup_doc : PlayerDescriptor -> pyval)
           (players : list PlayerDescriptor) : list (string * string) :=
  flat_map (fun p => match info_of (lookup_doc p) with
                     | Some info => [(pd_platform p, pid_of info)]
                     | None => []
                     end) players.

Definition lookup_request (client : BF6APIClient) (p : PlayerDescriptor) : request :=
  mk_request client GET "/bf6/player/"
             (Some [("name", PStr (pd_name p)); ("platform", PStr (pd_platform p))]) None.

Definition batch_request (client : BF6APIClient) (call : string * list string) : request :=
  mk_request client POST "/bf6/multiple/" None
             (Some (batch_body (map PStr (snd call)) (fst call))).

(** The result of [get_stats_batch] as the specification words it: the
    server's list as it is; the [result] list of an object that has one; a
    lone object wrapped in a one-element list; the empty list for anything
    else. *)
Definition spec_batch_result (data : pyval) : pyval :=
  match data with
  | PList _ => data
  | PDict d =>
      match Dict.get "result" d with
      | Some (PList l) => PList l
      | _ => PList [data]
      end
  | _ => PList []
  end.

(** The disk after [n] more readings of the wall clock. *)
Definition ticked (n : nat) (d : disk) : disk :=
  {| ticks := ticks d + n; dirs := dirs d; files := files d; databases := databases d |}.

(** The disk when the insert loop of [save_sqlite] starts: the directory
    made, the clock read once, the table created if it was not there. *)
Definition prepared (output_dir db_name : string) (d : disk) : disk :=
  {| ticks := S (ticks d);
     dirs := if existsb (String.eqb output_dir) (dirs d) then dirs d
             else dirs d ++ [output_dir];
     files := files d;
     databases := match lookup (output_dir, db_name) (databases d) with
                  | Some _ => databases d
                  | None => store (output_dir, db_name) [] (databases d)
                  end |}.

(** The run id [save_sqlite] writes: the caller's when it is truthy, the
    stamp of the time of the call otherwise. *)
Definition run_id_of (run_id : option string) (t : datetime) : string :=
  match truthy run_id with
  | Some r => r
  | None => strftime_stamp t
  end.

(** One step of the header loop: [if k not in keys: keys.append(k)]. *)
Definition add_key (keys : list string) (k : string) : list string :=
  if existsb (String.eqb k) keys then keys else keys ++ [k].

(** The allow-list keys a record has, in allow-list order. *)
Definition present (stats : dict) : list string :=
  filter (fun k => Dict.mem k stats) SUMMARY_KEYS.

(** The summary [flatten_summary] builds when the clock reads [t]. *)
Definition summary_at (t : datetime) (stats : dict) : dict :=
  copy_keys stats SUMMARY_KEYS [("fetched_at", PStr (isoformat_z t))].

(** The summaries of a list of records when the clock is read from its
    [k]-th value on, once per record. *)
Fixpoint summaries_from (clock : nat -> datetime) (k : nat) (results : list dict)
  : list dict :=
  match results with
  | [] => []
  | r :: rest => summary_at (clock k) r :: summaries_from clock (S k) rest
  end.

(** The text of the field of column [k] in the row of record [r]: empty when
    the record has no such key. *)
Definition field_text (r : dict) (k : string) : string :=
  match Dict.get k r with
  | Some v => csv_field v
  | None => ""
  end.

(** The row of the [stats] table for record [r]: the run id, the time of the
    call, then each allow-list column, [None] where the record has no value. *)
Definition table_row (rid fetched_at : string) (r : dict) : dict :=
  ("run_id", PStr rid) :: ("fetched_at", PStr fetched_at)
  :: map (fun k => (k, Dict.get_default k PNone r)) SUMMARY_KEYS.

(** Every allow-list value of the record can be bound by [sqlite3]. *)
Definition bindable (r : dict) : bool :=
  forallb (fun k => match Dict.get k r with
                    | Some v => sqlite_supported v
                    | None => true
                    end) SUMMARY_KEYS.

(** A valid player entry: an object that has a ["name"]. *)
Definition valid_entry (p : pyval) : bool :=
  match p with
  | PDict d => Dict.mem "name" d
  | _ => false
  end.

(** The descriptor the specification gives a valid entry: its name, and its
    platform or ["pc"] when the entry has none. *)
Definition spec_descriptor (p : pyval) : PlayerDescriptor :=
  match p with
  | PDict d =>
      {| pd_name := match Dict.get "name" d with Some v => py_str v | None => "" end;
         pd_platform := match Dict.get "platform" d with
                        | Some v => py_str v
                        | None => "pc"
                        end |}
  | _ => {| pd_name := ""; pd_platform := "pc" |}
  end.

(** ** Concrete worlds for the examples *)

Definition quoted (s : string) : string :=
  (String "034"%char s ++ String "034"%char "")%string.

(** A config file [players.json] holding
    [{"players": [{"name": "alice"}, {"name": "carol", "platform": "psn"}]}],
    and a JSON parser that knows this one text. *)
Definition players_json_text : string :=
  ("{" ++ quoted "players" ++ ": [{" ++ quoted "name" ++ ": "
   ++ quoted "alice" ++ "}, {" ++ quoted "name" ++ ": " ++ quoted "carol"
   ++ ", " ++ quoted "platform" ++ ": " ++ quoted "psn" ++ "}]}")%string.

Definition players_json : config_path :=
  {| cp_shown := "players.json"; cp_exists := true; cp_suffix_lower := ".json";
     cp_read_text := inr players_json_text |}.

Definition players_document : pyval :=
  PDict [("players",
          PList [PDict [("name", PStr "alice")];
                 PDict [("name", PStr "carol"); ("platform", PStr "psn")]])].

Definition sample_json_loads (text : string) : result pyval :=
  if String.eqb text players_json_text then inr players_document
  else inl (ValueError "Expecting value: line 1 column 1 (char 0)").

Definition no_yaml (text : string) : result pyval :=
  inl (YAMLError "not available").

(** A config file [team.YML] holding the top-level list
    [[{name: dave, platform: psn}, {name: alice}]] in flow style, and a YAML
    parser that knows this one text. *)
Definition team_yml_text : string := "[{name: dave, platform: psn}, {name: alice}]".

Definition team_yml : config_path :=
  {| cp_shown := "team.YML"; cp_exists := true; cp_suffix_lower := ".yml";
     cp_read_text := inr team_yml_text |}.

Definition team_document : pyval :=
  PList [PDict [("name", PStr "dave"); ("platform", PStr "psn")];
         PDict [("name", PStr "alice")]].

Definition sample_yaml_safe_load (text : string) : result pyval :=
  if String.eqb text team_yml_text then inr team_document
  else inl (YAMLError "could not find expected ':'").

(** A file [players.toml] that exists and whose bytes are not UTF-8. *)
Definition undecodable_toml : config_path :=
  {| cp_shown := "players.toml"; cp_exists := true; cp_suffix_lower := ".toml";
     cp_read_text :=
       inl (UnicodeDecodeError
              "'utf-8' codec can't decode byte 0xff in position 0: invalid start byte") |}.

(** A run that starts at time 0 with nothing sent. *)
Definition fresh : net :=
  {| now := 0; last_request_time := 0; sent := 0; trace := [] |}.

Definition default_client : BF6APIClient :=
  mk_client BASE_URL DEFAULT_RATE_LIMIT_SEC MAX_RETRIES.

(** A server that is down: every call is answered 503 after 20 ms. *)
Definition server_down : nat -> request -> reply :=
  fun _ _ => {| took := 20;
                answer := Response 503 "Service Unavailable" (JsonFail "Expecting value") |}.

(** A server that fails the first call of the run and rejects the following
    ones with 404 and a reported error list. *)
Definition server_rejecting : nat -> request -> reply :=
  fun n _ =>
    match n with
    | O => {| took := 20; answer := RequestException "Connection reset by peer" |}
    | _ => {| took := 35;
              answer := Response 404
                          ("{" ++ quoted "errors" ++ ": [" ++ quoted "player not found" ++ "]}")
                          (JsonOk (PDict [("errors", PList [PStr "player not found"])])) |}
    end.

(** A server that answers every call with the given JSON document. *)
Definition server_answering (text : string) (data : pyval) : nat -> request -> reply :=
  fun _ _ => {| took := 40; answer := Response 200 text (JsonOk data) |}.

(** A server whose player lookup works and whose batch endpoint is down: a
    GET is answered with [{"id": 1000 + n}], a POST with 503. *)
Definition server_batch_down : nat -> request -> reply :=
  fun n r =>
    match req_method r with
    | GET => {| took := 40;
                answer := Response 200 "{}"
                            (JsonOk (PDict [("id", PInt (1000 + Z.of_nat n))])) |}
    | POST => {| took := 20;
                 answer := Response 503 "Service Unavailable" (JsonFail "Expecting value") |}
    end.

Definition alice : PlayerDescriptor := {| pd_name := "alice"; pd_platform := "pc" |}.
Definition bob : PlayerDescriptor := {| pd_name := "bob"; pd_platform := "pc" |}.
Definition carol : PlayerDescriptor := {| pd_name := "carol"; pd_platform := "psn" |}.
Definition dave : PlayerDescriptor := {| pd_name := "dave"; pd_platform := "psn" |}.

(** A server that answers: a lookup with [{"id": "id-<name>"}], a batch with
    one record per requested ID, in the order of the request. *)
Definition echo_lookup (p : PlayerDescriptor) : pyval :=
  PDict [("id", PStr ("id-" ++ pd_name p)%string)].

Definition echo_batch (call : string * list string) : list pyval :=
  map (fun pid => PDict [("id", PStr pid); ("platform", PStr (fst call))]) (snd call).

Definition server_echo : nat -> request -> reply :=
  fun _ r =>
    match req_method r, req_params r, req_json r with
    | GET, Some params, _ =>
        {| took := 40;
           answer := Response 200 "{}"
                       (JsonOk (PDict [("id", PStr ("id-" ++ py_str (Dict.get_default "name" PNone params))%string)])) |}
    | POST, _, Some (PDict body) =>
        {| took := 60;
           answer :=
             Response 200 "[]"
               (JsonOk (PList
                  (match Dict.get "playerIds" body with
                   | Some (PList ids) =>
                       map (fun pid => PDict [("id", pid);
                                              ("platform", Dict.get_default "platform" PNone body)])
                           ids
                   | _ => []
                   end))) |}
    | _, _, _ => {| took := 5; answer := Response 400 "bad request" (JsonFail "Expecting value") |}
    end.

(** [n] players on one platform, named [p0], [p1], ... *)
Definition numbered_players (n : nat) : list PlayerDescriptor :=
  map (fun i => {| pd_name := ("p" ++ str_int (Z.of_nat i))%string; pd_platform := "pc" |})
      (seq 0 n).

(** The number of [playerIds] of each batch call of a trace. *)
Definition batch_sizes (tr : list event) : list nat :=
  flat_map (fun e =>
              match e with
              | Http {| req_method := POST; req_json := Some (PDict body) |} =>
                  match Dict.get "playerIds" body with
                  | Some (PList ids) => [List.length ids]
                  | _ => []
                  end
              | _ => []
              end) tr.

(** A wall clock that advances one second per reading, from
    2026-01-02 03:04:00 UTC. *)
Definition clock_2026 (n : nat) : datetime :=
  {| year := 2026; month := 1; day := 2; hour := 3; minute := 4;
     second := Z.of_nat n; microsecond := 0 |}.

Definition empty_disk : disk :=
  {| ticks := 0; dirs := []; files := []; databases := [] |}.

(** The record of the specification's scenario, and one more. *)
Definition foo_stats : dict :=
  [("id", PInt 1); ("userName", PStr "foo"); ("kills", PInt 10)].

Definition bar_stats : dict :=
  [("userName", PStr "bar"); ("deaths", PInt 4); ("weapons", PList [PStr "M4"])].

(** A disk whose database already holds one row, of an earlier run. *)
Definition disk_with_history : disk :=
  {| ticks := 0; dirs := ["output"]; files := [];
     databases := [(("output", "bf6_stats.db"),
                    [table_row "20251231_235959" "2025-12-31T23:59:59Z" foo_stats])] |}.

(** A record whose [kills] is a list, which [sqlite3] cannot bind. *)
Definition nested_stats : dict :=
  [("userName", PStr "baz"); ("kills", PList [PInt 1; PInt 2])].

(** ** The players argument of the entry point ([main.py]) *)

(** The characters [str.strip()] removes, among the code points below 256:
    tab to carriage return, the four separators 28 to 31, space, NEL and the
    no-break space. *)
Definition is_space (c : ascii) : bool :=
  let n := N_of_ascii c in
  (((9 <=? n) && (n <=? 13)) || ((28 <=? n) && (n <=? 32)) || (n =? 133) || (n =? 160))%N%bool.

(** [s.lstrip()] *)
Fixpoint lstrip (s : string) : string :=
  match s with
  | EmptyString => EmptyString
  | String c s' => if is_space c then lstrip s' else s
  end.

(** [s.rstrip()] *)
Fixpoint rstrip (s : string) : string :=
  match s with
  | EmptyString => EmptyString
  | String c s' =>
      match rstrip s' with
      | EmptyString => if is_space c then EmptyString else String c EmptyString
      | t => String c t
      end
  end.

(** [s.strip()] *)
Definition strip (s : string) : string := lstrip (rstrip s).

(** [s.split(sep)] for a separator of one character: one piece more than
    there are separators. *)
Fixpoint split_char (sep : ascii) (s : string) : list string :=
  match s with
  | EmptyString => [EmptyString]
  | String c s' =>
      if Ascii.eqb c sep then EmptyString :: split_char sep s'
      else match split_char sep s' with
           | piece :: pieces => String c piece :: pieces
           | [] => [String c EmptyString]
           end
  end.

(** [s.split(sep, 1)] when [sep in s]: the text before the first separator
    and the text after it; [None] when [sep not in s]. *)
Fixpoint partition_char (sep : ascii) (s : string) : option (string * string) :=
  match s with
  | EmptyString => None
  | String c s' =>
      if Ascii.eqb c sep then Some (EmptyString, s')
      else match partition_char sep s' with
           | Some (before, after) => Some (String c before, after)
           | None => None
           end
  end.

(** The body of the loop of [parse_players_arg] for one [part]: what it
    appends to [out]. *)
Definition player_of_part (part : string) : list PlayerDescriptor :=
  let part := strip part in
  if String.eqb part "" then []
  else match partition_char ","%char part with
       | Some (name, platform) =>
           [ {| pd_name := strip name;
                pd_platform := if String.eqb (strip platform) "" then "pc"
                               else strip platform |} ]
       | None => [ {| pd_name := strip part; pd_platform := "pc" |} ]
       end.

Definition parse_players_arg (s : string) : list PlayerDescriptor :=
  flat_map player_of_part (split_char ";"%char s).

(** A text without surrounding white space. *)
Definition trimmed (s : string) : bool :=
  (String.eqb (lstrip s) s && String.eqb (rstrip s) s)%bool.

(** A descriptor that [--players] can express: name and platform trimmed and
    free of [;], no [,] in the name, a platform that is not empty. *)
Definition expressible (p : PlayerDescriptor) : bool :=
  (trimmed (pd_name p) && trimmed (pd_platform p)
   && negb (contains_char ";"%char (pd_name p))
   && negb (contains_char ","%char (pd_name p))
   && negb (contains_char ";"%char (pd_platform p))
   && negb (String.eqb (pd_platform p) ""))%bool.

(** The [--players] text for a list of descriptors:
    [name,platform;name,platform;...]. *)
Definition players_arg (players : list PlayerDescriptor) : string :=
  String.concat ";" (map (fun p => pd_name p ++ "," ++ pd_platform p)%string players).

(** ** More reference behaviours and concrete worlds *)

(** The request of single mode for one player. *)
Definition stats_request (client : BF6APIClient) (p : PlayerDescriptor) : request :=
  mk_request client GET "/bf6/stats/"
             (Some [("platform", PStr (pd_platform p)); ("name", PStr (pd_name p))]) None.

(** The number of IDs held by the groups. *)
Definition group_total (groups : list (string * list string)) : nat :=
  List.length (List.concat (map snd groups)).

(** A server whose first reply of the run is lost and that answers from then
    on. *)
Definition server_recovering : nat -> request -> reply :=
  fun n _ =>
    match n with
    | O => {| took := 30000; answer := RequestException "Read timed out." |}
    | _ => {| took := 40;
              answer := Response 200 "{}" (JsonOk (PDict [("id", PInt 7)])) |}
    end.

(** A server that answers 200 with a page that is not JSON. *)
Definition server_garbled : nat -> request -> reply :=
  fun _ _ => {| took := 40;
                answer := Response 200 "<html>maintenance</html>"
                            (JsonFail "Expecting value: line 1 column 1 (char 0)") |}.

(** A server that knows nobody. *)
Definition server_unknown : nat -> request -> reply :=
  fun _ _ => {| took := 40;
                answer := Response 404 "not found" (JsonFail "Expecting value") |}.

Definition client_without_attempts : BF6APIClient :=
  mk_client BASE_URL DEFAULT_RATE_LIMIT_SEC 0.

(** A server whose lookups work as those of [server_echo] and whose batch
    endpoint answers [{"result": 5}]. *)
Definition server_result_5 : nat -> request -> reply :=
  fun n r =>
    match req_method r with
    | GET => server_echo n r
    | POST => {| took := 60;
                 answer := Response 200 ("{" ++ quoted "result" ++ ": 5}")
                             (JsonOk (PDict [("result", PInt 5)])) |}
    end.

(** [server_echo] for everybody but dave, whose lookup is answered with the
    empty list: he is not known. *)
Definition server_without_dave : nat -> request -> reply :=
  fun n r =>
    match req_method r, req_params r with
    | GET, Some params =>
        if String.eqb (py_str (Dict.get_default "name" PNone params)) "dave"
        then {| took := 40; answer := Response 200 "[]" (JsonOk (PList [])) |}
        else server_echo n r
    | _, _ => server_echo n r
    end.

Definition lookup_without_dave (p : PlayerDescriptor) : pyval :=
  if String.eqb (pd_name p) "dave" then PList [] else echo_lookup p.

(** The platform of each lookup of a trace, and of each batch call. *)
Definition lookup_platforms (tr : list event) : list string :=
  flat_map (fun e =>
              match e with
              | Http {| req_method := GET; req_params := Some params |} =>
                  match Dict.get "platform" params with
                  | Some (PStr platform) => [platform]
                  | _ => []
                  end
              | _ => []
              end) tr.

Definition batch_platforms (tr : list event) : list string :=
  flat_map (fun e =>
              match e with
              | Http {| req_method := POST; req_json := Some (PDict body) |} =>
                  match Dict.get "platform" body with
                  | Some (PStr platform) => [platform]
                  | _ => []
                  end
              | _ => []
              end) tr.

(** The names of the types of the JSON values that cannot be iterated. *)
Definition scalar_type_names : list string := ["NoneType"; "bool"; "int"; "float"].

(** The order of the groups as the specification words it: the platforms in
    the order in which the resolution loop first meets them, whether the
    lookup of the player succeeds or not. *)
Definition platforms_encountered (players : list PlayerDescriptor) : list string :=
  first_seen (map pd_platform players).

Definition nameless : PlayerDescriptor := {| pd_name := ""; pd_platform := "pc" |}.

(** * Properties *)

(** ** The monad *)

Lemma bind_ok {S A B} (c : M S A) (k : A -> M S B) s a s1 :
  c s = (inr a, s1) -> bind c k s = k a s1.
Proof. unfold bind; intros ->; reflexivity. Qed.

Lemma bind_raise {S A B} (c : M S A) (k : A -> M S B) s e s1 :
  c s = (inl e, s1) -> bind c k s = (inl e, s1).
Proof. unfold bind; intros ->; reflexivity. Qed.

(** ** Arithmetic *)

Lemma geb_false a b : a < b -> (a >=? b) = false.
Proof. intros H. rewrite Z.geb_leb. apply Z.leb_gt. exact H. Qed.

Lemma geb_true a b : b <= a -> (a >=? b) = true.
Proof. intros H. rewrite Z.geb_leb. apply Z.leb_le. exact H. Qed.

(** ** Traces *)

Lemma visible_app tr1 tr2 : visible (tr1 ++ tr2) = visible tr1 ++ visible tr2.
Proof. unfold visible; apply filter_app. Qed.

Lemma advances_refl s : advances s s 0 [].
Proof.
  split; [lia|]. exists []. split; [now rewrite app_nil_r | reflexivity].
Qed.

Lemma advances_trans s1 s2 s3 n m tr1 tr2 :
  advances s1 s2 n tr1 -> advances s2 s3 m tr2 ->
  advances s1 s3 (n + m) (tr1 ++ tr2).
Proof.
  intros [Hn (w1 & Hw1 & Hv1)] [Hm (w2 & Hw2 & Hv2)]. split; [lia|].
  exists (w1 ++ w2). split.
  - rewrite Hw2, Hw1, app_assoc. reflexivity.
  - rewrite visible_app. congruence.
Qed.

(** ** The request loop *)

Section ClientFacts.

Variable server : nat -> request -> reply.
Variable self : BF6APIClient.
Variable req : request.

Lemma wait_advances s :
  exists s1, _wait_rate_limit self s = (inr tt, s1) /\ advances s s1 0 [].
Proof.
  unfold _wait_rate_limit, bind, monotonic, get_last_request_time,
    set_last_request_time, time_sleep, ret.
  destruct (now s - last_request_time s <? rate_limit_sec self); cbn.
  - eexists; split; [reflexivity|]. split; cbn; [lia|].
    eexists; split; reflexivity.
  - eexists; split; [reflexivity|]. split; cbn; [lia|].
    exists []; split; [now rewrite app_nil_r | reflexivity].
Qed.

Lemma send_advances s :
  exists s1, http_send server req s = (inr (answer (server (sent s) req)), s1)
             /\ advances s s1 1 [Http req].
Proof.
  unfold http_send. eexists; split; [reflexivity|]. split; cbn; [lia|].
  eexists; split; reflexivity.
Qed.

(** One attempt up to the reply: the rate limiter, then the HTTP call. *)
Lemma attempt_sends (k : outcome -> M net pyval) s :
  exists s1,
    bind (_wait_rate_limit self) (fun _ => bind (http_send server req) k) s
    = k (answer (server (sent s) req)) s1
    /\ advances s s1 1 [Http req].
Proof.
  destruct (wait_advances s) as (s0 & Hw & Ha0).
  destruct (send_advances s0) as (s1 & Hs & Ha1).
  exists s1. split.
  - rewrite (bind_ok _ _ _ _ _ Hw), (bind_ok _ _ _ _ _ Hs).
    destruct Ha0 as [E _]. rewrite E, Nat.add_0_r. reflexivity.
  - apply (advances_trans _ _ _ _ _ _ _ Ha0 Ha1).
Qed.

Lemma request_loop_cons attempt rest :
  request_loop server self req (attempt :: rest) =
  bind (_wait_rate_limit self) (fun _ =>
    bind (http_send server req) (fun r =>
      match r with
      | RequestException e =>
          bind (_sleep_or_raise self attempt ("Request failed: " ++ e)%string)
               (fun _ => request_loop server self req rest)
      | Response status_code text body =>
          if status_code >=? 500 then
            bind (_sleep_or_raise self attempt
                    ("Server error " ++ str_int status_code ++ ": "
                     ++ prefix_str 200 text)%string)
                 (fun _ => request_loop server self req rest)
          else if status_code >=? 400 then
            raise (BF6APIError ("API error " ++ str_int status_code ++ ": "
                                ++ py_str (errors_of text body))%string)
          else
            match body with
            | JsonOk v => ret v
            | JsonFail e => raise (BF6APIError ("Invalid JSON response: " ++ e)%string)
            end
      end)).
Proof. reflexivity. Qed.

(** A failed attempt that is not the last one: back off, go on. *)
Lemma attempt_retries attempt rest s :
  retryable (answer (server (sent s) req)) = true ->
  attempt <> max_retries self - 1 ->
  exists s1,
    request_loop server self req (attempt :: rest) s
    = request_loop server self req rest s1
    /\ advances s s1 1 [Http req; BackoffSleep (RETRY_BACKOFF_SEC * (attempt + 1))].
Proof.
  intros Hr Hne. rewrite request_loop_cons.
  match goal with |- context [bind (http_send _ _) ?k] =>
    destruct (attempt_sends k s) as (s1 & -> & Ha) end.
  apply Z.eqb_neq in Hne.
  assert (Hsleep : forall m,
    bind (_sleep_or_raise self attempt m)
         (fun _ => request_loop server self req rest) s1
    = request_loop server self req rest
        {| now := now s1 + RETRY_BACKOFF_SEC * (attempt + 1);
           last_request_time := last_request_time s1;
           sent := sent s1;
           trace := trace s1 ++ [BackoffSleep (RETRY_BACKOFF_SEC * (attempt + 1))] |}).
  { intros m. unfold bind, _sleep_or_raise. rewrite Hne. reflexivity. }
  eexists. split.
  - destruct (answer (server (sent s) req)) as [e | st text body]; cbn in Hr.
    + apply Hsleep.
    + rewrite Hr. apply Hsleep.
  - replace [Http req; BackoffSleep (RETRY_BACKOFF_SEC * (attempt + 1))]
      with ([Http req] ++ [BackoffSleep (RETRY_BACKOFF_SEC * (attempt + 1))])
      by reflexivity.
    replace 1%nat with (1 + 0)%nat by reflexivity.
    eapply advances_trans; [exact Ha|].
    split; cbn; [lia|]. eexists; split; reflexivity.
Qed.

(** A failed last attempt raises with the message of that failure. *)
Lemma attempt_gives_up attempt rest s :
  retryable (answer (server (sent s) req)) = true ->
  attempt = max_retries self - 1 ->
  exists s1,
    request_loop server self req (attempt :: rest) s
    = (inl (BF6APIError (failure_message (answer (server (sent s) req)))), s1)
    /\ advances s s1 1 [Http req].
Proof.
  intros Hr He. rewrite request_loop_cons.
  match goal with |- context [bind (http_send _ _) ?k] =>
    destruct (attempt_sends k s) as (s1 & -> & Ha) end.
  apply Z.eqb_eq in He.
  exists s1. split; [|exact Ha].
  destruct (answer (server (sent s) req)) as [e | st text body]; cbn in Hr |- *.
  - unfold bind, _sleep_or_raise. rewrite He. reflexivity.
  - rewrite Hr. unfold bind, _sleep_or_raise. rewrite He. reflexivity.
Qed.

(** A 4xx reply raises on the spot. *)
Lemma attempt_rejected attempt rest s status_code text body :
  answer (server (sent s) req) = Response status_code text body ->
  400 <= status_code < 500 ->
  exists s1,
    request_loop server self req (attempt :: rest) s
    = (inl (BF6APIError ("API error " ++ str_int status_code ++ ": "
                         ++ py_str (errors_of text body))%string), s1)
    /\ advances s s1 1 [Http req].
Proof.
  intros Hans [Hlo Hhi]. rewrite request_loop_cons.
  match goal with |- context [bind (http_send _ _) ?k] =>
    destruct (attempt_sends k s) as (s1 & -> & Ha) end.
  exists s1. split; [|exact Ha]. rewrite Hans.
  replace (status_code >=? 500) with false by (symmetry; apply geb_false; lia).
  replace (status_code >=? 400) with true by (symmetry; apply geb_true; lia).
  reflexivity.
Qed.

(** A reply below 400 whose body parses is returned. *)
Lemma attempt_succeeds attempt rest s status_code text v :
  answer (server (sent s) req) = Response status_code text (JsonOk v) ->
  status_code < 400 ->
  exists s1,
    request_loop server self req (attempt :: rest) s = (inr v, s1)
    /\ advances s s1 1 [Http req].
Proof.
  intros Hans Hlt. rewrite request_loop_cons.
  match goal with |- context [bind (http_send _ _) ?k] =>
    destruct (attempt_sends k s) as (s1 & -> & Ha) end.
  exists s1. split; [|exact Ha]. rewrite Hans.
  replace (status_code >=? 500) with false by (symmetry; apply geb_false; lia).
  replace (status_code >=? 400) with false by (symmetry; apply geb_false; lia).
  reflexivity.
Qed.

End ClientFacts.

Section RequestFacts.

Variable server : nat -> request -> reply.
Variable self : BF6APIClient.
Variable req : request.

(** [n] failed attempts in a row, none of them the last, are all retried. *)
Lemma attempts_retry n : forall a m s,
  (forall k, (k < n)%nat -> retryable (answer (server (sent s + k) req)) = true) ->
  Z.of_nat (a + n) < max_retries self ->
  exists s1,
    request_loop server self req (map Z.of_nat (seq a (n + m))) s
    = request_loop server self req (map Z.of_nat (seq (a + n) m)) s1
    /\ advances s s1 n (retry_events req a n).
Proof.
  induction n as [|n IH]; intros a m s Hfail Hlt.
  - exists s. rewrite Nat.add_0_r. split; [reflexivity | apply advances_refl].
  - cbn [Nat.add seq map].
    destruct (attempt_retries server self req (Z.of_nat a)
                (map Z.of_nat (seq (S a) (n + m))) s) as (s1 & E1 & A1).
    { specialize (Hfail 0%nat). rewrite Nat.add_0_r in Hfail. apply Hfail. lia. }
    { lia. }
    destruct (IH (S a) m s1) as (s2 & E2 & A2).
    { intros k Hk. destruct A1 as [Es _]. rewrite Es.
      replace (sent s + 1 + k)%nat with (sent s + S k)%nat by lia.
      apply Hfail. lia. }
    { lia. }
    exists s2. split.
    + rewrite E1, E2. replace (S a + n)%nat with (a + S n)%nat by lia. reflexivity.
    + replace (S n) with (1 + n)%nat by reflexivity.
      unfold retry_events. cbn [seq flat_map].
      apply (advances_trans _ _ _ _ _ _ _ A1 A2).
Qed.

(** The loop sends at most one HTTP call per attempt. *)
Lemma request_loop_bound attempts : forall s,
  (sent (snd (request_loop server self req attempts s)) <= sent s + List.length attempts)%nat.
Proof.
  induction attempts as [|attempt rest IH]; intros s.
  - cbn. lia.
  - rewrite request_loop_cons.
    match goal with |- context [bind (http_send _ _) ?k] =>
      destruct (attempt_sends server self req k s) as (s1 & -> & [Es _]) end.
    assert (Hsleep : forall m,
      (sent (snd (bind (_sleep_or_raise self attempt m)
                       (fun _ => request_loop server self req rest) s1))
       <= sent s + S (List.length rest))%nat).
    { intros m. unfold bind, _sleep_or_raise.
      destruct (attempt =? max_retries self - 1); cbn.
      - lia.
      - match goal with |- context [request_loop _ _ _ rest ?x] =>
          specialize (IH x); cbn in IH end. lia. }
    cbn [List.length].
    destruct (answer (server (sent s) req)) as [e | st text body].
    + apply Hsleep.
    + destruct (st >=? 500); [apply Hsleep|].
      destruct (st >=? 400); [cbn; lia|].
      destruct body; cbn; lia.
Qed.

End RequestFacts.

Lemma py_range_seq n : py_range (Z.of_nat n) = map Z.of_nat (seq 0 n).
Proof. unfold py_range. rewrite Nat2Z.id. reflexivity. Qed.

Lemma prefix_str_length n s : (String.length (prefix_str n s) <= n)%nat.
Proof.
  unfold prefix_str. revert s. induction n as [|n IH]; intros [|c s]; cbn; try lia.
  specialize (IH s). lia.
Qed.

(** ** C2: retry exhaustion *)

(** C2.  A client with the default [max_retries] of 3 sends at most three HTTP
    calls per [_request].  When the three attempts all fail with a network
    error or a 5xx status, the call raises [BF6APIError] with the message of
    the third failure, after exactly three calls, having slept 1 s after the
    first failure and 2 s after the second and not after the third. *)
Theorem request_retry_exhaustion
  (server : nat -> request -> reply) (self : BF6APIClient)
  (method : http_method) (path : string) (params : option dict) (json : option pyval)
  (s : net) :
  max_retries self = MAX_RETRIES ->
  let req := mk_request self method path params json in
  (sent (snd (_request server self method path params json s)) <= sent s + 3)%nat
  /\ ((forall k, (k < 3)%nat -> retryable (answer (server (sent s + k)%nat req)) = true) ->
      exists s',
        _request server self method path params json s
        = (inl (BF6APIError (failure_message (answer (server (sent s + 2)%nat req)))), s')
        /\ advances s s' 3
             [Http req; BackoffSleep 1000; Http req; BackoffSleep 2000; Http req]).
Proof.
  intros Hmax req. unfold _request. fold req. rewrite Hmax.
  change MAX_RETRIES with (Z.of_nat 3). rewrite py_range_seq. split.
  - apply (request_loop_bound server self req (map Z.of_nat (seq 0 3)) s).
  - intros Hfail.
    destruct (attempts_retry server self req 2 0 1 s) as (s1 & E1 & A1).
    { intros k Hk. apply Hfail. lia. }
    { rewrite Hmax. reflexivity. }
    destruct (attempt_gives_up server self req 2 [] s1) as (s2 & E2 & A2).
    { destruct A1 as [Es _]. rewrite Es. apply Hfail. lia. }
    { rewrite Hmax. reflexivity. }
    exists s2. split.
    + change (seq 0 3) with (seq 0 (2 + 1)). rewrite E1. cbn [Nat.add seq map].
      change (Z.of_nat 2) with 2. rewrite E2.
      destruct A1 as [Es _]. rewrite Es. reflexivity.
    + apply (advances_trans _ _ _ _ _ _ _ A1 A2).
Qed.

(** ** C3: a 4xx reply is not retried *)

(** C3.  When an attempt of [_request] is answered with a status in
    [400, 500), the earlier attempts (if any) having been retried, the call
    raises [BF6APIError] right there: the trace ends with that HTTP call, with
    no backoff and no further attempt.  The error embeds the status and
    [errors]: the value the body reports under ["errors"] when the body is a
    JSON object that has it, and the one-element list of the first 200
    characters of the raw body otherwise, in particular when the body does
    not parse. *)
Theorem request_4xx_fails_without_retry
  (server : nat -> request -> reply) (self : BF6APIClient)
  (method : http_method) (path : string) (params : option dict) (json : option pyval)
  (s : net) (n : nat) (status_code : Z) (text : string) (body : json_body) :
  let req := mk_request self method path params json in
  Z.of_nat n < max_retries self ->
  (forall k, (k < n)%nat -> retryable (answer (server (sent s + k)%nat req)) = true) ->
  answer (server (sent s + n)%nat req) = Response status_code text body ->
  400 <= status_code < 500 ->
  exists s',
    _request server self method path params json s
    = (inl (BF6APIError ("API error " ++ str_int status_code ++ ": "
                           ++ py_str (errors_of text body))%string), s')
    /\ advances s s' (n + 1) (retry_events req 0 n ++ [Http req])
    /\ (forall err reported,
          body = JsonOk (PDict err) -> Dict.get "errors" err = Some reported ->
          errors_of text body = reported)
    /\ (forall e, body = JsonFail e ->
          errors_of text body = PList [PStr (substring 0 200 text)])
    /\ (String.length (substring 0 200 text) <= 200)%nat.
Proof.
  intros req Hn Hfail Hans Hst. unfold _request. fold req.
  assert (Hm : exists m, Z.to_nat (max_retries self) = (n + S m)%nat).
  { exists (Z.to_nat (max_retries self) - n - 1)%nat. lia. }
  destruct Hm as (m & Hm). unfold py_range. rewrite Hm.
  destruct (attempts_retry server self req n 0 (S m) s Hfail) as (s1 & E1 & A1).
  { cbn. exact Hn. }
  cbn [Nat.add] in E1. cbn [seq map] in E1.
  destruct (attempt_rejected server self req (Z.of_nat n)
              (map Z.of_nat (seq (S n) m)) s1 status_code text body)
    as (s2 & E2 & A2).
  { destruct A1 as [Es _]. rewrite Es. exact Hans. }
  { exact Hst. }
  exists s2. repeat split.
  - rewrite E1, E2. reflexivity.
  - destruct (advances_trans _ _ _ _ _ _ _ A1 A2) as [E _]. exact E.
  - destruct (advances_trans _ _ _ _ _ _ _ A1 A2) as [_ E]. exact E.
  - intros err reported -> Hget. cbn. unfold Dict.get_default. rewrite Hget. reflexivity.
  - intros e ->. reflexivity.
  - apply (prefix_str_length 200 text).
Qed.

Lemma request_retry_exhaustion_witness :
  exists s',
    _request server_down default_client GET "/bf6/stats/" None None fresh
    = (inl (BF6APIError "Server error 503: Service Unavailable"), s')
    /\ advances fresh s' 3
         [Http (mk_request default_client GET "/bf6/stats/" None None);
          BackoffSleep 1000;
          Http (mk_request default_client GET "/bf6/stats/" None None);
          BackoffSleep 2000;
          Http (mk_request default_client GET "/bf6/stats/" None None)].
Proof.
  destruct (request_retry_exhaustion server_down default_client GET "/bf6/stats/"
              None None fresh eq_refl) as [_ H].
  apply H. intros k Hk. reflexivity.
Defined.

Lemma request_4xx_fails_without_retry_witness :
  exists s',
    _request server_rejecting default_client GET "/bf6/player/" None None fresh
    = (inl (BF6APIError "API error 404: ['player not found']"), s')
    /\ advances fresh s' 2
         [Http (mk_request default_client GET "/bf6/player/" None None);
          BackoffSleep 1000;
          Http (mk_request default_client GET "/bf6/player/" None None)].
Proof.
  destruct (request_4xx_fails_without_retry server_rejecting default_client GET
              "/bf6/player/" None None fresh 1 404
              ("{" ++ quoted "errors" ++ ": [" ++ quoted "player not found" ++ "]}")
              (JsonOk (PDict [("errors", PList [PStr "player not found"])])))
    as (s' & E & A & _).
  - reflexivity.
  - intros k Hk. assert (k = 0%nat) as -> by lia. reflexivity.
  - reflexivity.
  - lia.
  - exists s'. split; [exact E | exact A].
Defined.

(** ** C4 and C9: [get_stats_batch] *)

(** With 1 to 128 IDs, [get_stats_batch] is its one [_request] followed by the
    inspection of the document. *)
Lemma get_stats_batch_sends
  (server : nat -> request -> reply) (self : BF6APIClient)
  (player_ids : list pyval) (platform : string) (s : net) :
  player_ids <> [] -> (List.length player_ids <= 128)%nat ->
  get_stats_batch server self player_ids platform s
  = bind (_request server self POST "/bf6/multiple/" None
                   (Some (batch_body player_ids platform)))
         (fun data =>
            match data with
            | PList _ => ret data
            | PDict d =>
                match Dict.get "result" d with
                | Some res => ret res
                | None => ret (PList [data])
                end
            | _ => ret (PList [])
            end) s.
Proof.
  intros Hne Hlen. unfold get_stats_batch.
  destruct player_ids as [|pid rest]; [congruence|].
  replace (128 <? List.length (pid :: rest))%nat with false
    by (symmetry; apply Nat.ltb_ge; exact Hlen).
  reflexivity.
Qed.

(** C9.  With an empty list of player IDs, whatever the platform,
    [get_stats_batch] returns the empty list and leaves the state as it was:
    no HTTP call, no wait of the rate limiter, no sleep, no exception. *)
Theorem get_stats_batch_empty
  (server : nat -> request -> reply) (self : BF6APIClient) (platform : string) (s : net) :
  get_stats_batch server self [] platform s = (inr (PList []), s).
Proof. reflexivity. Qed.

(** [get_stats_batch], branch by branch.  More than 128 IDs raise
    [ValueError] with the state untouched, so nothing is sent.  With 1 to 128 IDs the function makes
    one [_request] (POST, [/bf6/multiple/]); an exception of that call is
    passed on; a list is returned as it is; from an object with a ["result"]
    key the value under that key is returned, whatever its type; an object
    without that key is wrapped in a one-element list; anything else gives
    the empty list. *)
Lemma get_stats_batch_shapes
  (server : nat -> request -> reply) (self : BF6APIClient)
  (player_ids : list pyval) (platform : string) (s : net) :
  ((128 < List.length player_ids)%nat ->
   get_stats_batch server self player_ids platform s
   = (inl (ValueError "Maximum 128 players per batch"), s))
  /\ (player_ids <> [] -> (List.length player_ids <= 128)%nat ->
      forall r s',
        _request server self POST "/bf6/multiple/" None
                 (Some (batch_body player_ids platform)) s = (r, s') ->
        match r with
        | inl e => get_stats_batch server self player_ids platform s = (inl e, s')
        | inr data =>
            exists out,
              get_stats_batch server self player_ids platform s = (inr out, s')
              /\ (forall l, data = PList l -> out = PList l)
              /\ (forall d v, data = PDict d -> Dict.get "result" d = Some v -> out = v)
              /\ (forall d, data = PDict d -> Dict.get "result" d = None ->
                  out = PList [PDict d])
              /\ ((forall l, data <> PList l) -> (forall d, data <> PDict d) ->
                  out = PList [])
        end).
Proof.
  split.
  - intros Hlen. unfold get_stats_batch.
    destruct player_ids as [|pid rest]; [cbn in Hlen; lia|].
    apply Nat.ltb_lt in Hlen. rewrite Hlen. reflexivity.
  - intros Hne Hlen r s' Hreq. unfold get_stats_batch.
    destruct player_ids as [|pid rest]; [congruence|].
    replace (128 <? List.length (pid :: rest))%nat with false
      by (symmetry; apply Nat.ltb_ge; exact Hlen).
    destruct r as [e | data].
    + apply bind_raise. exact Hreq.
    + rewrite (bind_ok _ _ _ _ _ Hreq).
      destruct data as [| b | n | f | str | l | d]; cbn;
        try (eexists; split; [reflexivity|];
             repeat split; intros; try congruence; reflexivity).
      destruct (Dict.get "result" d) as [v|] eqn:Hres;
        (eexists; split; [reflexivity|]); repeat split; intros; congruence.
Qed.

Lemma get_stats_batch_shapes_at_limit :
  get_stats_batch server_down default_client (repeat (PStr "1001") 129) "pc" fresh
  = (inl (ValueError "Maximum 128 players per batch"), fresh)
  /\ exists s',
       get_stats_batch (server_answering "[]" (PList [])) default_client
                       [PStr "1001"] "pc" fresh
       = (inr (PList []), s').
Proof.
  split.
  - apply (get_stats_batch_shapes server_down default_client
             (repeat (PStr "1001") 129) "pc" fresh).
    cbn. lia.
  - destruct (get_stats_batch_shapes (server_answering "[]" (PList [])) default_client
                [PStr "1001"] "pc" fresh) as [_ H].
    specialize (H ltac:(discriminate) ltac:(cbn; lia) (inr (PList [])) _ eq_refl).
    destruct H as (out & E & Hlist & _).
    rewrite (Hlist [] eq_refl) in E. eexists. exact E.
Defined.

(** C4, at the input where the code departs from it.  The batch endpoint
    answers [{"result": 5}].  [get_stats_batch] returns the integer 5, which
    is no list: the value under ["result"] is returned unchecked, where the
    specification gives the object wrapped in a list, and where the
    annotation [-> list[dict]] and every other branch of the function give a
    list.  [run_pipeline], which extends its results with what the call
    returns, then fails with a [TypeError]. *)
Theorem get_stats_batch_result_not_a_list :
  let data := PDict [("result", PInt 5)] in
  fst (_request server_result_5 default_client POST "/bf6/multiple/" None
                (Some (batch_body [PStr "1001"] "pc")) fresh) = inr data
  /\ fst (get_stats_batch server_result_5 default_client [PStr "1001"] "pc" fresh)
     = inr (PInt 5)
  /\ spec_batch_result data = PList [data]
  /\ fst (run_pipeline server_result_5 [alice; bob] true DEFAULT_RATE_LIMIT_SEC fresh)
     = inl (TypeError "'int' object is not iterable").
Proof. vm_compute. repeat split; reflexivity. Qed.

(** ** C1: what [run_pipeline] does with a [BF6APIError] *)

Section PipelineErrors.

Variable server : nat -> request -> reply.
Variable client : BF6APIClient.

(** Single mode: a player whose fetch raises [BF6APIError] is skipped and
    the loop goes on with the players that remain. *)
Lemma fetch_single_skips p rest results s m s1 :
  get_stats server client (Some (pd_name p)) None (pd_platform p) s
  = (inl (BF6APIError m), s1) ->
  fetch_single server client (p :: rest) results s
  = fetch_single server client rest results s1.
Proof.
  intros H. cbn [fetch_single]. unfold bind at 1, try_except.
  rewrite (bind_raise _ _ _ _ _ H). reflexivity.
Qed.

Lemma fetch_single_keeps p rest results s stats s1 :
  get_stats server client (Some (pd_name p)) None (pd_platform p) s
  = (inr stats, s1) ->
  fetch_single server client (p :: rest) results s
  = fetch_single server client rest (results ++ [stats]) s1.
Proof.
  intros H. cbn [fetch_single]. unfold bind at 1, try_except.
  rewrite (bind_ok _ _ _ _ _ H). reflexivity.
Qed.

(** Single mode never lets a [BF6APIError] out. *)
Lemma fetch_single_no_api_error players : forall results s e,
  fst (fetch_single server client players results s) = inl e ->
  is_BF6APIError e = false.
Proof.
  induction players as [|p rest IH]; intros results s e.
  - cbn. discriminate.
  - destruct (get_stats server client (Some (pd_name p)) None (pd_platform p) s)
      as [[ex | stats] s1] eqn:H.
    + destruct ex as [m| | | | | | | | | | ];
        try (cbn [fetch_single]; unfold bind at 1, try_except;
             rewrite (bind_raise _ _ _ _ _ H); cbn; intros [= <-]; reflexivity).
      rewrite (fetch_single_skips _ _ _ _ _ _ H). apply IH.
    + rewrite (fetch_single_keeps _ _ _ _ _ _ H). apply IH.
Qed.

(** Batch mode, first loop: a player whose lookup raises [BF6APIError] is
    skipped as well. *)
Lemma resolve_ids_skips p rest ids s m s1 :
  get_player_id server client (pd_name p) (pd_platform p) s
  = (inl (BF6APIError m), s1) ->
  resolve_ids server client (p :: rest) ids s
  = resolve_ids server client rest ids s1.
Proof.
  intros H. cbn [resolve_ids]. unfold bind at 1, try_except.
  rewrite (bind_raise _ _ _ _ _ H). reflexivity.
Qed.

Lemma resolve_ids_keeps p rest ids s info s1 :
  get_player_id server client (pd_name p) (pd_platform p) s = (inr info, s1) ->
  resolve_ids server client (p :: rest) ids s
  = resolve_ids server client rest
      (setdefault_append (pd_platform p) (pid_of info) ids) s1.
Proof.
  intros H. cbn [resolve_ids]. unfold bind at 1, try_except.
  rewrite (bind_ok _ _ _ _ _ H). reflexivity.
Qed.

(** Batch mode, second loop: the exception of a [get_stats_batch] call
    leaves the loop, whatever it is; there is no handler around it. *)
Lemma fetch_chunks_raises platform id_list i rest results s e s1 :
  get_stats_batch server client (map PStr (slice i BATCH_SIZE id_list)) platform s
  = (inl e, s1) ->
  fetch_chunks server client platform id_list (i :: rest) results s = (inl e, s1).
Proof.
  intros H. cbn [fetch_chunks]. apply bind_raise. exact H.
Qed.

End PipelineErrors.

(** C1, at the input where the code departs from it.  Two players on one
    platform, batch mode, lookups answered, the batch endpoint down: the
    [BF6APIError] of the third failed attempt leaves [run_pipeline], while
    single mode on the same server returns normally with the players
    dropped. *)
Theorem run_pipeline_batch_error_propagates :
  fst (run_pipeline server_batch_down [alice; bob] true DEFAULT_RATE_LIMIT_SEC fresh)
  = inl (BF6APIError "Server error 503: Service Unavailable").
Proof. vm_compute. reflexivity. Qed.

(** Single mode, by contrast, returns normally for every server and every
    list of players unless a non-client exception occurs. *)
Lemma run_pipeline_single_no_api_error server players rate s e :
  fst (run_pipeline server players false rate s) = inl e ->
  is_BF6APIError e = false.
Proof.
  unfold run_pipeline, new_client. cbn [andb].
  unfold bind at 1. unfold bind at 1. cbn.
  apply fetch_single_no_api_error.
Qed.

(** ** Chunks *)

Lemma offsets_step n :
  (0 < n)%nat ->
  py_range_step n 128 = 0%nat :: map (fun i => 128 + i)%nat (py_range_step (n - 128) 128).
Proof.
  intros Hn. unfold py_range_step.
  assert (E : ((n + 128 - 1) / 128 = S ((n - 128 + 128 - 1) / 128))%nat).
  { destruct (Nat.le_gt_cases n 128) as [Hle | Hgt].
    - replace (n - 128)%nat with 0%nat by lia.
      change ((0 + 128 - 1) / 128)%nat with 0%nat.
      symmetry. apply (Nat.div_unique _ 128 1 (n - 1)); lia.
    - replace (n + 128 - 1)%nat with ((n - 128 + 128 - 1) + 1 * 128)%nat by lia.
      rewrite Nat.div_add by lia. lia. }
  rewrite E. cbn [seq map]. f_equal.
  rewrite <- seq_shift, !map_map. apply map_ext. intros k. lia.
Qed.

Lemma chunks_nil : chunks [] = [].
Proof. reflexivity. Qed.

Lemma chunks_cons id_list :
  id_list <> [] ->
  chunks id_list = firstn 128 id_list :: chunks (skipn 128 id_list).
Proof.
  intros Hne. unfold chunks, BATCH_SIZE.
  rewrite offsets_step by (destruct id_list; [congruence | cbn; lia]).
  cbn [map]. f_equal. rewrite length_skipn, map_map. apply map_ext. intros i.
  unfold slice. rewrite skipn_skipn. f_equal. f_equal. lia.
Qed.

(** Induction along the way a list is cut into chunks. *)
Lemma chunks_ind (P : list string -> Prop) :
  P [] ->
  (forall l, l <> [] -> P (skipn 128 l) -> P l) ->
  forall l, P l.
Proof.
  intros Hnil Hstep l.
  assert (H : forall n l, (List.length l <= n)%nat -> P l).
  { clear l. induction n as [|n IH]; intros l Hl.
    - destruct l; [exact Hnil | cbn in Hl; lia].
    - destruct l as [|x l']; [exact Hnil|].
      apply Hstep; [discriminate|]. apply IH.
      rewrite length_skipn. cbn [List.length] in *. lia. }
  apply (H (List.length l)). lia.
Qed.

Lemma concat_chunks l : List.concat (chunks l) = l.
Proof.
  induction l as [|l Hne IH] using chunks_ind; [reflexivity|].
  rewrite (chunks_cons l Hne). cbn [List.concat]. rewrite IH. apply firstn_skipn.
Qed.

Lemma chunks_sizes l :
  Forall (fun c => (1 <= List.length c <= 128)%nat) (chunks l).
Proof.
  induction l as [|l Hne IH] using chunks_ind; [constructor|].
  rewrite (chunks_cons l Hne). constructor; [|exact IH].
  rewrite length_firstn. destruct l; [congruence | cbn [List.length]; lia].
Qed.

(** The sizes of the chunks: as many full chunks as fit, then the rest. *)
Lemma chunks_lengths l :
  map (@List.length string) (chunks l)
  = repeat 128%nat (List.length l / 128)
    ++ (if (List.length l mod 128 =? 0)%nat then [] else [(List.length l mod 128)%nat]).
Proof.
  induction l as [|l Hne IH] using chunks_ind; [reflexivity|].
  rewrite (chunks_cons l Hne). cbn [map]. rewrite IH, length_skipn, length_firstn.
  assert (Hpos : (0 < List.length l)%nat)
    by (destruct l; [congruence | cbn [List.length]; lia]).
  remember (List.length l) as n eqn:En. clear En IH Hne l.
  destruct (Nat.le_gt_cases 128 n) as [Hge | Hlt].
  - assert (Hd : (n / 128 = S ((n - 128) / 128))%nat).
    { replace n with ((n - 128) + 1 * 128)%nat at 1 by lia.
      rewrite Nat.div_add by lia. lia. }
    assert (Hm : (n mod 128 = (n - 128) mod 128)%nat).
    { replace n with ((n - 128) + 1 * 128)%nat at 1 by lia.
      apply Nat.Div0.mod_add. }
    rewrite Hd, Hm. cbn [repeat app]. f_equal. lia.
  - replace (n - 128)%nat with 0%nat by lia.
    rewrite (Nat.div_small n 128), (Nat.mod_small n 128) by lia.
    change (0 / 128)%nat with 0%nat. change (0 mod 128)%nat with 0%nat.
    cbn [repeat app Nat.eqb].
    destruct n as [|n]; [lia|]. cbn [Nat.eqb]. f_equal. lia.
Qed.

Lemma chunks_of_300 l :
  List.length l = 300%nat -> map (@List.length string) (chunks l) = [128; 128; 44]%nat.
Proof. intros H. rewrite chunks_lengths, H. reflexivity. Qed.

(** Every offset of the [range] lies inside the list. *)
Lemma offsets_inside n : Forall (fun i => (i < n)%nat) (py_range_step n 128).
Proof.
  assert (H : forall m n, (n <= m)%nat -> Forall (fun i => (i < n)%nat) (py_range_step n 128)).
  { clear n. induction m as [|m IH]; intros n Hn.
    - replace n with 0%nat by lia. constructor.
    - destruct n as [|n]; [constructor|].
      rewrite offsets_step by lia. constructor; [lia|].
      apply Forall_map. eapply Forall_impl; [|apply (IH (S n - 128)%nat); lia].
      cbn beta. intros i Hi. lia. }
  apply (H n). lia.
Qed.

(** ** First occurrences and groups *)

Lemma existsb_eqb_In k l : existsb (String.eqb k) l = true <-> In k l.
Proof.
  rewrite existsb_exists. split.
  - intros (x & Hin & E). apply String.eqb_eq in E. subst. exact Hin.
  - intros Hin. exists k. split; [exact Hin | apply String.eqb_refl].
Qed.

Lemma existsb_eqb_false k l : existsb (String.eqb k) l = false <-> ~ In k l.
Proof.
  rewrite <- existsb_eqb_In. destruct (existsb (String.eqb k) l); split; intros H;
    congruence.
Qed.

Lemma first_seen_In k l : In k (first_seen l) <-> In k l.
Proof.
  induction l as [|a l IH]; cbn [first_seen]; [tauto|].
  cbn [In]. rewrite filter_In, IH. split.
  - intros [H | [H _]]; auto.
  - intros [H | H]; [auto|].
    destruct (String.eqb a k) eqn:E.
    + apply String.eqb_eq in E. auto.
    + right. split; [exact H | reflexivity].
Qed.

Lemma first_seen_NoDup l : NoDup (first_seen l).
Proof.
  induction l as [|a l IH]; cbn [first_seen]; constructor.
  - rewrite filter_In. intros [_ H]. rewrite String.eqb_refl in H. discriminate.
  - apply NoDup_filter. exact IH.
Qed.

Lemma first_seen_snoc l k :
  first_seen (l ++ [k])
  = if existsb (String.eqb k) l then first_seen l else first_seen l ++ [k].
Proof.
  induction l as [|a l IH]; [reflexivity|].
  cbn [app first_seen existsb]. rewrite IH.
  destruct (existsb (String.eqb k) l).
  - rewrite orb_true_r. reflexivity.
  - rewrite orb_false_r, filter_app. cbn [filter].
    rewrite (String.eqb_sym k a). destruct (String.eqb a k); cbn [negb].
    + rewrite app_nil_r. reflexivity.
    + reflexivity.
Qed.

Lemma first_seen_NoDup_id l : NoDup l -> first_seen l = l.
Proof.
  induction 1 as [|a l Hnotin Hnd IH]; [reflexivity|].
  cbn [first_seen]. rewrite IH. f_equal.
  apply forallb_filter_id. apply forallb_forall. intros x Hx.
  destruct (String.eqb a x) eqn:E; [|reflexivity].
  apply String.eqb_eq in E. subst. contradiction.
Qed.

Lemma ids_on_snoc k l platform pid :
  ids_on k (l ++ [(platform, pid)])
  = ids_on k l ++ (if String.eqb platform k then [pid] else []).
Proof.
  unfold ids_on. rewrite filter_app, map_app. cbn [filter fst].
  rewrite (String.eqb_sym k platform). destruct (String.eqb platform k); reflexivity.
Qed.

Lemma ids_on_absent k l : ~ In k (map fst l) -> ids_on k l = [].
Proof.
  induction l as [|[a b] l IH]; [reflexivity|].
  cbn [map fst In]. intros H. unfold ids_on in *. cbn [filter fst].
  destruct (String.eqb k a) eqn:E.
  - apply String.eqb_eq in E. subst. tauto.
  - apply IH. tauto.
Qed.

(** [setdefault(...).append(...)] on groups with distinct keys: the group of
    the platform grows at its end, or a new group goes last. *)
Lemma setdefault_append_map (g : string -> list string) platform pid keys :
  NoDup keys ->
  setdefault_append platform pid (map (fun k => (k, g k)) keys)
  = map (fun k => (k, g k ++ (if String.eqb platform k then [pid] else []))) keys
    ++ (if existsb (String.eqb platform) keys then [] else [(platform, [pid])]).
Proof.
  induction 1 as [|k keys Hnotin Hnd IH]; [reflexivity|].
  cbn [map setdefault_append existsb app].
  destruct (String.eqb platform k) eqn:E; cbn [orb].
  - apply String.eqb_eq in E. subst k. rewrite app_nil_r. f_equal.
    apply map_ext_in. intros k' Hk'.
    destruct (String.eqb platform k') eqn:E'.
    + apply String.eqb_eq in E'. subst. contradiction.
    + rewrite app_nil_r. reflexivity.
  - rewrite IH, app_nil_r. reflexivity.
Qed.

Lemma group_by_platform_snoc l platform pid :
  group_by_platform (l ++ [(platform, pid)])
  = setdefault_append platform pid (group_by_platform l).
Proof.
  unfold group_by_platform.
  rewrite (setdefault_append_map (fun k => ids_on k l)) by apply first_seen_NoDup.
  rewrite map_app. cbn [map fst]. rewrite first_seen_snoc.
  destruct (existsb (String.eqb platform) (map fst l)) eqn:E.
  - assert (E' : existsb (String.eqb platform) (first_seen (map fst l)) = true).
    { apply existsb_eqb_In, first_seen_In, existsb_eqb_In, E. }
    rewrite E', app_nil_r. apply map_ext. intros k. now rewrite ids_on_snoc.
  - assert (E' : existsb (String.eqb platform) (first_seen (map fst l)) = false).
    { apply existsb_eqb_false. rewrite first_seen_In. apply existsb_eqb_false, E. }
    rewrite E', map_app. cbn [map]. f_equal.
    + apply map_ext. intros k. now rewrite ids_on_snoc.
    + rewrite ids_on_snoc, String.eqb_refl.
      rewrite ids_on_absent by (apply existsb_eqb_false, E). reflexivity.
Qed.

(** The ordered dict that the first loop of batch mode builds. *)
Lemma setdefault_append_fold resolved :
  fold_left (fun groups r => setdefault_append (fst r) (snd r) groups) resolved []
  = group_by_platform resolved.
Proof.
  induction resolved as [|[platform pid] l IH] using rev_ind; [reflexivity|].
  rewrite fold_left_app. cbn [fold_left fst snd]. rewrite IH.
  symmetry. apply group_by_platform_snoc.
Qed.

(** ** Batch mode against a server that answers *)

Lemma py_range_pos n : 0 < n -> exists rest, py_range n = 0 :: rest.
Proof.
  intros Hn. unfold py_range.
  destruct (Z.to_nat n) as [|m] eqn:E; [lia|].
  cbn [seq map]. eexists. reflexivity.
Qed.

Section BatchMode.

Variable server : nat -> request -> reply.
Variable client : BF6APIClient.
Hypothesis Hmax : 0 < max_retries client.

Lemma request_answered method path params json s text doc :
  answer (server (sent s) (mk_request client method path params json))
  = Response 200 text (JsonOk doc) ->
  exists s1,
    _request server client method path params json s = (inr doc, s1)
    /\ advances s s1 1 [Http (mk_request client method path params json)].
Proof.
  intros Hans. unfold _request.
  destruct (py_range_pos _ Hmax) as (rest & ->).
  apply (attempt_succeeds server client _ 0 rest s 200 text doc Hans). lia.
Qed.

Lemma get_player_id_answered p s text doc :
  answer (server (sent s) (lookup_request client p)) = Response 200 text (JsonOk doc) ->
  exists s1,
    get_player_id server client (pd_name p) (pd_platform p) s
    = (match info_of doc with
       | Some info => inr info
       | None => inl (could_not_resolve (pd_name p) (pd_platform p))
       end, s1)
    /\ advances s s1 1 [Http (lookup_request client p)].
Proof.
  intros Hans.
  destruct (request_answered GET "/bf6/player/"
              (Some [("name", PStr (pd_name p)); ("platform", PStr (pd_platform p))])
              None s text doc Hans) as (s1 & E & A).
  exists s1. split; [|exact A].
  unfold get_player_id. rewrite (bind_ok _ _ _ _ _ E).
  destruct doc as [| b | n | f | str | [|first l] | d]; try reflexivity.
  cbn [info_of]. destruct (Dict.mem "id" d); reflexivity.
Qed.

Variable lookup_doc : PlayerDescriptor -> pyval.

Lemma resolve_ids_answered players : forall ids s,
  (forall n p, In p players ->
     exists text,
       answer (server n (lookup_request client p)) = Response 200 text (JsonOk (lookup_doc p))) ->
  exists s',
    resolve_ids server client players ids s
    = (inr (fold_left (fun groups r => setdefault_append (fst r) (snd r) groups)
                      (resolved_ids lookup_doc players) ids), s')
    /\ advances s s' (List.length players)
         (map (fun p => Http (lookup_request client p)) players).
Proof.
  induction players as [|p rest IH]; intros ids s Hsrv.
  - exists s. split; [reflexivity | apply advances_refl].
  - destruct (Hsrv (sent s) p (or_introl eq_refl)) as (text & Hans).
    destruct (get_player_id_answered p s text _ Hans) as (s1 & E & A1).
    unfold resolved_ids. cbn [flat_map]. fold (resolved_ids lookup_doc rest).
    destruct (info_of (lookup_doc p)) as [info|].
    + rewrite (resolve_ids_keeps _ _ _ _ _ _ _ _ E).
      destruct (IH (setdefault_append (pd_platform p) (pid_of info) ids) s1)
        as (s' & E' & A').
      { intros n q Hq. apply Hsrv. right. exact Hq. }
      exists s'. split; [exact E'|].
      apply (advances_trans _ _ _ 1 _ [_] _ A1 A').
    + rewrite (resolve_ids_skips _ _ _ _ _ _ _ _ E).
      destruct (IH ids s1) as (s' & E' & A').
      { intros n q Hq. apply Hsrv. right. exact Hq. }
      exists s'. split; [exact E'|].
      apply (advances_trans _ _ _ 1 _ [_] _ A1 A').
Qed.

Variable batch_doc : string * list string -> list pyval.

Lemma get_stats_batch_answered call s text :
  snd call <> [] -> (List.length (snd call) <= 128)%nat ->
  answer (server (sent s) (batch_request client call))
  = Response 200 text (JsonOk (PList (batch_doc call))) ->
  exists s1,
    get_stats_batch server client (map PStr (snd call)) (fst call) s
    = (inr (PList (batch_doc call)), s1)
    /\ advances s s1 1 [Http (batch_request client call)].
Proof.
  intros Hne Hlen Hans.
  destruct (request_answered POST "/bf6/multiple/" None
              (Some (batch_body (map PStr (snd call)) (fst call))) s text _ Hans)
    as (s1 & E & A).
  exists s1. split; [|exact A].
  rewrite get_stats_batch_sends.
  - rewrite (bind_ok _ _ _ _ _ E). reflexivity.
  - destruct (snd call); [congruence | discriminate].
  - rewrite length_map. exact Hlen.
Qed.

Lemma fetch_chunks_answered platform id_list offsets : forall results s,
  Forall (fun i => (i < List.length id_list)%nat) offsets ->
  let calls := map (fun i => (platform, slice i BATCH_SIZE id_list)) offsets in
  (forall n call, In call calls ->
     exists text,
       answer (server n (batch_request client call))
       = Response 200 text (JsonOk (PList (batch_doc call)))) ->
  exists s',
    fetch_chunks server client platform id_list offsets results s
    = (inr (results ++ flat_map batch_doc calls), s')
    /\ advances s s' (List.length calls)
         (map (fun call => Http (batch_request client call)) calls).
Proof.
  induction offsets as [|i rest IH]; intros results s Hin calls Hsrv.
  - exists s. cbn. rewrite app_nil_r. split; [reflexivity | apply advances_refl].
  - subst calls. cbn [map] in *.
    set (call := (platform, slice i BATCH_SIZE id_list)) in *.
    inversion Hin as [|? ? Hi Hrest]; subst.
    destruct (Hsrv (sent s) call (or_introl eq_refl)) as (text & Hans).
    destruct (get_stats_batch_answered call s text) as (s1 & E & A1).
    { cbn [snd call]. unfold slice, BATCH_SIZE. intros Hnil.
      apply (f_equal (@List.length string)) in Hnil.
      rewrite length_firstn, length_skipn in Hnil. cbn [List.length] in Hnil. lia. }
    { cbn [snd call]. unfold slice, BATCH_SIZE. rewrite length_firstn. lia. }
    { exact Hans. }
    destruct (IH (results ++ batch_doc call) s1 Hrest) as (s' & E' & A').
    { intros n c Hc. apply Hsrv. right. exact Hc. }
    exists s'. split.
    + cbn [fetch_chunks]. fold call. cbn [fst snd call] in E.
      rewrite (bind_ok _ _ _ _ _ E). unfold extend. cbn [py_iter].
      unfold bind at 1, ret at 1. rewrite E'. cbn [flat_map].
      rewrite app_assoc. reflexivity.
    + cbn [List.length].
      apply (advances_trans _ _ _ 1 _ [_] _ A1 A').
Qed.

Lemma fetch_groups_answered groups : forall results s,
  (forall n call, In call (batch_calls groups) ->
     exists text,
       answer (server n (batch_request client call))
       = Response 200 text (JsonOk (PList (batch_doc call)))) ->
  exists s',
    fetch_groups server client groups results s
    = (inr (results ++ flat_map batch_doc (batch_calls groups)), s')
    /\ advances s s' (List.length (batch_calls groups))
         (map (fun call => Http (batch_request client call)) (batch_calls groups)).
Proof.
  induction groups as [|[platform id_list] rest IH]; intros results s Hsrv.
  - exists s. cbn. rewrite app_nil_r. split; [reflexivity | apply advances_refl].
  - assert (Ecalls : batch_calls ((platform, id_list) :: rest)
                     = map (fun i => (platform, slice i BATCH_SIZE id_list))
                           (py_range_step (List.length id_list) BATCH_SIZE)
                       ++ batch_calls rest).
    { unfold batch_calls at 1. cbn [flat_map]. unfold chunks. rewrite map_map.
      reflexivity. }
    rewrite Ecalls in *.
    destruct (fetch_chunks_answered platform id_list
                (py_range_step (List.length id_list) BATCH_SIZE) results s)
      as (s1 & E1 & A1).
    { apply offsets_inside. }
    { intros n call Hc. apply Hsrv. apply in_or_app. left. exact Hc. }
    destruct (IH (results ++ flat_map batch_doc
                    (map (fun i => (platform, slice i BATCH_SIZE id_list))
                         (py_range_step (List.length id_list) BATCH_SIZE))) s1)
      as (s' & E' & A').
    { intros n call Hc. apply Hsrv. apply in_or_app. right. exact Hc. }
    exists s'. split.
    + cbn [fetch_groups]. rewrite (bind_ok _ _ _ _ _ E1), E'.
      rewrite flat_map_app, app_assoc. reflexivity.
    + rewrite length_app, map_app. apply (advances_trans _ _ _ _ _ _ _ A1 A').
Qed.

End BatchMode.

Lemma flat_map_map_concat {A B} (f : A -> B) (ls : list (list A)) :
  flat_map (map f) ls = map f (List.concat ls).
Proof. rewrite flat_map_concat_map, concat_map. reflexivity. Qed.

(** Records that come back one per ID, in the order asked, come out of the
    chunked calls in the order of the IDs of each group. *)
Lemma batch_calls_keep_order (record : string -> string -> pyval)
      (groups : list (string * list string)) :
  flat_map (fun call => map (record (fst call)) (snd call)) (batch_calls groups)
  = flat_map (fun g => map (record (fst g)) (snd g)) groups.
Proof.
  induction groups as [|[platform id_list] rest IH]; [reflexivity|].
  unfold batch_calls in *. cbn [flat_map fst snd]. rewrite flat_map_app, IH. f_equal.
  rewrite flat_map_concat_map, map_map. cbn [fst snd].
  rewrite <- concat_map, concat_chunks. reflexivity.
Qed.

(** ** C5: chunks of the batch mode *)

(** C5.  Batch mode against a server that answers every lookup with a JSON
    document and every batch call with a JSON list.  The players whose lookup
    document resolves are grouped by platform, the platforms in the order of
    their first resolved player.  [run_pipeline] then sends, after the
    lookups, exactly one batch call per chunk, group after group and chunk
    after chunk, and returns the lists that come back, concatenated in that
    order.  The chunks of a group are consecutive pieces of its ID list (their
    concatenation is the list), each of 1 to 128 IDs; 300 IDs give chunks of
    128, 128 and 44.  When the server returns one record per ID in the order
    asked, the records come out in the order of the IDs of each group. *)
Theorem run_pipeline_batch_chunks
  (server : nat -> request -> reply) (players : list PlayerDescriptor) (rate : Z)
  (s : net) (lookup_doc : PlayerDescriptor -> pyval)
  (batch_doc : string * list string -> list pyval) :
  let client := mk_client BASE_URL rate MAX_RETRIES in
  let resolved := resolved_ids lookup_doc players in
  let groups := group_by_platform resolved in
  (1 < List.length players)%nat ->
  (forall n p, In p players ->
     exists text,
       answer (server n (lookup_request client p)) = Response 200 text (JsonOk (lookup_doc p))) ->
  (forall n call, In call (batch_calls groups) ->
     exists text,
       answer (server n (batch_request client call))
       = Response 200 text (JsonOk (PList (batch_doc call)))) ->
  (exists s',
     run_pipeline server players true rate s
     = (inr (flat_map batch_doc (batch_calls groups)), s')
     /\ advances s s' (List.length players + List.length (batch_calls groups))
          (map (fun p => Http (lookup_request client p)) players
           ++ map (fun call => Http (batch_request client call)) (batch_calls groups)))
  /\ map fst groups = first_seen (map fst resolved)
  /\ (forall platform id_list, In (platform, id_list) groups ->
        id_list = ids_on platform resolved)
  /\ (forall id_list,
        List.concat (chunks id_list) = id_list
        /\ Forall (fun c => (1 <= List.length c <= 128)%nat) (chunks id_list)
        /\ (List.length id_list = 300%nat ->
            map (@List.length string) (chunks id_list) = [128; 128; 44]%nat))
  /\ (forall record : string -> string -> pyval,
        (forall call, batch_doc call = map (record (fst call)) (snd call)) ->
        flat_map batch_doc (batch_calls groups)
        = flat_map (fun g => map (record (fst g)) (snd g)) groups).
Proof.
  intros client resolved groups Hlen Hlookup Hbatch.
  assert (Hmax : 0 < max_retries client) by reflexivity.
  repeat split.
  - destruct (resolve_ids_answered server client Hmax lookup_doc players []
                {| now := now s; last_request_time := 0; sent := sent s; trace := trace s |}
                Hlookup) as (s1 & E1 & A1).
    rewrite setdefault_append_fold in E1. fold resolved groups in E1.
    destruct (fetch_groups_answered server client Hmax batch_doc groups [] s1 Hbatch)
      as (s' & E' & A').
    exists s'. split.
    + unfold run_pipeline, new_client.
      apply Nat.ltb_lt in Hlen. rewrite Hlen. cbn [andb].
      unfold bind at 1. unfold bind at 1. cbn [set_last_request_time ret].
      fold client. rewrite (bind_ok _ _ _ _ _ E1). exact E'.
    + assert (A0 : advances s {| now := now s; last_request_time := 0;
                                 sent := sent s; trace := trace s |} 0 []).
      { split; cbn; [lia|]. exists []. split; [now rewrite app_nil_r | reflexivity]. }
      apply (advances_trans _ _ _ 0 _ [] _ A0).
      apply (advances_trans _ _ _ _ _ _ _ A1 A').
  - unfold groups, group_by_platform. rewrite map_map. cbn [fst]. apply map_id.
  - intros platform id_list Hin. unfold groups, group_by_platform in Hin.
    apply in_map_iff in Hin. destruct Hin as (k & [= <- <-] & _). reflexivity.
  - apply concat_chunks.
  - apply chunks_sizes.
  - apply chunks_of_300.
  - intros record Hrec. rewrite <- batch_calls_keep_order.
    apply flat_map_ext. exact Hrec.
Qed.

Lemma run_pipeline_batch_chunks_witness :
  (exists s',
     run_pipeline server_echo [alice; carol; bob] true DEFAULT_RATE_LIMIT_SEC fresh
     = (inr [PDict [("id", PStr "id-alice"); ("platform", PStr "pc")];
             PDict [("id", PStr "id-bob"); ("platform", PStr "pc")];
             PDict [("id", PStr "id-carol"); ("platform", PStr "psn")]], s'))
  /\ (exists s',
        run_pipeline server_without_dave [dave; alice; carol] true
                     DEFAULT_RATE_LIMIT_SEC fresh
        = (inr [PDict [("id", PStr "id-alice"); ("platform", PStr "pc")];
                PDict [("id", PStr "id-carol"); ("platform", PStr "psn")]], s'))
  /\ map fst (group_by_platform (resolved_ids lookup_without_dave [dave; alice; carol]))
     = ["pc"; "psn"].
Proof.
  split; [|split].
  - destruct (run_pipeline_batch_chunks server_echo [alice; carol; bob]
                DEFAULT_RATE_LIMIT_SEC fresh echo_lookup echo_batch)
      as [(s' & E & _) _].
    + cbn. lia.
    + intros n p [<- | [<- | [<- | []]]]; eexists; reflexivity.
    + intros n call [<- | [<- | []]]; eexists; reflexivity.
    + exists s'. exact E.
  - destruct (run_pipeline_batch_chunks server_without_dave [dave; alice; carol]
                DEFAULT_RATE_LIMIT_SEC fresh lookup_without_dave echo_batch)
      as [(s' & E & _) _].
    + cbn. lia.
    + intros n p [<- | [<- | [<- | []]]]; eexists; reflexivity.
    + intros n call [<- | [<- | []]]; eexists; reflexivity.
    + exists s'. exact E.
  - destruct (run_pipeline_batch_chunks server_without_dave [dave; alice; carol]
                DEFAULT_RATE_LIMIT_SEC fresh lookup_without_dave echo_batch)
      as (_ & Horder & _).
    + cbn. lia.
    + intros n p [<- | [<- | [<- | []]]]; eexists; reflexivity.
    + intros n call [<- | [<- | []]]; eexists; reflexivity.
    + rewrite Horder. reflexivity.
Defined.

(** C5, the scenario of the specification run on the model: 300 players of
    one platform, every lookup and batch call answered.  There are three
    batch calls, of 128, 128 and 44 IDs, and the records come back in the
    order of the players. *)
Lemma run_pipeline_300_players :
  let run := run_pipeline server_echo (numbered_players 300) true
                          DEFAULT_RATE_LIMIT_SEC fresh in
  batch_sizes (trace (snd run)) = [128; 128; 44]%nat
  /\ fst run
     = inr (map (fun p => PDict [("id", PStr ("id-" ++ pd_name p)%string);
                                 ("platform", PStr "pc")])
                (numbered_players 300)).
Proof. vm_compute. split; reflexivity. Qed.

(** C5, against its wording on the order of the groups.  Dave, on psn, comes
    first and is not known to the server; alice is on pc and carol on psn.
    The lookups meet psn first, then pc; the batch calls go to pc first, then
    to psn, because a platform gets its group at its first successful
    lookup. *)
Lemma run_pipeline_groups_not_in_encounter_order :
  let players := [dave; alice; carol] in
  let run := run_pipeline server_without_dave players true DEFAULT_RATE_LIMIT_SEC fresh in
  fst run = inr [PDict [("id", PStr "id-alice"); ("platform", PStr "pc")];
                 PDict [("id", PStr "id-carol"); ("platform", PStr "psn")]]
  /\ lookup_platforms (trace (snd run)) = ["psn"; "pc"; "psn"]
  /\ platforms_encountered players = ["psn"; "pc"]
  /\ batch_platforms (trace (snd run)) = ["pc"; "psn"]
  /\ batch_platforms (trace (snd run)) <> platforms_encountered players.
Proof. vm_compute. repeat split; try reflexivity. discriminate. Qed.

(** ** C6: [load_config] *)

Lemma dict_mem_get k d : Dict.mem k d = true <-> exists v, Dict.get k d = Some v.
Proof.
  induction d as [|[k' v'] d IH]; cbn.
  - split; [discriminate | intros (v & H); discriminate].
  - destruct (String.eqb k k'); [|exact IH].
    split; [eexists; reflexivity | reflexivity].
Qed.

Lemma descriptor_of_spec d :
  Dict.mem "name" d = true -> descriptor_of d = spec_descriptor (PDict d).
Proof.
  intros Hmem. apply dict_mem_get in Hmem. destruct Hmem as (v & Hv).
  unfold descriptor_of, spec_descriptor, Dict.get_default. rewrite Hv.
  destruct (Dict.get "platform" d); reflexivity.
Qed.

Lemma collect_players_valid entries : forall out,
  forallb valid_entry entries = true ->
  collect_players entries out = inr (out ++ map spec_descriptor entries).
Proof.
  induction entries as [|p rest IH]; intros out Hall.
  - cbn. now rewrite app_nil_r.
  - cbn [forallb] in Hall. apply andb_prop in Hall. destruct Hall as [Hp Hrest].
    destruct p as [| | | | | |d]; try discriminate Hp.
    cbn [valid_entry] in Hp. cbn [collect_players map]. rewrite Hp.
    rewrite (IH _ Hrest), (descriptor_of_spec d Hp), <- app_assoc. reflexivity.
Qed.

Lemma collect_players_invalid entries : forall out,
  forallb valid_entry entries = false ->
  exists p,
    In p entries /\ valid_entry p = false
    /\ collect_players entries out = inl (ValueError ("Invalid player entry: " ++ py_str p)%string).
Proof.
  induction entries as [|p rest IH]; intros out Hall; [discriminate|].
  cbn [forallb] in Hall. destruct (valid_entry p) eqn:Hp.
  - cbn [andb] in Hall. destruct (IH (out ++ [spec_descriptor p]) Hall) as (q & Hin & Hq & E).
    exists q. split; [right; exact Hin|]. split; [exact Hq|].
    destruct p as [| | | | | |d]; try discriminate Hp.
    cbn [valid_entry] in Hp. cbn [collect_players]. rewrite Hp.
    rewrite (descriptor_of_spec d Hp). exact E.
  - exists p. split; [left; reflexivity|]. split; [exact Hp|].
    destruct p as [| | | | | |d]; try reflexivity.
    cbn [valid_entry] in Hp. cbn [collect_players]. rewrite Hp. reflexivity.
Qed.

(** When the file is there, its text can be read, and the parser that the
    suffix selects accepts the text, the document is what that parser gives:
    [json.loads] for [.json], [yaml.safe_load] for [.yaml] and [.yml] when
    PyYAML is installed. *)
Lemma load_document_parsed
  (HAS_YAML : bool) (yaml_safe_load json_loads : string -> result pyval)
  (path : config_path) (text : string) (data : pyval) :
  cp_exists path = true ->
  cp_read_text path = inr text ->
  (cp_suffix_lower path = ".json" /\ json_loads text = inr data)
  \/ ((cp_suffix_lower path = ".yaml" \/ cp_suffix_lower path = ".yml")
      /\ HAS_YAML = true /\ yaml_safe_load text = inr data) ->
  load_document HAS_YAML yaml_safe_load json_loads path = inr data.
Proof.
  intros Hex Htext Hparse. unfold load_document. rewrite Hex, Htext. cbn [negb].
  destruct Hparse as [[-> Hj] | [[-> | ->] [-> Hy]]]; cbn; assumption.
Qed.

(** There is no other way to a document. *)
Lemma load_document_inr
  (HAS_YAML : bool) (yaml_safe_load json_loads : string -> result pyval)
  (path : config_path) (data : pyval) :
  load_document HAS_YAML yaml_safe_load json_loads path = inr data ->
  cp_exists path = true
  /\ exists text,
       cp_read_text path = inr text
       /\ ((cp_suffix_lower path = ".json" /\ json_loads text = inr data)
           \/ ((cp_suffix_lower path = ".yaml" \/ cp_suffix_lower path = ".yml")
               /\ HAS_YAML = true /\ yaml_safe_load text = inr data)).
Proof.
  unfold load_document.
  destruct (cp_exists path); cbn [negb]; [|discriminate].
  destruct (cp_read_text path) as [e | text]; [discriminate|].
  intros H. split; [reflexivity|]. exists text. split; [reflexivity|].
  destruct (String.eqb (cp_suffix_lower path) ".yaml") eqn:E1.
  - apply String.eqb_eq in E1. cbn [orb] in H.
    destruct HAS_YAML; cbn [negb] in H; [|discriminate]. right. auto.
  - destruct (String.eqb (cp_suffix_lower path) ".yml") eqn:E2.
    + apply String.eqb_eq in E2. cbn [orb] in H.
      destruct HAS_YAML; cbn [negb] in H; [|discriminate]. right. auto.
    + cbn [orb] in H.
      destruct (String.eqb (cp_suffix_lower path) ".json") eqn:E3; [|discriminate].
      apply String.eqb_eq in E3. left. auto.
Qed.

Lemma players_of_document_entries data entries :
  data = PList entries
  \/ (exists d, data = PDict d /\ Dict.get "players" d = Some (PList entries)) ->
  players_of_document data = collect_players entries [].
Proof.
  intros [-> | (d & -> & Hd)]; [reflexivity|].
  unfold players_of_document, Dict.get_default. rewrite Hd. reflexivity.
Qed.

(** C6.  A missing file raises [FileNotFoundError].  Take a file that is
    there, whose text can be read, and whose text the parser selected by the
    suffix ([json.loads] for [.json]; [yaml.safe_load] for [.yaml] and [.yml],
    PyYAML being installed) turns into a document.  When the document is a
    list of entries, or an object whose ["players"] is such a list: if the N
    entries are all valid, [load_config] returns N descriptors, the i-th built
    from the i-th entry with the [str] of its name and of its platform, the
    platform being ["pc"] when the entry has none; if some entry is not an
    object with a ["name"], it raises [ValueError] for the first such entry.
    A document of any other shape raises [ValueError] as well, which is not a
    [FileNotFoundError]. *)
Theorem load_config_descriptors
  (HAS_YAML : bool) (yaml_safe_load json_loads : string -> result pyval)
  (path : config_path) :
  let load := load_config HAS_YAML yaml_safe_load json_loads path in
  let suffix := cp_suffix_lower path in
  (cp_exists path = false ->
   load = inl (FileNotFoundError ("Config not found: " ++ cp_shown path)%string))
  /\ (forall text data,
        cp_exists path = true ->
        cp_read_text path = inr text ->
        (suffix = ".json" /\ json_loads text = inr data)
        \/ ((suffix = ".yaml" \/ suffix = ".yml")
            /\ HAS_YAML = true /\ yaml_safe_load text = inr data) ->
        (forall entries,
           (data = PList entries
            \/ exists d, data = PDict d /\ Dict.get "players" d = Some (PList entries)) ->
           (forallb valid_entry entries = true ->
            exists out,
              load = inr out
              /\ List.length out = List.length entries
              /\ out = map spec_descriptor entries
              /\ (forall i d, nth_error entries i = Some (PDict d) ->
                  exists desc,
                    nth_error out i = Some desc
                    /\ (forall v, Dict.get "name" d = Some v -> pd_name desc = py_str v)
                    /\ (forall v, Dict.get "platform" d = Some v ->
                        pd_platform desc = py_str v)
                    /\ (Dict.get "platform" d = None -> pd_platform desc = "pc")))
           /\ (forallb valid_entry entries = false ->
               exists p,
                 In p entries /\ valid_entry p = false
                 /\ load = inl (ValueError ("Invalid player entry: " ++ py_str p)%string)))
        /\ ((forall entries, data <> PList entries) ->
            (forall d entries, data = PDict d ->
               Dict.get "players" d <> Some (PList entries)) ->
            load = inl (ValueError "Config must contain a 'players' list"))).
Proof.
  intros load suffix. subst load suffix. unfold load_config. split.
  - intros Hex. unfold load_document. rewrite Hex. reflexivity.
  - intros text data Hex Htext Hparse.
    rewrite (load_document_parsed HAS_YAML yaml_safe_load json_loads path text data
               Hex Htext Hparse).
    split.
    + intros entries Hshape. rewrite (players_of_document_entries data entries Hshape).
      split.
      * intros Hvalid. rewrite (collect_players_valid _ _ Hvalid). cbn [app].
        eexists. split; [reflexivity|]. split; [apply length_map|].
        split; [reflexivity|].
        intros i d Hi. exists (spec_descriptor (PDict d)). split.
        -- apply map_nth_error. exact Hi.
        -- cbn [spec_descriptor pd_name pd_platform].
           split; [intros v Hv; rewrite Hv; reflexivity|].
           split; [intros v Hv; rewrite Hv; reflexivity|].
           intros Hnone. rewrite Hnone. reflexivity.
      * intros Hinvalid. apply collect_players_invalid. exact Hinvalid.
    + intros Hnl Hnd. unfold players_of_document.
      destruct data as [| | | | | l | d]; try reflexivity.
      * exfalso. apply (Hnl l). reflexivity.
      * unfold Dict.get_default.
        destruct (Dict.get "players" d) as [[| | | | | l | d']|] eqn:Hd; try reflexivity.
        exfalso. apply (Hnd d l eq_refl Hd).
Qed.

Lemma load_config_descriptors_witness :
  load_config true sample_yaml_safe_load sample_json_loads players_json
  = inr [ {| pd_name := "alice"; pd_platform := "pc" |};
          {| pd_name := "carol"; pd_platform := "psn" |} ]
  /\ load_config true sample_yaml_safe_load sample_json_loads team_yml
     = inr [ {| pd_name := "dave"; pd_platform := "psn" |};
             {| pd_name := "alice"; pd_platform := "pc" |} ].
Proof.
  split.
  - destruct (load_config_descriptors true sample_yaml_safe_load sample_json_loads
                players_json) as [_ H].
    destruct (H players_json_text players_document eq_refl eq_refl
                (or_introl (conj eq_refl eq_refl))) as [Hlist _].
    destruct (Hlist [PDict [("name", PStr "alice")];
                     PDict [("name", PStr "carol"); ("platform", PStr "psn")]]
                (or_intror (ex_intro _ _ (conj eq_refl eq_refl)))) as [Hvalid _].
    destruct (Hvalid eq_refl) as (out & E & _ & -> & _).
    exact E.
  - destruct (load_config_descriptors true sample_yaml_safe_load sample_json_loads
                team_yml) as [_ H].
    destruct (H team_yml_text team_document eq_refl eq_refl
                (or_intror (conj (or_intror eq_refl) (conj eq_refl eq_refl))))
      as [Hlist _].
    destruct (Hlist [PDict [("name", PStr "dave"); ("platform", PStr "psn")];
                     PDict [("name", PStr "alice")]]
                (or_introl eq_refl)) as [Hvalid _].
    destruct (Hvalid eq_refl) as (out & E & _ & -> & _).
    exact E.
Defined.

(** ** Dicts *)

Lemma dict_get_set_same k v d : Dict.get k (Dict.set k v d) = Some v.
Proof.
  induction d as [|[k' v'] d IH]; cbn.
  - now rewrite String.eqb_refl.
  - destruct (String.eqb k k') eqn:E; cbn; rewrite E; [reflexivity | exact IH].
Qed.

Lemma dict_get_set_other k k' v d :
  k <> k' -> Dict.get k (Dict.set k' v d) = Dict.get k d.
Proof.
  intros Hne. apply String.eqb_neq in Hne.
  induction d as [|[k2 v2] d IH]; cbn.
  - now rewrite Hne.
  - destruct (String.eqb k' k2) eqn:E; cbn.
    + apply String.eqb_eq in E. subst k2. now rewrite Hne.
    + rewrite IH. reflexivity.
Qed.

Lemma dict_keys_set_new k v d :
  ~ In k (Dict.keys d) -> Dict.keys (Dict.set k v d) = Dict.keys d ++ [k].
Proof.
  induction d as [|[k' v'] d IH]; intros Hnotin; [reflexivity|].
  cbn in *. destruct (String.eqb k k') eqn:E.
  - apply String.eqb_eq in E. subst. tauto.
  - cbn. f_equal. apply IH. tauto.
Qed.

Lemma dict_mem_In k d : Dict.mem k d = true <-> In k (Dict.keys d).
Proof.
  induction d as [|[k' v'] d IH]; cbn.
  - split; [discriminate | tauto].
  - destruct (String.eqb k k') eqn:E.
    + apply String.eqb_eq in E. subst. tauto.
    + apply String.eqb_neq in E. rewrite IH. split; [tauto|].
      intros [H | H]; [congruence | exact H].
Qed.

(** ** Summaries *)

Section CopyKeys.

Variable stats : dict.

Lemma copy_keys_cons k keys out :
  copy_keys stats (k :: keys) out
  = copy_keys stats keys (match Dict.get k stats with
                          | Some v => Dict.set k v out
                          | None => out
                          end).
Proof. reflexivity. Qed.

Lemma copy_keys_keys keys : forall out,
  NoDup keys ->
  (forall k, In k keys -> ~ In k (Dict.keys out)) ->
  Dict.keys (copy_keys stats keys out)
  = Dict.keys out ++ filter (fun k => Dict.mem k stats) keys.
Proof.
  induction keys as [|k keys IH]; intros out Hnd Hfresh.
  - cbn. now rewrite app_nil_r.
  - inversion Hnd as [|? ? Hk Hnd']; subst. rewrite copy_keys_cons. cbn [filter].
    assert (Hkout : ~ In k (Dict.keys out)) by (apply Hfresh; left; reflexivity).
    destruct (Dict.get k stats) as [v|] eqn:Hget.
    + assert (Hmem : Dict.mem k stats = true) by (apply dict_mem_get; eauto).
      rewrite Hmem, IH; [| exact Hnd' |].
      * rewrite (dict_keys_set_new _ _ _ Hkout), <- app_assoc. reflexivity.
      * intros k' Hk'. rewrite (dict_keys_set_new _ _ _ Hkout), in_app_iff.
        intros [H | [H | []]].
        -- apply (Hfresh k'); [right; exact Hk' | exact H].
        -- subst. contradiction.
    + assert (Hmem : Dict.mem k stats = false).
      { destruct (Dict.mem k stats) eqn:Hm; [|reflexivity].
        apply dict_mem_get in Hm. destruct Hm as (v & Hv). congruence. }
      rewrite Hmem. apply IH; [exact Hnd'|].
      intros k' Hk'. apply Hfresh. right. exact Hk'.
Qed.

Lemma copy_keys_get keys : forall out k,
  Dict.get k (copy_keys stats keys out)
  = if existsb (String.eqb k) keys
    then match Dict.get k stats with
         | Some v => Some v
         | None => Dict.get k out
         end
    else Dict.get k out.
Proof.
  induction keys as [|a keys IH]; intros out k; [reflexivity|].
  rewrite copy_keys_cons. cbn [existsb]. rewrite IH.
  destruct (String.eqb k a) eqn:E; cbn [orb].
  - apply String.eqb_eq in E. subst a.
    destruct (Dict.get k stats) as [v|] eqn:Hget.
    + rewrite dict_get_set_same. destruct (existsb (String.eqb k) keys); reflexivity.
    + destruct (existsb (String.eqb k) keys); reflexivity.
  - apply String.eqb_neq in E.
    destruct (Dict.get a stats) as [v|]; [|reflexivity].
    rewrite (dict_get_set_other _ _ _ _ E). reflexivity.
Qed.

End CopyKeys.

Lemma SUMMARY_KEYS_NoDup : NoDup SUMMARY_KEYS.
Proof. change SUMMARY_KEYS with (first_seen SUMMARY_KEYS). apply first_seen_NoDup. Qed.

Lemma fetched_at_not_summary_key : ~ In "fetched_at" SUMMARY_KEYS.
Proof. apply existsb_eqb_false. reflexivity. Qed.

Lemma run_id_not_summary_key : ~ In "run_id" SUMMARY_KEYS.
Proof. apply existsb_eqb_false. reflexivity. Qed.

Lemma present_In k r : In k (present r) <-> In k SUMMARY_KEYS /\ Dict.mem k r = true.
Proof. unfold present. apply filter_In. Qed.

(** The keys of a summary: [fetched_at], then the allow-list keys the record
    has, in allow-list order. *)
Lemma summary_at_keys t r : Dict.keys (summary_at t r) = "fetched_at" :: present r.
Proof.
  unfold summary_at, present.
  apply (copy_keys_keys r SUMMARY_KEYS [("fetched_at", PStr (isoformat_z t))]).
  - apply SUMMARY_KEYS_NoDup.
  - intros k Hk [H | []]. cbn [fst] in H. subst k. apply (fetched_at_not_summary_key Hk).
Qed.

Lemma summary_at_fetched_at t r :
  Dict.get "fetched_at" (summary_at t r) = Some (PStr (isoformat_z t)).
Proof.
  unfold summary_at.
  rewrite (copy_keys_get r SUMMARY_KEYS [("fetched_at", PStr (isoformat_z t))]).
  reflexivity.
Qed.

Lemma summary_at_get t r k :
  In k SUMMARY_KEYS -> Dict.get k (summary_at t r) = Dict.get k r.
Proof.
  intros Hk. unfold summary_at.
  rewrite (copy_keys_get r SUMMARY_KEYS [("fetched_at", PStr (isoformat_z t))]).
  assert (E : existsb (String.eqb k) SUMMARY_KEYS = true) by (apply existsb_eqb_In, Hk).
  rewrite E. destruct (Dict.get k r); [reflexivity|].
  cbn [Dict.get]. destruct (String.eqb k "fetched_at") eqn:E'; [|reflexivity].
  apply String.eqb_eq in E'. subst. destruct (fetched_at_not_summary_key Hk).
Qed.

Lemma summaries_from_cons clock k r rest :
  summaries_from clock k (r :: rest)
  = summary_at (clock k) r :: summaries_from clock (S k) rest.
Proof. reflexivity. Qed.

Lemma summaries_from_length clock k results :
  List.length (summaries_from clock k results) = List.length results.
Proof.
  revert k. induction results as [|r rest IH]; intros k; [reflexivity|].
  cbn [summaries_from List.length]. rewrite IH. reflexivity.
Qed.

Lemma summaries_from_keys clock k results :
  map Dict.keys (summaries_from clock k results)
  = map (fun r => "fetched_at" :: present r) results.
Proof.
  revert k. induction results as [|r rest IH]; intros k; [reflexivity|].
  cbn [summaries_from map]. rewrite summary_at_keys, IH. reflexivity.
Qed.

Lemma summaries_from_nth clock k results i r :
  nth_error results i = Some r ->
  nth_error (summaries_from clock k results) i = Some (summary_at (clock (k + i)%nat) r).
Proof.
  revert k i. induction results as [|r0 rest IH]; intros k [|i] H; try discriminate.
  - cbn [nth_error summaries_from] in *. injection H as ->. now rewrite Nat.add_0_r.
  - cbn [nth_error summaries_from] in *. rewrite (IH (S k) i H).
    replace (S k + i)%nat with (k + S i)%nat by lia. reflexivity.
Qed.

(** ** First-seen order of the header *)

Lemma existsb_first_seen k l :
  existsb (String.eqb k) (first_seen l) = existsb (String.eqb k) l.
Proof.
  destruct (existsb (String.eqb k) l) eqn:E.
  - apply existsb_eqb_In, first_seen_In, existsb_eqb_In, E.
  - apply existsb_eqb_false. rewrite first_seen_In. apply existsb_eqb_false, E.
Qed.

Lemma add_key_fold l : forall a,
  fold_left add_key l (first_seen a) = first_seen (a ++ l).
Proof.
  induction l as [|k l IH] using rev_ind; intros a.
  - now rewrite app_nil_r.
  - rewrite fold_left_app, IH, app_assoc, first_seen_snoc. cbn [fold_left].
    unfold add_key. rewrite existsb_first_seen. reflexivity.
Qed.

Lemma add_keys_fold (summaries : list dict) : forall keys,
  fold_left add_keys summaries keys
  = fold_left add_key (List.concat (map Dict.keys summaries)) keys.
Proof.
  induction summaries as [|s rest IH]; intros keys; [reflexivity|].
  cbn [fold_left map List.concat]. rewrite fold_left_app, IH. reflexivity.
Qed.

Lemma filter_twice {A} (f g : A -> bool) l :
  filter f (filter g l) = filter (fun x => g x && f x)%bool l.
Proof.
  induction l as [|x l IH]; [reflexivity|].
  cbn [filter]. destruct (g x); cbn [filter andb]; [destruct (f x)|]; now rewrite IH.
Qed.

(** What precedes keeps its place; what follows adds its new elements. *)
Lemma first_seen_app a l :
  first_seen (a ++ l)
  = first_seen a ++ filter (fun k => negb (existsb (String.eqb k) a)) (first_seen l).
Proof.
  induction a as [|x a IH].
  - cbn. symmetry. apply forallb_filter_id. apply forallb_forall. reflexivity.
  - cbn [app first_seen]. rewrite IH, filter_app. f_equal. f_equal.
    rewrite filter_twice. apply filter_ext. intros k. cbn [existsb].
    rewrite (String.eqb_sym k x), negb_orb. apply andb_comm.
Qed.

(** ** The disk *)

Lemma path_eqb_refl p : path_eqb p p = true.
Proof. unfold path_eqb. now rewrite !String.eqb_refl. Qed.

Lemma lookup_store_same {A} p (a : A) m : lookup p (store p a m) = Some a.
Proof.
  induction m as [|[q b] m IH]; cbn.
  - now rewrite path_eqb_refl.
  - destruct (path_eqb p q) eqn:E; cbn; rewrite E; [reflexivity | exact IH].
Qed.

Lemma ticked_ticked n m d : ticked m (ticked n d) = ticked (n + m) d.
Proof. unfold ticked. cbn. f_equal. lia. Qed.

Lemma ticked_0 d : ticked 0 d = d.
Proof. destruct d. unfold ticked. cbn. f_equal. lia. Qed.

Section StorageFacts.

Variable wall_clock : nat -> datetime.

Lemma flatten_summary_at r d :
  flatten_summary wall_clock r d
  = (inr (summary_at (wall_clock (ticks d)) r), ticked 1 d).
Proof.
  unfold flatten_summary, bind, datetime_now, ret, ticked, summary_at.
  replace (ticks d + 1)%nat with (S (ticks d)) by lia. reflexivity.
Qed.

Lemma comprehension_flatten results : forall d,
  comprehension (flatten_summary wall_clock) results d
  = (inr (summaries_from wall_clock (ticks d) results), ticked (List.length results) d).
Proof.
  induction results as [|r rest IH]; intros d.
  - cbn [comprehension summaries_from List.length]. now rewrite ticked_0.
  - cbn [comprehension summaries_from List.length].
    rewrite (bind_ok _ _ _ _ _ (flatten_summary_at r d)).
    rewrite (bind_ok _ _ _ _ _ (IH (ticked 1 d))).
    unfold ret. rewrite ticked_ticked. cbn [ticked ticks].
    replace (ticks d + 1)%nat with (S (ticks d)) by lia. reflexivity.
Qed.

Lemma summary_keys_NoDup t r : NoDup (Dict.keys (summary_at t r)).
Proof.
  rewrite summary_at_keys. constructor.
  - intros H. apply present_In in H. destruct H as [H _].
    apply (fetched_at_not_summary_key H).
  - apply NoDup_filter, SUMMARY_KEYS_NoDup.
Qed.

(** The header loop collects the keys of all summaries at their first
    occurrence. *)
Lemma all_summary_keys_first_seen first rest :
  NoDup (Dict.keys first) ->
  _all_summary_keys (first :: rest)
  = inr (first_seen (List.concat (map Dict.keys (first :: rest)))).
Proof.
  intros Hnd. unfold _all_summary_keys. f_equal.
  rewrite add_keys_fold. rewrite <- (first_seen_NoDup_id _ Hnd) at 1.
  apply add_key_fold.
Qed.

Lemma save_csv_writes r1 rest output_dir run_id d :
  let results := r1 :: rest in
  let summaries := summaries_from wall_clock (ticks d) results in
  let header := first_seen (List.concat (map Dict.keys summaries)) in
  exists name d',
    save_csv wall_clock results output_dir run_id d = (inr (output_dir, name), d')
    /\ lookup (output_dir, name) (files d')
       = Some (CsvFile header (map (csv_row header) summaries))
    /\ (forall rid, truthy run_id = Some rid -> name = ("stats_" ++ rid ++ ".csv")%string).
Proof.
  intros results summaries header.
  assert (Hkeys : _all_summary_keys summaries = inr header).
  { subst summaries header results. cbn [summaries_from].
    apply all_summary_keys_first_seen, summary_keys_NoDup. }
  unfold save_csv. subst results. cbv beta iota.
  rewrite (bind_ok _ _ _ _ _ (comprehension_flatten (r1 :: rest) d)).
  fold summaries.
  unfold _ensure_output_dir, _stats_filename, bind, mkdir, ret, lift, write_file,
    datetime_now.
  destruct (truthy run_id) as [rid|] eqn:Hrid; rewrite Hkeys; cbn [files ticked].
  - eexists. eexists. split; [reflexivity|]. split; [apply lookup_store_same|].
    intros rid' [= <-]. reflexivity.
  - eexists. eexists. split; [reflexivity|]. split; [apply lookup_store_same|].
    intros rid' [=].
Qed.

End StorageFacts.

(** ** C7: the CSV writer *)

Lemma in_summaries_keys clock t results k :
  In k (List.concat (map Dict.keys (summaries_from clock t results)))
  <-> results <> [] /\ (k = "fetched_at" \/ exists r, In r results /\ In k (present r)).
Proof.
  rewrite summaries_from_keys, in_concat. split.
  - intros (ks & Hks & Hk). apply in_map_iff in Hks. destruct Hks as (r & <- & Hr).
    split; [intros ->; destruct Hr|].
    apply in_inv in Hk. destruct Hk as [<- | Hk]; [left; reflexivity | right; eauto].
  - intros [Hne [-> | (r & Hr & Hk)]].
    + destruct results as [|r rest]; [congruence|].
      exists ("fetched_at" :: present r). split; [|apply in_eq].
      apply in_map_iff. exists r. split; [reflexivity | apply in_eq].
    + exists ("fetched_at" :: present r). split; [|apply in_cons; exact Hk].
      apply in_map_iff. exists r. split; [reflexivity | exact Hr].
Qed.

Lemma csv_row_nth header summary j k :
  nth_error header j = Some k ->
  nth_error (csv_row header summary) j
  = Some (csv_field (Dict.get_default k (PStr "") summary)).
Proof. intros H. unfold csv_row. rewrite nth_error_map, H. reflexivity. Qed.

(** A field of a data row: the time of the flattening under [fetched_at], the
    record's value under an allow-list key, empty when it has none. *)
Lemma summary_field t r k :
  k = "fetched_at" \/ In k SUMMARY_KEYS ->
  csv_field (Dict.get_default k (PStr "") (summary_at t r))
  = if String.eqb k "fetched_at" then isoformat_z t else field_text r k.
Proof.
  unfold Dict.get_default, field_text. intros [-> | Hk].
  - rewrite summary_at_fetched_at. reflexivity.
  - rewrite (summary_at_get t r k Hk).
    destruct (String.eqb k "fetched_at") eqn:E.
    + apply String.eqb_eq in E. subst. destruct (fetched_at_not_summary_key Hk).
    + destruct (Dict.get k r); reflexivity.
Qed.

(** The header: the keys of the first summary, then what the later summaries
    add. *)
Lemma header_first_then_extra clock t r1 rest :
  first_seen (List.concat (map Dict.keys (summaries_from clock t (r1 :: rest))))
  = "fetched_at" :: present r1
    ++ filter (fun k => negb (existsb (String.eqb k) ("fetched_at" :: present r1)))
         (first_seen (List.concat (map Dict.keys (summaries_from clock (S t) rest)))).
Proof.
  rewrite summaries_from_cons, map_cons, concat_cons, summary_at_keys.
  rewrite first_seen_app, (first_seen_NoDup_id ("fetched_at" :: present r1)).
  - symmetry. apply app_comm_cons.
  - constructor.
    + intros H. apply present_In in H. destruct H as [H _].
      apply (fetched_at_not_summary_key H).
    + apply NoDup_filter, SUMMARY_KEYS_NoDup.
Qed.

Lemma header_extra_In clock t r1 rest k :
  In k (filter (fun k => negb (existsb (String.eqb k) ("fetched_at" :: present r1)))
          (first_seen (List.concat (map Dict.keys (summaries_from clock t rest)))))
  <-> ~ In k (present r1) /\ exists r, In r rest /\ In k (present r).
Proof.
  rewrite filter_In, first_seen_In, in_summaries_keys, negb_true_iff.
  rewrite existsb_eqb_false. split.
  - intros [[_ [-> | Hr]] Hnot].
    + exfalso. apply Hnot. apply in_eq.
    + split; [|exact Hr]. intros H. apply Hnot. apply in_cons. exact H.
  - intros [Hnot (r & Hr & Hk)]. split.
    + split; [intros ->; destruct Hr | right; eauto].
    + intros H. apply in_inv in H. destruct H as [<- | H]; [|tauto].
      apply present_In in Hk. apply (fetched_at_not_summary_key (proj1 Hk)).
Qed.

(** C7.  [save_csv] raises [ValueError] on an empty list and writes nothing.
    For a non-empty list it writes one file whose header is the keys of all
    flattened summaries, each at its first occurrence: [fetched_at], then the
    allow-list keys the first record has, in allow-list order, then the keys
    that later records add.  There is one data row per record, as long as the
    header; under an allow-list column it holds the record's value, and the
    empty text when the record has none. *)
Theorem save_csv_header_and_rows
  (wall_clock : nat -> datetime) (results : list dict) (output_dir : string)
  (run_id : option string) (d : disk) :
  (results = [] ->
   save_csv wall_clock results output_dir run_id d
   = (inl (ValueError "No results to write to CSV"), d))
  /\ (forall r1 rest, results = r1 :: rest ->
      exists name d' header rows,
        save_csv wall_clock results output_dir run_id d = (inr (output_dir, name), d')
        /\ lookup (output_dir, name) (files d') = Some (CsvFile header rows)
        /\ header = first_seen (List.concat
                      (map Dict.keys (summaries_from wall_clock (ticks d) results)))
        /\ (exists extra,
              header = "fetched_at" :: present r1 ++ extra
              /\ forall k, In k extra <->
                           ~ In k (present r1) /\ exists r, In r rest /\ In k (present r))
        /\ List.length rows = List.length results
        /\ (forall i r, nth_error results i = Some r ->
            exists row,
              nth_error rows i = Some row
              /\ List.length row = List.length header
              /\ forall j k, nth_error header j = Some k ->
                   nth_error row j
                   = Some (if String.eqb k "fetched_at"
                           then isoformat_z (wall_clock (ticks d + i)%nat)
                           else field_text r k))).
Proof.
  split; [intros ->; reflexivity|].
  intros r1 rest ->.
  destruct (save_csv_writes wall_clock r1 rest output_dir run_id d)
    as (name & d' & E & Hfile & _).
  cbv zeta in E, Hfile.
  set (summaries := summaries_from wall_clock (ticks d) (r1 :: rest)) in *.
  set (header := first_seen (List.concat (map Dict.keys summaries))) in *.
  exists name, d', header, (map (csv_row header) summaries).
  split; [exact E|]. split; [exact Hfile|]. split; [reflexivity|].
  assert (Hheader : forall k, In k header -> k = "fetched_at" \/ In k SUMMARY_KEYS).
  { intros k Hk. unfold header, summaries in Hk.
    rewrite first_seen_In, in_summaries_keys in Hk.
    destruct Hk as [_ [-> | (r & _ & Hk)]]; [left; reflexivity|].
    right. apply present_In in Hk. tauto. }
  split; [|split].
  - exists (filter (fun k => negb (existsb (String.eqb k) ("fetched_at" :: present r1)))
              (first_seen (List.concat
                 (map Dict.keys (summaries_from wall_clock (S (ticks d)) rest))))).
    split.
    + apply header_first_then_extra.
    + intros k. apply header_extra_In.
  - subst summaries. rewrite length_map. apply summaries_from_length.
  - intros i r Hi.
    exists (csv_row header (summary_at (wall_clock (ticks d + i)%nat) r)).
    split; [|split].
    + apply map_nth_error. subst summaries. apply summaries_from_nth. exact Hi.
    + unfold csv_row. apply length_map.
    + intros j k Hj. rewrite (csv_row_nth _ _ _ _ Hj). f_equal.
      apply summary_field. apply Hheader. apply (nth_error_In _ _ Hj).
Qed.

Lemma save_csv_header_and_rows_witness :
  exists name d' header rows,
    save_csv clock_2026 [foo_stats] "output" (Some "20260102_030400") empty_disk
    = (inr ("output", name), d')
    /\ lookup ("output", name) (files d') = Some (CsvFile header rows)
    /\ header = ["fetched_at"; "userName"; "id"; "kills"]
    /\ List.length rows = 1%nat.
Proof.
  destruct (save_csv_header_and_rows clock_2026 [foo_stats] "output"
              (Some "20260102_030400") empty_disk) as [_ H].
  destruct (H foo_stats [] eq_refl)
    as (name & d' & header & rows & E & Hfile & Hheader & _ & Hlen & _).
  exists name, d', header, rows.
  split; [exact E|]. split; [exact Hfile|]. split; [|exact Hlen].
  rewrite Hheader. vm_compute. reflexivity.
Defined.

(** ** The SQLite writer *)

Lemma sqlite_supported_bind pos v :
  sqlite_supported v = true -> sqlite_bind pos v = inr tt.
Proof.
  unfold sqlite_supported, sqlite_bind.
  destruct v as [| b | n | f | s | l | d]; try reflexivity; try discriminate.
  destruct ((- 2 ^ 63 <=? n) && (n <? 2 ^ 63))%bool; [reflexivity | discriminate].
Qed.

(** The row built from a summary whose [run_id] and [fetched_at] were set. *)
Lemma row_of_summary rid fetched_at t r :
  row_of (Dict.set "fetched_at" (PStr fetched_at)
            (Dict.set "run_id" (PStr rid) (summary_at t r)))
  = table_row rid fetched_at r.
Proof.
  unfold row_of, table_row.
  change SQLITE_COLUMNS with ("run_id" :: "fetched_at" :: SUMMARY_KEYS).
  rewrite !map_cons. unfold Dict.get_default at 1 2.
  rewrite (dict_get_set_other "run_id" "fetched_at") by discriminate.
  rewrite !dict_get_set_same. do 2 f_equal.
  apply map_ext_in. intros k Hk. unfold Dict.get_default.
  rewrite dict_get_set_other
    by (intros ->; apply (fetched_at_not_summary_key Hk)).
  rewrite dict_get_set_other
    by (intros ->; apply (run_id_not_summary_key Hk)).
  rewrite (summary_at_get t r k Hk). reflexivity.
Qed.

Lemma table_row_fetched_at rid fetched_at r :
  Dict.get "fetched_at" (table_row rid fetched_at r) = Some (PStr fetched_at).
Proof. reflexivity. Qed.

Lemma table_row_run_id rid fetched_at r :
  Dict.get "run_id" (table_row rid fetched_at r) = Some (PStr rid).
Proof. reflexivity. Qed.

Lemma table_row_binds rid fetched_at r c v :
  bindable r = true -> In (c, v) (table_row rid fetched_at r) ->
  forall pos, sqlite_bind pos v = inr tt.
Proof.
  intros Hb Hin pos. unfold table_row in Hin.
  apply in_inv in Hin. destruct Hin as [[= <- <-] | Hin]; [reflexivity|].
  apply in_inv in Hin. destruct Hin as [[= <- <-] | Hin]; [reflexivity|].
  apply in_map_iff in Hin. destruct Hin as (k & [= <- <-] & Hk).
  unfold bindable in Hb. rewrite forallb_forall in Hb. specialize (Hb k Hk).
  unfold Dict.get_default. destruct (Dict.get k r) as [v|]; [|reflexivity].
  apply sqlite_supported_bind. exact Hb.
Qed.

Lemma bind_parameters_ok (row : dict) : forall pos,
  (forall c v, In (c, v) row -> forall i, sqlite_bind i v = inr tt) ->
  bind_parameters pos row = inr tt.
Proof.
  induction row as [|[c v] row IH]; intros pos H; [reflexivity|].
  cbn [bind_parameters]. rewrite (H c v (in_eq _ _) pos). apply IH.
  intros c' v' Hin. apply (H c' v'). apply in_cons. exact Hin.
Qed.

Lemma execute_insert_ok row inserted (d : disk) :
  (forall c v, In (c, v) row -> forall i, sqlite_bind i v = inr tt) ->
  execute_insert row inserted d = (inr (inserted ++ [row]), d).
Proof.
  intros H. unfold execute_insert. rewrite (bind_parameters_ok row 1%nat H). reflexivity.
Qed.

Lemma execute_insert_cases row inserted (d : disk) :
  execute_insert row inserted d = (inr (inserted ++ [row]), d)
  \/ exists e, execute_insert row inserted d = (inl e, d).
Proof.
  unfold execute_insert.
  destruct (bind_parameters 1 row) as [e | u]; [right; eexists | left]; reflexivity.
Qed.

Section SqliteFacts.

Variable wall_clock : nat -> datetime.
Variables rid fetched_at : string.

Lemma insert_all_cons stat rest inserted d :
  insert_all wall_clock rid fetched_at (stat :: rest) inserted d
  = bind (execute_insert (table_row rid fetched_at stat) inserted)
         (fun inserted' => insert_all wall_clock rid fetched_at rest inserted')
         (ticked 1 d).
Proof.
  cbn [insert_all]. rewrite (bind_ok _ _ _ _ _ (flatten_summary_at wall_clock stat d)).
  rewrite row_of_summary. reflexivity.
Qed.

(** All records bindable: one row per record joins the transaction, and the
    clock was read once per record. *)
Lemma insert_all_ok results : forall inserted d,
  forallb bindable results = true ->
  insert_all wall_clock rid fetched_at results inserted d
  = (inr (inserted ++ map (table_row rid fetched_at) results),
     ticked (List.length results) d).
Proof.
  induction results as [|stat rest IH]; intros inserted d Hb.
  - cbn [insert_all map List.length]. rewrite app_nil_r, ticked_0. reflexivity.
  - cbn [forallb] in Hb. apply andb_prop in Hb. destruct Hb as [Hstat Hrest].
    rewrite insert_all_cons.
    rewrite (bind_ok _ _ _ _ _
               (execute_insert_ok _ inserted (ticked 1 d)
                  (fun c v => table_row_binds rid fetched_at stat c v Hstat))).
    rewrite (IH _ _ Hrest), ticked_ticked, <- app_assoc. reflexivity.
Qed.

(** In any case the loop leaves the databases alone, and what it returns is
    one row per record after the rows it was given. *)
Lemma insert_all_result results : forall inserted d r d',
  insert_all wall_clock rid fetched_at results inserted d = (r, d') ->
  databases d' = databases d
  /\ forall rows, r = inr rows -> rows = inserted ++ map (table_row rid fetched_at) results.
Proof.
  induction results as [|stat rest IH]; intros inserted d r d' E.
  - cbn in E. injection E as <- <-. split; [reflexivity|].
    intros rows [= <-]. now rewrite app_nil_r.
  - rewrite insert_all_cons in E.
    destruct (execute_insert_cases (table_row rid fetched_at stat) inserted (ticked 1 d))
      as [Hok | (e & Hfail)].
    + rewrite (bind_ok _ _ _ _ _ Hok) in E. apply IH in E. destruct E as [Hdb Hrows].
      split; [exact Hdb|]. intros rows Hr. rewrite (Hrows rows Hr), <- app_assoc.
      reflexivity.
    + rewrite (bind_raise _ _ _ _ _ Hfail) in E. injection E as <- <-.
      split; [reflexivity | discriminate].
Qed.

End SqliteFacts.

Section SaveSqlite.

Variable wall_clock : nat -> datetime.

Lemma save_sqlite_steps r1 rest output_dir db_name run_id d :
  let t := wall_clock (ticks d) in
  let p := (output_dir, db_name) in
  save_sqlite wall_clock (r1 :: rest) output_dir db_name run_id d
  = match insert_all wall_clock (run_id_of run_id t) (isoformat_z t) (r1 :: rest) []
            (prepared output_dir db_name d) with
    | (inr inserted, d1) =>
        (inr p, {| ticks := ticks d1; dirs := dirs d1; files := files d1;
                   databases := store p (table_rows p d1 ++ inserted) (databases d1) |})
    | (inl e, d1) => (inl e, d1)
    end.
Proof.
  intros t p. subst t p.
  unfold save_sqlite, run_id_of, prepared. cbv beta iota.
  unfold _ensure_output_dir, mkdir, bind, datetime_now, ret,
    create_table_if_not_exists, commit.
  cbn [ticks dirs files databases].
  match goal with
  | |- context [insert_all ?c ?i ?f ?l ?a ?s] =>
      destruct (insert_all c i f l a s) as [[e | inserted] d1]
  end; reflexivity.
Qed.

Lemma table_rows_prepared output_dir db_name d :
  table_rows (output_dir, db_name) (prepared output_dir db_name d)
  = table_rows (output_dir, db_name) d.
Proof.
  unfold table_rows, prepared. cbn [databases].
  destruct (lookup (output_dir, db_name) (databases d)) as [rows|] eqn:E.
  - rewrite E. reflexivity.
  - rewrite lookup_store_same. reflexivity.
Qed.

Lemma table_rows_same_databases p d d' :
  databases d' = databases d -> table_rows p d' = table_rows p d.
Proof. unfold table_rows. intros ->. reflexivity. Qed.

(** What one call of [save_sqlite] does to the table: it appends, after the
    rows already there, one row per record when it returns, and nothing when
    it raises. *)
Lemma save_sqlite_appends results output_dir db_name run_id d r d' :
  results <> [] ->
  let t := wall_clock (ticks d) in
  let p := (output_dir, db_name) in
  save_sqlite wall_clock results output_dir db_name run_id d = (r, d') ->
  (r = inr p
   /\ table_rows p d'
      = table_rows p d ++ map (table_row (run_id_of run_id t) (isoformat_z t)) results)
  \/ ((exists e, r = inl e) /\ table_rows p d' = table_rows p d).
Proof.
  intros Hne t p E. destruct results as [|r1 rest]; [congruence|].
  rewrite save_sqlite_steps in E. fold t p in E.
  destruct (insert_all wall_clock (run_id_of run_id t) (isoformat_z t) (r1 :: rest) []
              (prepared output_dir db_name d)) as [[e | inserted] d1] eqn:Eins;
    apply insert_all_result in Eins; destruct Eins as [Hdb Hrows];
    injection E as <- <-.
  - right. split; [eexists; reflexivity|].
    rewrite (table_rows_same_databases p _ _ Hdb). apply table_rows_prepared.
  - left. split; [reflexivity|].
    unfold table_rows at 1. cbn [databases]. rewrite lookup_store_same.
    rewrite (table_rows_same_databases p _ _ Hdb). unfold p at 1.
    rewrite table_rows_prepared. rewrite (Hrows inserted eq_refl). reflexivity.
Qed.

(** With bindable records the call returns, and the clock was read once for
    the call and once per record. *)
Lemma save_sqlite_returns results output_dir db_name run_id d :
  results <> [] -> forallb bindable results = true ->
  exists d',
    save_sqlite wall_clock results output_dir db_name run_id d
    = (inr (output_dir, db_name), d')
    /\ ticks d' = (ticks d + 1 + List.length results)%nat.
Proof.
  intros Hne Hb. destruct results as [|r1 rest]; [congruence|].
  rewrite save_sqlite_steps, (insert_all_ok _ _ _ _ _ _ Hb).
  eexists. split; [reflexivity|]. cbn [ticks ticked prepared]. lia.
Qed.

End SaveSqlite.

(** ** C8: two calls of the SQLite writer *)

(** C8, as the code has it.  With a non-empty list of records whose
    allow-list values [sqlite3] can bind, two calls of [save_sqlite] with the
    same arguments both return the database path; each appends one row per
    record after the rows that were there, which stay as they were.  The row
    count after two calls is twice the count after one call when the table was
    empty or absent before the first call. *)
Theorem save_sqlite_twice_appends
  (wall_clock : nat -> datetime) (results : list dict) (output_dir db_name : string)
  (run_id : option string) (d : disk) :
  results <> [] -> forallb bindable results = true ->
  let p := (output_dir, db_name) in
  exists d1 d2 new1 new2,
    save_sqlite wall_clock results output_dir db_name run_id d = (inr p, d1)
    /\ save_sqlite wall_clock results output_dir db_name run_id d1 = (inr p, d2)
    /\ table_rows p d1 = table_rows p d ++ new1
    /\ table_rows p d2 = table_rows p d ++ new1 ++ new2
    /\ List.length new1 = List.length results
    /\ List.length new2 = List.length results
    /\ (table_rows p d = [] ->
        List.length (table_rows p d2) = (2 * List.length (table_rows p d1))%nat).
Proof.
  intros Hne Hb p.
  destruct (save_sqlite_returns wall_clock results output_dir db_name run_id d Hne Hb)
    as (d1 & E1 & _).
  destruct (save_sqlite_returns wall_clock results output_dir db_name run_id d1 Hne Hb)
    as (d2 & E2 & _).
  destruct (save_sqlite_appends wall_clock _ _ _ _ _ _ _ Hne E1)
    as [[_ R1] | [(e & He) _]]; [|discriminate He].
  destruct (save_sqlite_appends wall_clock _ _ _ _ _ _ _ Hne E2)
    as [[_ R2] | [(e & He) _]]; [|discriminate He].
  fold p in R1, R2.
  eexists d1, d2, _, _. split; [exact E1|]. split; [exact E2|].
  split; [exact R1|]. split; [rewrite R2, R1, <- app_assoc; reflexivity|].
  split; [apply length_map|]. split; [apply length_map|].
  intros Hempty. rewrite R2, R1, Hempty. cbn [app].
  rewrite length_app, !length_map. lia.
Qed.

Lemma save_sqlite_twice_appends_witness :
  exists d1 d2,
    save_sqlite clock_2026 [foo_stats; bar_stats] "output" "bf6_stats.db"
                (Some "20260102_030400") empty_disk
    = (inr ("output", "bf6_stats.db"), d1)
    /\ save_sqlite clock_2026 [foo_stats; bar_stats] "output" "bf6_stats.db"
                   (Some "20260102_030400") d1
       = (inr ("output", "bf6_stats.db"), d2)
    /\ List.length (table_rows ("output", "bf6_stats.db") d2)
       = (2 * List.length (table_rows ("output", "bf6_stats.db") d1))%nat.
Proof.
  destruct (save_sqlite_twice_appends clock_2026 [foo_stats; bar_stats] "output"
              "bf6_stats.db" (Some "20260102_030400") empty_disk)
    as (d1 & d2 & new1 & new2 & E1 & E2 & _ & _ & _ & _ & Hdouble).
  - discriminate.
  - reflexivity.
  - exists d1, d2. split; [exact E1|]. split; [exact E2|]. apply Hdouble. reflexivity.
Defined.

(** C8, against its wording: on a database that already holds a row, one call
    gives 2 rows and two calls give 3, which is not twice 2. *)
Lemma save_sqlite_count_not_doubled :
  let p := ("output", "bf6_stats.db") in
  let save := save_sqlite clock_2026 [foo_stats] "output" "bf6_stats.db"
                          (Some "20260102_030400") in
  let d1 := snd (save disk_with_history) in
  let d2 := snd (save d1) in
  fst (save disk_with_history) = inr p
  /\ fst (save d1) = inr p
  /\ List.length (table_rows p d1) = 2%nat
  /\ List.length (table_rows p d2) = 3%nat
  /\ List.length (table_rows p d2) <> (2 * List.length (table_rows p d1))%nat.
Proof. vm_compute. repeat split; discriminate. Qed.

(** A record with a nested value makes the call raise, and no row is added. *)
Lemma save_sqlite_unbindable_raises :
  let p := ("output", "bf6_stats.db") in
  let run := save_sqlite clock_2026 [foo_stats; nested_stats] "output" "bf6_stats.db"
                         (Some "20260102_030400") empty_disk in
  fst run = inl (ProgrammingError "Error binding parameter 6: type 'list' is not supported")
  /\ table_rows p (snd run) = [].
Proof. vm_compute. split; reflexivity. Qed.

(** ** C10: one time stamp and one run id per call *)

(** C10.  One call of [save_sqlite] on a non-empty list reads the clock once
    for itself, at [t], and every row it adds to the table carries
    [fetched_at] of [t] and the one run id of the call: the caller's, or the
    stamp of [t].  With bindable records it adds one row per record, after
    reading the clock once more per record: [flatten_summary] gives record
    [i] its own [fetched_at], of the reading after [t] that is [i + 1]
    readings later, and that value does not reach the row. *)
Theorem save_sqlite_rows_share_stamp
  (wall_clock : nat -> datetime) (results : list dict) (output_dir db_name : string)
  (run_id : option string) (d : disk) (r : result path) (d' : disk) :
  results <> [] ->
  let t := wall_clock (ticks d) in
  let p := (output_dir, db_name) in
  save_sqlite wall_clock results output_dir db_name run_id d = (r, d') ->
  exists new,
    table_rows p d' = table_rows p d ++ new
    /\ Forall (fun row =>
                 Dict.get "fetched_at" row = Some (PStr (isoformat_z t))
                 /\ Dict.get "run_id" row = Some (PStr (run_id_of run_id t))) new
    /\ (forallb bindable results = true ->
        r = inr p
        /\ List.length new = List.length results
        /\ ticks d' = (ticks d + 1 + List.length results)%nat)
    /\ (forall i stat, nth_error results i = Some stat ->
        exists summary,
          flatten_summary wall_clock stat (ticked (1 + i) d)
          = (inr summary, ticked (2 + i) d)
          /\ Dict.get "fetched_at" summary
             = Some (PStr (isoformat_z (wall_clock (ticks d + (1 + i))%nat)))).
Proof.
  intros Hne t p E.
  assert (Hflat : forall i stat, nth_error results i = Some stat ->
            exists summary,
              flatten_summary wall_clock stat (ticked (1 + i) d)
              = (inr summary, ticked (2 + i) d)
              /\ Dict.get "fetched_at" summary
                 = Some (PStr (isoformat_z (wall_clock (ticks d + (1 + i))%nat)))).
  { intros i stat _. eexists. split.
    - rewrite flatten_summary_at, ticked_ticked.
      replace (1 + i + 1)%nat with (2 + i)%nat by lia. reflexivity.
    - cbn [ticked ticks]. apply summary_at_fetched_at. }
  destruct (save_sqlite_appends wall_clock _ _ _ _ _ _ _ Hne E)
    as [[Hr Hrows] | [(e & He) Hrows]]; fold t p in Hrows.
  - exists (map (table_row (run_id_of run_id t) (isoformat_z t)) results).
    split; [exact Hrows|]. split; [|split; [|exact Hflat]].
    + apply Forall_map, Forall_forall. intros stat _.
      split; [apply table_row_fetched_at | apply table_row_run_id].
    + intros Hb. split; [exact Hr|]. split; [apply length_map|].
      destruct (save_sqlite_returns wall_clock results output_dir db_name run_id d Hne Hb)
        as (d'' & E' & Hticks).
      rewrite E in E'. injection E' as _ <-. exact Hticks.
  - exists []. split; [now rewrite app_nil_r|]. split; [constructor|].
    split; [|exact Hflat]. intros Hb.
    destruct (save_sqlite_returns wall_clock results output_dir db_name run_id d Hne Hb)
      as (d'' & E' & _).
    rewrite E in E'. subst r. discriminate E'.
Qed.

Lemma save_sqlite_rows_share_stamp_witness :
  let run := save_sqlite clock_2026 [foo_stats; bar_stats] "output" "bf6_stats.db"
                         None empty_disk in
  exists new,
    table_rows ("output", "bf6_stats.db") (snd run) = new
    /\ Forall (fun row =>
                 Dict.get "fetched_at" row = Some (PStr "2026-01-02T03:04:00Z")
                 /\ Dict.get "run_id" row = Some (PStr "20260102_030400")) new
    /\ List.length new = 2%nat.
Proof.
  intros run.
  destruct (save_sqlite_rows_share_stamp clock_2026 [foo_stats; bar_stats] "output"
              "bf6_stats.db" None empty_disk (fst run) (snd run))
    as (new & Hrows & Hall & Hok & _).
  - discriminate.
  - apply surjective_pairing.
  - exists new. split; [exact Hrows|]. split; [exact Hall|].
    destruct (Hok eq_refl) as (_ & Hlen & _). exact Hlen.
Defined.

(** * Further properties of the client *)

(** ** Replies that end the request loop *)

Section TerminalReplies.

Variable server : nat -> request -> reply.
Variable self : BF6APIClient.
Variable req : request.

(** A reply below 400 whose body does not parse raises on the spot. *)
Lemma attempt_invalid_json attempt rest s status_code text e :
  answer (server (sent s) req) = Response status_code text (JsonFail e) ->
  status_code < 400 ->
  exists s1,
    request_loop server self req (attempt :: rest) s
    = (inl (BF6APIError ("Invalid JSON response: " ++ e)%string), s1)
    /\ advances s s1 1 [Http req].
Proof.
  intros Hans Hlt. rewrite request_loop_cons.
  match goal with |- context [bind (http_send _ _) ?k] =>
    destruct (attempt_sends server self req k s) as (s1 & -> & Ha) end.
  exists s1. split; [|exact Ha]. rewrite Hans.
  replace (status_code >=? 500) with false by (symmetry; apply geb_false; lia).
  replace (status_code >=? 400) with false by (symmetry; apply geb_false; lia).
  reflexivity.
Qed.

(** Whatever the server does, the loop raises nothing but [BF6APIError]. *)
Lemma request_loop_raises attempts : forall s e,
  fst (request_loop server self req attempts s) = inl e -> is_BF6APIError e = true.
Proof.
  induction attempts as [|attempt rest IH]; intros s e.
  - cbn. intros [= <-]. reflexivity.
  - rewrite request_loop_cons.
    match goal with |- context [bind (http_send _ _) ?k] =>
      destruct (attempt_sends server self req k s) as (s1 & -> & _) end.
    assert (Hsleep : forall m,
      fst (bind (_sleep_or_raise self attempt m)
                (fun _ => request_loop server self req rest) s1) = inl e ->
      is_BF6APIError e = true).
    { intros m. unfold bind, _sleep_or_raise.
      destruct (attempt =? max_retries self - 1); cbn.
      - intros [= <-]. reflexivity.
      - apply IH. }
    destruct (answer (server (sent s) req)) as [msg | st text body].
    + apply Hsleep.
    + destruct (st >=? 500); [apply Hsleep|].
      destruct (st >=? 400); [cbn; intros [= <-]; reflexivity|].
      destruct body; cbn; [discriminate | intros [= <-]; reflexivity].
Qed.

End TerminalReplies.

Lemma request_raises_api_error
  (server : nat -> request -> reply) (self : BF6APIClient)
  (method : http_method) (path : string) (params : option dict) (json : option pyval)
  (s : net) (e : exn) :
  fst (_request server self method path params json s) = inl e ->
  is_BF6APIError e = true.
Proof. unfold _request. apply request_loop_raises. Qed.

(** A transient failure is survived: when the attempts before the last
    allowed one fail with a network error or a 5xx and the next reply is below
    400 with a body that parses, [_request] returns that document, having
    backed off after each failure and not after the success. *)
Theorem request_succeeds_after_retries
  (server : nat -> request -> reply) (self : BF6APIClient)
  (method : http_method) (path : string) (params : option dict) (json : option pyval)
  (s : net) (n : nat) (status_code : Z) (text : string) (v : pyval) :
  let req := mk_request self method path params json in
  Z.of_nat n < max_retries self ->
  (forall k, (k < n)%nat -> retryable (answer (server (sent s + k)%nat req)) = true) ->
  answer (server (sent s + n)%nat req) = Response status_code text (JsonOk v) ->
  status_code < 400 ->
  exists s',
    _request server self method path params json s = (inr v, s')
    /\ advances s s' (n + 1) (retry_events req 0 n ++ [Http req]).
Proof.
  intros req Hn Hfail Hans Hst. unfold _request. fold req.
  assert (Hm : exists m, Z.to_nat (max_retries self) = (n + S m)%nat).
  { exists (Z.to_nat (max_retries self) - n - 1)%nat. lia. }
  destruct Hm as (m & Hm). unfold py_range. rewrite Hm.
  destruct (attempts_retry server self req n 0 (S m) s Hfail) as (s1 & E1 & A1).
  { cbn. exact Hn. }
  cbn [Nat.add] in E1. cbn [seq map] in E1.
  destruct (attempt_succeeds server self req (Z.of_nat n)
              (map Z.of_nat (seq (S n) m)) s1 status_code text v)
    as (s2 & E2 & A2).
  { destruct A1 as [Es _]. rewrite Es. exact Hans. }
  { exact Hst. }
  exists s2. split.
  - rewrite E1, E2. reflexivity.
  - apply (advances_trans _ _ _ _ _ _ _ A1 A2).
Qed.

(** A body that does not parse is not retried: a reply below 400 whose JSON
    decoding fails raises [BF6APIError] with the decoder's message at once,
    with no backoff and no further attempt. *)
Theorem request_invalid_json_not_retried
  (server : nat -> request -> reply) (self : BF6APIClient)
  (method : http_method) (path : string) (params : option dict) (json : option pyval)
  (s : net) (n : nat) (status_code : Z) (text e : string) :
  let req := mk_request self method path params json in
  Z.of_nat n < max_retries self ->
  (forall k, (k < n)%nat -> retryable (answer (server (sent s + k)%nat req)) = true) ->
  answer (server (sent s + n)%nat req) = Response status_code text (JsonFail e) ->
  status_code < 400 ->
  exists s',
    _request server self method path params json s
    = (inl (BF6APIError ("Invalid JSON response: " ++ e)%string), s')
    /\ advances s s' (n + 1) (retry_events req 0 n ++ [Http req]).
Proof.
  intros req Hn Hfail Hans Hst. unfold _request. fold req.
  assert (Hm : exists m, Z.to_nat (max_retries self) = (n + S m)%nat).
  { exists (Z.to_nat (max_retries self) - n - 1)%nat. lia. }
  destruct Hm as (m & Hm). unfold py_range. rewrite Hm.
  destruct (attempts_retry server self req n 0 (S m) s Hfail) as (s1 & E1 & A1).
  { cbn. exact Hn. }
  cbn [Nat.add] in E1. cbn [seq map] in E1.
  destruct (attempt_invalid_json server self req (Z.of_nat n)
              (map Z.of_nat (seq (S n) m)) s1 status_code text e)
    as (s2 & E2 & A2).
  { destruct A1 as [Es _]. rewrite Es. exact Hans. }
  { exact Hst. }
  exists s2. split.
  - rewrite E1, E2. reflexivity.
  - apply (advances_trans _ _ _ _ _ _ _ A1 A2).
Qed.

(** [_request] sends at most [max_retries] HTTP calls, whatever that number
    and whatever the server does; every exception it raises is a
    [BF6APIError]; and with [max_retries] zero or negative it sends nothing
    and raises "Max retries exceeded". *)
Theorem request_bounded_and_only_api_errors
  (server : nat -> request -> reply) (self : BF6APIClient)
  (method : http_method) (path : string) (params : option dict) (json : option pyval)
  (s : net) :
  (sent (snd (_request server self method path params json s))
   <= sent s + Z.to_nat (max_retries self))%nat
  /\ match fst (_request server self method path params json s) with
     | inl e => is_BF6APIError e = true
     | inr _ => True
     end
  /\ (max_retries self <= 0 ->
      _request server self method path params json s
      = (inl (BF6APIError "Max retries exceeded"), s)).
Proof.
  unfold _request. split; [|split].
  - pose proof (request_loop_bound server self
                  (mk_request self method path params json)
                  (py_range (max_retries self)) s) as H.
    unfold py_range in H at 2. rewrite length_map, length_seq in H. exact H.
  - destruct (fst (request_loop server self _ (py_range (max_retries self)) s))
      as [e|v] eqn:E; [|exact I].
    apply (request_raises_api_error server self method path params json s e E).
  - intros Hle. unfold py_range.
    replace (Z.to_nat (max_retries self)) with 0%nat by lia. reflexivity.
Qed.

(** ** [get_player_id] and [get_stats] *)

Lemma dict_mem_get_none k d : Dict.mem k d = false <-> Dict.get k d = None.
Proof.
  induction d as [|[k' v'] d IH]; cbn; [tauto|].
  destruct (String.eqb k k'); [split; discriminate | exact IH].
Qed.

(** [get_player_id] returns a dict or raises [BF6APIError], nothing else.
    From the document of the lookup: an object with an ["id"] is returned as
    it is; of a non-empty list the first element is returned when it is an
    object (with or without an ["id"]) and wrapped as [{"id": first}]
    otherwise; an empty list, an object without ["id"] and any other value
    raise "Could not resolve player".  The ID [run_pipeline] derives is the
    [str] of the ["id"]. *)
Theorem get_player_id_shapes
  (server : nat -> request -> reply) (self : BF6APIClient) (name platform : string)
  (s : net) :
  match get_player_id server self name platform s with
  | (inr info, _) => exists d, info = PDict d
  | (inl e, _) => is_BF6APIError e = true
  end
  /\ forall data s',
       _request server self GET "/bf6/player/"
                (Some [("name", PStr name); ("platform", PStr platform)]) None s
       = (inr data, s') ->
       (forall d v, data = PDict d -> Dict.get "id" d = Some v ->
          get_player_id server self name platform s = (inr data, s')
          /\ pid_of data = py_str v)
       /\ (forall d rest, data = PList (PDict d :: rest) ->
             get_player_id server self name platform s = (inr (PDict d), s'))
       /\ (forall x rest, data = PList (x :: rest) -> (forall d, x <> PDict d) ->
             get_player_id server self name platform s = (inr (PDict [("id", x)]), s')
             /\ pid_of (PDict [("id", x)]) = py_str x)
       /\ (data = PList []
           \/ (exists d, data = PDict d /\ Dict.get "id" d = None)
           \/ ((forall l, data <> PList l) /\ (forall d, data <> PDict d)) ->
           get_player_id server self name platform s
           = (inl (could_not_resolve name platform), s')).
Proof.
  split.
  - unfold get_player_id, bind.
    destruct (_request server self GET "/bf6/player/" _ None s) as [[e | data] s1] eqn:E.
    + apply (request_raises_api_error server self GET "/bf6/player/"
               (Some [("name", PStr name); ("platform", PStr platform)]) None s e).
      rewrite E. reflexivity.
    + destruct data as [| b | n | f | str | [|first l] | d]; try reflexivity.
      * destruct first; cbn; eexists; reflexivity.
      * destruct (Dict.mem "id" d); cbn; [eexists; reflexivity | reflexivity].
  - intros data s' E. unfold get_player_id. rewrite (bind_ok _ _ _ _ _ E).
    split; [|split; [|split]].
    + intros d v -> Hv.
      assert (Hm : Dict.mem "id" d = true) by (apply dict_mem_get; eauto).
      rewrite Hm. split; [reflexivity|].
      unfold pid_of, Dict.get_default. rewrite Hv. reflexivity.
    + intros d rest ->. reflexivity.
    + intros x rest -> Hx. split; [|reflexivity].
      destruct x; try reflexivity. exfalso. eapply Hx. reflexivity.
    + intros [-> | [(d & -> & Hd) | [Hl Hd]]].
      * reflexivity.
      * apply dict_mem_get_none in Hd. rewrite Hd. reflexivity.
      * destruct data as [| b | n | f | str | l | d]; try reflexivity.
        -- exfalso. eapply Hl. reflexivity.
        -- exfalso. eapply Hd. reflexivity.
Qed.

(** [get_stats] asks by ID whenever an ID is given, whatever the name; asks
    by name when there is no ID and the name is not empty; and with neither
    raises [ValueError] without touching the network.  Every other exception
    it raises is a [BF6APIError]. *)
Theorem get_stats_parameters
  (server : nat -> request -> reply) (self : BF6APIClient)
  (name : option string) (player_id : option pyval) (platform : string) (s : net) :
  (forall pid, player_id = Some pid ->
     get_stats server self name player_id platform s
     = _request server self GET "/bf6/stats/"
                (Some [("platform", PStr platform); ("playerid", PStr (py_str pid))])
                None s)
  /\ (forall n, player_id = None -> name = Some n -> n <> "" ->
        get_stats server self name player_id platform s
        = _request server self GET "/bf6/stats/"
                   (Some [("platform", PStr platform); ("name", PStr n)]) None s)
  /\ (player_id = None -> name = None \/ name = Some "" ->
        get_stats server self name player_id platform s
        = (inl (ValueError "Provide either name or player_id"), s))
  /\ (forall e, fst (get_stats server self name player_id platform s) = inl e ->
        is_BF6APIError e = true
        \/ (e = ValueError "Provide either name or player_id"
            /\ player_id = None /\ (name = None \/ name = Some ""))).
Proof.
  repeat split.
  - intros pid ->. reflexivity.
  - intros n -> -> Hn. destruct n; [congruence | reflexivity].
  - intros -> [-> | ->]; reflexivity.
  - intros e. unfold get_stats.
    destruct player_id as [pid|].
    + intros E. left. apply (request_raises_api_error _ _ _ _ _ _ _ _ E).
    + destruct name as [[|c n]|].
      * cbn. intros [= <-]. right. auto.
      * intros E. left. apply (request_raises_api_error _ _ _ _ _ _ _ _ E).
      * cbn. intros [= <-]. right. auto.
Qed.

(** * Further properties of the pipeline *)

Lemma get_player_id_raises_api_error
  (server : nat -> request -> reply) (self : BF6APIClient) (name platform : string)
  (s : net) (e : exn) :
  fst (get_player_id server self name platform s) = inl e -> is_BF6APIError e = true.
Proof.
  unfold get_player_id, bind.
  destruct (_request server self GET "/bf6/player/" _ None s) as [[ex | data] s1] eqn:E.
  - cbn. intros [= <-].
    apply (request_raises_api_error server self GET "/bf6/player/"
             (Some [("name", PStr name); ("platform", PStr platform)]) None s ex).
    rewrite E. reflexivity.
  - destruct data as [| b | n | f | str | [|first l] | d]; cbn;
      try (intros [= <-]; reflexivity); try discriminate.
    destruct (Dict.mem "id" d); cbn; [discriminate | intros [= <-]; reflexivity].
Qed.

Lemma get_stats_batch_raises_api_error
  (server : nat -> request -> reply) (self : BF6APIClient) (player_ids : list pyval)
  (platform : string) (s : net) (e : exn) :
  (List.length player_ids <= 128)%nat ->
  fst (get_stats_batch server self player_ids platform s) = inl e ->
  is_BF6APIError e = true.
Proof.
  intros Hlen. destruct player_ids as [|pid rest]; [discriminate|].
  rewrite get_stats_batch_sends by (discriminate || exact Hlen).
  unfold bind.
  destruct (_request server self POST "/bf6/multiple/" None _ s) as [[ex | data] s1] eqn:E.
  - cbn. intros [= <-].
    apply (request_raises_api_error server self POST "/bf6/multiple/" None
             (Some (batch_body (pid :: rest) platform)) s ex).
    rewrite E. reflexivity.
  - destruct data as [| b | n | f | str | l | d]; cbn; try discriminate.
    destruct (Dict.get "result" d); discriminate.
Qed.

Lemma get_stats_by_name_raises_api_error
  (server : nat -> request -> reply) (self : BF6APIClient) (c : ascii) (n : string)
  (platform : string) (s : net) (e : exn) :
  fst (get_stats server self (Some (String c n)) None platform s) = inl e ->
  is_BF6APIError e = true.
Proof. unfold get_stats. apply request_raises_api_error. Qed.

(** [results.extend(batch)] extends the list, or raises the [TypeError] that
    names the type of a value that cannot be iterated. *)
Lemma extend_cases (results : list pyval) (batch : pyval) (s : net) :
  (exists items, extend results batch s = (inr (results ++ items), s))
  \/ exists t, In t scalar_type_names
               /\ extend results batch s
                  = (inl (TypeError ("'" ++ t ++ "' object is not iterable")%string), s).
Proof.
  unfold extend, scalar_type_names.
  destruct batch as [| b | n | f | str | l | d]; cbn [py_iter type_name].
  - right. exists "NoneType". split; [cbn; tauto | reflexivity].
  - right. exists "bool". split; [cbn; tauto | reflexivity].
  - right. exists "int". split; [cbn; tauto | reflexivity].
  - right. exists "float". split; [cbn; tauto | reflexivity].
  - left. eexists. reflexivity.
  - left. eexists. reflexivity.
  - left. eexists. reflexivity.
Qed.

Section PipelineExceptions.

Variable server : nat -> request -> reply.
Variable client : BF6APIClient.

(** The first loop of batch mode always returns. *)
Lemma resolve_ids_returns players : forall ids s,
  exists groups s', resolve_ids server client players ids s = (inr groups, s').
Proof.
  induction players as [|p rest IH]; intros ids s.
  - eexists. eexists. reflexivity.
  - destruct (get_player_id server client (pd_name p) (pd_platform p) s)
      as [[e | info] s1] eqn:E.
    + assert (He : is_BF6APIError e = true).
      { apply (get_player_id_raises_api_error server client (pd_name p) (pd_platform p) s).
        now rewrite E. }
      destruct e; try discriminate He.
      rewrite (resolve_ids_skips _ _ _ _ _ _ _ _ E). apply IH.
    + rewrite (resolve_ids_keeps _ _ _ _ _ _ _ _ E). apply IH.
Qed.

Lemma fetch_chunks_raises_only platform id_list offsets : forall results s e,
  fst (fetch_chunks server client platform id_list offsets results s) = inl e ->
  is_BF6APIError e = true
  \/ exists t, In t scalar_type_names
               /\ e = TypeError ("'" ++ t ++ "' object is not iterable")%string.
Proof.
  induction offsets as [|i rest IH]; intros results s e; [discriminate|].
  cbn [fetch_chunks]. unfold bind at 1.
  destruct (get_stats_batch server client (map PStr (slice i BATCH_SIZE id_list)) platform s)
    as [[ex | batch] s1] eqn:E.
  - cbn. intros [= <-]. left.
    apply (get_stats_batch_raises_api_error server client
             (map PStr (slice i BATCH_SIZE id_list)) platform s).
    + rewrite length_map. unfold slice, BATCH_SIZE. rewrite length_firstn. lia.
    + now rewrite E.
  - unfold bind at 1. destruct (extend_cases results batch s1) as [(items & ->) | (t & Ht & ->)].
    + apply IH.
    + cbn. intros [= <-]. right. exists t. split; [exact Ht | reflexivity].
Qed.

Lemma fetch_groups_raises_only groups : forall results s e,
  fst (fetch_groups server client groups results s) = inl e ->
  is_BF6APIError e = true
  \/ exists t, In t scalar_type_names
               /\ e = TypeError ("'" ++ t ++ "' object is not iterable")%string.
Proof.
  induction groups as [|[platform id_list] rest IH]; intros results s e; [discriminate|].
  cbn [fetch_groups]. unfold bind at 1.
  destruct (fetch_chunks server client platform id_list _ results s)
    as [[ex | results'] s1] eqn:E.
  - cbn. intros [= <-]. apply (fetch_chunks_raises_only _ _ _ _ _ _
                                 ltac:(rewrite E; reflexivity)).
  - apply IH.
Qed.

Lemma fetch_single_raises_only players : forall results s e,
  fst (fetch_single server client players results s) = inl e ->
  e = ValueError "Provide either name or player_id"
  /\ exists p, In p players /\ pd_name p = "".
Proof.
  induction players as [|p rest IH]; intros results s e; [discriminate|].
  destruct (get_stats server client (Some (pd_name p)) None (pd_platform p) s)
    as [[ex | stats] s1] eqn:E.
  - destruct (pd_name p) as [|c n] eqn:Hname.
    + cbn in E. injection E as <- <-.
      cbn [fetch_single]. rewrite Hname. cbn. intros [= <-].
      split; [reflexivity|]. exists p. split; [left; reflexivity | exact Hname].
    + assert (He : is_BF6APIError ex = true).
      { apply (get_stats_by_name_raises_api_error server client c n (pd_platform p) s).
        rewrite E. reflexivity. }
      destruct ex; try discriminate He.
      rewrite <- Hname in E. rewrite (fetch_single_skips _ _ _ _ _ _ _ _ E).
      intros H. destruct (IH _ _ _ H) as [He' (q & Hq & Hn)].
      split; [exact He'|]. exists q. split; [right; exact Hq | exact Hn].
  - rewrite (fetch_single_keeps _ _ _ _ _ _ _ _ E).
    intros H. destruct (IH _ _ _ H) as [He' (q & Hq & Hn)].
    split; [exact He'|]. exists q. split; [right; exact Hq | exact Hn].
Qed.

End PipelineExceptions.

(** The exceptions that leave [run_pipeline].  On the batch route they are
    the [BF6APIError] of a batch call and the [TypeError] of extending the
    results with a batch result that is [None], a [bool], an [int] or a
    [float], whose message names that type; the lookups never raise, and the
    local limit of 128 IDs is never hit.  On the single route it is the
    [ValueError] of [get_stats] for a player whose name is empty, and nothing
    else. *)
Theorem run_pipeline_exceptions
  (server : nat -> request -> reply) (players : list PlayerDescriptor)
  (use_batch : bool) (rate : Z) (s : net) (e : exn) :
  fst (run_pipeline server players use_batch rate s) = inl e ->
  if (use_batch && (1 <? List.length players)%nat)%bool
  then is_BF6APIError e = true
       \/ exists t, In t scalar_type_names
                    /\ e = TypeError ("'" ++ t ++ "' object is not iterable")%string
  else e = ValueError "Provide either name or player_id"
       /\ exists p, In p players /\ pd_name p = "".
Proof.
  unfold run_pipeline, new_client.
  unfold bind at 1. unfold bind at 1. cbn [set_last_request_time ret].
  destruct (use_batch && (1 <? List.length players)%nat)%bool.
  - unfold bind at 1.
    match goal with |- context [resolve_ids ?sv ?c ?ps ?g ?st] =>
      destruct (resolve_ids_returns sv c ps g st) as (groups & s1 & ->) end.
    apply fetch_groups_raises_only.
  - apply fetch_single_raises_only.
Qed.

Section SingleRoute.

Variable server : nat -> request -> reply.
Variable client : BF6APIClient.
Hypothesis Hmax : 0 < max_retries client.

Lemma get_stats_answered p s text doc :
  pd_name p <> "" ->
  answer (server (sent s) (stats_request client p)) = Response 200 text (JsonOk doc) ->
  exists s1,
    get_stats server client (Some (pd_name p)) None (pd_platform p) s = (inr doc, s1)
    /\ advances s s1 1 [Http (stats_request client p)].
Proof.
  intros Hname Hans.
  destruct (request_answered server client Hmax GET "/bf6/stats/"
              (Some [("platform", PStr (pd_platform p)); ("name", PStr (pd_name p))])
              None s text doc Hans) as (s1 & E & A).
  exists s1. split; [|exact A].
  unfold get_stats. destruct (pd_name p) as [|c n]; [congruence | exact E].
Qed.

Lemma get_player_id_rejected p s status_code text body :
  answer (server (sent s) (lookup_request client p)) = Response status_code text body ->
  400 <= status_code < 500 ->
  exists m s1,
    get_player_id server client (pd_name p) (pd_platform p) s = (inl (BF6APIError m), s1)
    /\ advances s s1 1 [Http (lookup_request client p)].
Proof.
  intros Hans Hst. destruct (py_range_pos _ Hmax) as (rest & Hrange).
  destruct (attempt_rejected server client (lookup_request client p) 0 rest s
              status_code text body Hans Hst) as (s1 & E & A).
  eexists. exists s1. split; [|exact A].
  unfold get_player_id, _request. rewrite Hrange.
  apply bind_raise. exact E.
Qed.

Variable stats_doc : PlayerDescriptor -> pyval.

Lemma fetch_single_answered players : forall results s,
  (forall p, In p players -> pd_name p <> "") ->
  (forall n p, In p players ->
     exists text,
       answer (server n (stats_request client p)) = Response 200 text (JsonOk (stats_doc p))) ->
  exists s',
    fetch_single server client players results s
    = (inr (results ++ map stats_doc players), s')
    /\ advances s s' (List.length players)
         (map (fun p => Http (stats_request client p)) players).
Proof.
  induction players as [|p rest IH]; intros results s Hnames Hsrv.
  - exists s. cbn. rewrite app_nil_r. split; [reflexivity | apply advances_refl].
  - destruct (Hsrv (sent s) p (or_introl eq_refl)) as (text & Hans).
    destruct (get_stats_answered p s text _ (Hnames p (or_introl eq_refl)) Hans)
      as (s1 & E & A1).
    rewrite (fetch_single_keeps _ _ _ _ _ _ _ _ E).
    destruct (IH (results ++ [stats_doc p]) s1) as (s' & E' & A').
    { intros q Hq. apply Hnames. right. exact Hq. }
    { intros n q Hq. apply Hsrv. right. exact Hq. }
    exists s'. split.
    + rewrite E'. cbn [map]. rewrite <- app_assoc. reflexivity.
    + apply (advances_trans _ _ _ 1 _ [_] _ A1 A').
Qed.

Lemma resolve_ids_rejected players : forall ids s,
  (forall n p, In p players ->
     exists status_code text body,
       answer (server n (lookup_request client p)) = Response status_code text body
       /\ 400 <= status_code < 500) ->
  exists s',
    resolve_ids server client players ids s = (inr ids, s')
    /\ advances s s' (List.length players)
         (map (fun p => Http (lookup_request client p)) players).
Proof.
  induction players as [|p rest IH]; intros ids s Hsrv.
  - exists s. split; [reflexivity | apply advances_refl].
  - destruct (Hsrv (sent s) p (or_introl eq_refl)) as (st & text & body & Hans & Hst).
    destruct (get_player_id_rejected p s st text body Hans Hst) as (m & s1 & E & A1).
    rewrite (resolve_ids_skips _ _ _ _ _ _ _ _ E).
    destruct (IH ids s1) as (s' & E' & A').
    { intros n q Hq. apply Hsrv. right. exact Hq. }
    exists s'. split; [exact E'|].
    apply (advances_trans _ _ _ 1 _ [_] _ A1 A').
Qed.

End SingleRoute.

Lemma advances_new_client s :
  advances s {| now := now s; last_request_time := 0; sent := sent s; trace := trace s |}
           0 [].
Proof. split; cbn; [lia|]. exists []. split; [now rewrite app_nil_r | reflexivity]. Qed.

(** The single route, taken when batching is off or there is at most one
    player, against a server that answers every stats request: the result is
    the documents of the players in input order, after exactly one GET per
    player and no lookup.  The players' names must not be empty. *)
Theorem run_pipeline_single_in_order
  (server : nat -> request -> reply) (players : list PlayerDescriptor)
  (use_batch : bool) (rate : Z) (s : net) (stats_doc : PlayerDescriptor -> pyval) :
  let client := mk_client BASE_URL rate MAX_RETRIES in
  use_batch = false \/ (List.length players <= 1)%nat ->
  (forall p, In p players -> pd_name p <> "") ->
  (forall n p, In p players ->
     exists text,
       answer (server n (stats_request client p)) = Response 200 text (JsonOk (stats_doc p))) ->
  exists s',
    run_pipeline server players use_batch rate s = (inr (map stats_doc players), s')
    /\ advances s s' (List.length players)
         (map (fun p => Http (stats_request client p)) players).
Proof.
  intros client Hroute Hnames Hsrv.
  assert (Hmax : 0 < max_retries client) by reflexivity.
  destruct (fetch_single_answered server client Hmax stats_doc players []
              {| now := now s; last_request_time := 0; sent := sent s; trace := trace s |}
              Hnames Hsrv) as (s' & E & A).
  exists s'. split.
  - unfold run_pipeline, new_client.
    unfold bind at 1. unfold bind at 1. cbn [set_last_request_time ret].
    assert (Hb : (use_batch && (1 <? List.length players)%nat)%bool = false).
    { destruct Hroute as [-> | Hlen]; [reflexivity|].
      apply andb_false_iff. right. apply Nat.ltb_ge. exact Hlen. }
    rewrite Hb. exact E.
  - apply (advances_trans _ _ _ 0 _ [] _ (advances_new_client s) A).
Qed.

(** Batch mode when the server rejects every lookup with a 4xx: each player is
    looked up once, without retry, every one is dropped, no batch call is
    made, and the result is the empty list, returned normally. *)
Theorem run_pipeline_nobody_resolves
  (server : nat -> request -> reply) (players : list PlayerDescriptor)
  (rate : Z) (s : net) :
  let client := mk_client BASE_URL rate MAX_RETRIES in
  (1 < List.length players)%nat ->
  (forall n p, In p players ->
     exists status_code text body,
       answer (server n (lookup_request client p)) = Response status_code text body
       /\ 400 <= status_code < 500) ->
  exists s',
    run_pipeline server players true rate s = (inr [], s')
    /\ advances s s' (List.length players)
         (map (fun p => Http (lookup_request client p)) players).
Proof.
  intros client Hlen Hsrv.
  assert (Hmax : 0 < max_retries client) by reflexivity.
  destruct (resolve_ids_rejected server client Hmax players []
              {| now := now s; last_request_time := 0; sent := sent s; trace := trace s |}
              Hsrv) as (s' & E & A).
  exists s'. split.
  - unfold run_pipeline, new_client.
    unfold bind at 1. unfold bind at 1. cbn [set_last_request_time ret].
    apply Nat.ltb_lt in Hlen. rewrite Hlen. cbn [andb]. fold client.
    rewrite (bind_ok _ _ _ _ _ E). reflexivity.
  - apply (advances_trans _ _ _ 0 _ [] _ (advances_new_client s) A).
Qed.

(** ** The ordered dict of groups *)

(** [setdefault(platform, []).append(pid)] adds exactly one ID, keeps the
    platforms that are there in their order, puts a new platform last, and
    keeps the platforms distinct. *)
Theorem setdefault_append_invariants
  (platform pid : string) (groups : list (string * list string)) :
  group_total (setdefault_append platform pid groups) = S (group_total groups)
  /\ map fst (setdefault_append platform pid groups)
     = (if existsb (String.eqb platform) (map fst groups)
        then map fst groups
        else map fst groups ++ [platform])
  /\ (NoDup (map fst groups) -> NoDup (map fst (setdefault_append platform pid groups)))
  /\ (exists before, In (platform, before ++ [pid]) (setdefault_append platform pid groups)).
Proof.
  assert (Hkeys : map fst (setdefault_append platform pid groups)
                  = (if existsb (String.eqb platform) (map fst groups)
                     then map fst groups
                     else map fst groups ++ [platform])).
  { induction groups as [|[k ids] rest IH]; [reflexivity|].
    cbn [setdefault_append map fst existsb].
    destruct (String.eqb platform k); cbn [orb map fst]; [reflexivity|].
    rewrite IH. destruct (existsb (String.eqb platform) (map fst rest)); reflexivity. }
  split; [|split; [exact Hkeys | split]].
  - clear Hkeys. unfold group_total.
    induction groups as [|[k ids] rest IH]; [reflexivity|].
    cbn [setdefault_append]. destruct (String.eqb platform k); cbn [map snd List.concat].
    + rewrite !length_app. cbn [List.length]. lia.
    + rewrite !length_app, IH. lia.
  - intros Hnd. rewrite Hkeys.
    destruct (existsb (String.eqb platform) (map fst groups)) eqn:E; [exact Hnd|].
    apply existsb_eqb_false in E.
    apply NoDup_app; [exact Hnd | repeat constructor; intros [] |].
    intros x Hx [<- | []]. contradiction.
  - clear Hkeys. induction groups as [|[k ids] rest IH].
    + exists []. left. reflexivity.
    + cbn [setdefault_append]. destruct (String.eqb platform k) eqn:E.
      * apply String.eqb_eq in E. subst k. exists ids. left. reflexivity.
      * destruct IH as (before & Hin). exists before. right. exact Hin.
Qed.

(** ** [load_config]: the checks before the document *)

(** For a file that exists, [load_config] reads the text before it looks at
    the suffix: an exception of [read_text] leaves [load_config] whatever the
    suffix.  Once the text is read: a suffix other than [.yaml], [.yml],
    [.json] raises [ValueError] naming it, whatever the text and the parsers;
    a YAML suffix without PyYAML raises [ImportError]; a [.json] file does not
    depend on PyYAML or on the YAML parser; and the exception of the parser
    that the suffix selects is passed on unchanged. *)
Theorem load_config_format_checks
  (HAS_YAML : bool) (yaml_safe_load json_loads : string -> result pyval)
  (path : config_path) :
  cp_exists path = true ->
  let suffix := cp_suffix_lower path in
  let load := load_config HAS_YAML yaml_safe_load json_loads path in
  (forall e, cp_read_text path = inl e -> load = inl e)
  /\ (forall text, cp_read_text path = inr text ->
      (suffix <> ".yaml" -> suffix <> ".yml" -> suffix <> ".json" ->
       load = inl (ValueError ("Unsupported config format: " ++ suffix
                               ++ ". Use .yaml or .json")%string))
      /\ (suffix = ".yaml" \/ suffix = ".yml" -> HAS_YAML = false ->
          load = inl (ImportError "PyYAML required for YAML config. pip install pyyaml"))
      /\ (suffix = ".yaml" \/ suffix = ".yml" -> HAS_YAML = true ->
          forall e, yaml_safe_load text = inl e -> load = inl e)
      /\ (suffix = ".json" ->
          (forall has_yaml' yaml',
             load = load_config has_yaml' yaml' json_loads path)
          /\ (forall e, json_loads text = inl e -> load = inl e))).
Proof.
  intros Hex suffix load. subst load. unfold load_config, load_document.
  rewrite Hex. cbn [negb]. fold suffix. split.
  - intros e ->. reflexivity.
  - intros text ->. split; [|split; [|split]].
    + intros H1 H2 H3.
      apply String.eqb_neq in H1, H2, H3. rewrite H1, H2, H3. reflexivity.
    + intros Hs ->.
      assert (E : (String.eqb suffix ".yaml" || String.eqb suffix ".yml")%bool = true).
      { destruct Hs as [-> | ->]; reflexivity. }
      rewrite E. reflexivity.
    + intros Hs -> e He.
      assert (E : (String.eqb suffix ".yaml" || String.eqb suffix ".yml")%bool = true).
      { destruct Hs as [-> | ->]; reflexivity. }
      rewrite E. cbn [negb]. rewrite He. reflexivity.
    + intros ->. cbn. split.
      * intros has_yaml' yaml'. reflexivity.
      * intros e ->. reflexivity.
Qed.

(** * Further properties of the storage writers *)

Lemma path_eqb_eq p q : path_eqb p q = true <-> p = q.
Proof.
  destruct p as [a b], q as [c d]. unfold path_eqb. cbn [fst snd].
  rewrite andb_true_iff, !String.eqb_eq. split; [intros [-> ->] | intros [= -> ->]]; auto.
Qed.

Lemma path_eqb_neq p q : p <> q -> path_eqb p q = false.
Proof.
  intros H. destruct (path_eqb p q) eqn:E; [|reflexivity].
  apply path_eqb_eq in E. contradiction.
Qed.

Lemma lookup_store_other {A} p q (a : A) m :
  q <> p -> lookup q (store p a m) = lookup q m.
Proof.
  intros Hne. induction m as [|[k b] m IH]; cbn.
  - now rewrite (path_eqb_neq _ _ Hne).
  - destruct (path_eqb p k) eqn:E; cbn.
    + apply path_eqb_eq in E. subst k. now rewrite (path_eqb_neq _ _ Hne).
    + rewrite IH. reflexivity.
Qed.

(** ** [flatten_summary] *)

Lemma summary_at_get_other t r k :
  k <> "fetched_at" -> ~ In k SUMMARY_KEYS -> Dict.get k (summary_at t r) = None.
Proof.
  intros Hne Hnot. unfold summary_at.
  rewrite (copy_keys_get r SUMMARY_KEYS [("fetched_at", PStr (isoformat_z t))]).
  apply existsb_eqb_false in Hnot. rewrite Hnot. cbn [Dict.get].
  apply String.eqb_neq in Hne. rewrite Hne. reflexivity.
Qed.

Lemma present_length r : (List.length (present r) <= 20)%nat.
Proof.
  unfold present.
  apply (Nat.le_trans _ _ _ (filter_length_le (fun k => Dict.mem k r) SUMMARY_KEYS)).
  apply Nat.le_refl.
Qed.

(** [flatten_summary] reads the clock once and always returns.  The summary
    starts with [fetched_at], holding the time of that reading even when the
    record has a [fetched_at] of its own; then come the allow-list keys the
    record has, in allow-list order, with the record's values; no other key
    of the record is kept.  A summary has at most 21 keys. *)
Theorem flatten_summary_projects
  (wall_clock : nat -> datetime) (stats : dict) (d : disk) :
  exists summary,
    flatten_summary wall_clock stats d = (inr summary, ticked 1 d)
    /\ Dict.keys summary = "fetched_at" :: present stats
    /\ (forall k, In k (present stats) <-> In k SUMMARY_KEYS /\ Dict.mem k stats = true)
    /\ Dict.get "fetched_at" summary = Some (PStr (isoformat_z (wall_clock (ticks d))))
    /\ (forall k, In k SUMMARY_KEYS -> Dict.get k summary = Dict.get k stats)
    /\ (forall k, k <> "fetched_at" -> ~ In k SUMMARY_KEYS -> Dict.get k summary = None)
    /\ (List.length (Dict.keys summary) <= 21)%nat.
Proof.
  exists (summary_at (wall_clock (ticks d)) stats).
  split; [apply flatten_summary_at|].
  split; [apply summary_at_keys|].
  split; [intros k; apply present_In|].
  split; [apply summary_at_fetched_at|].
  split; [intros k Hk; apply summary_at_get, Hk|].
  split; [intros k H1 H2; apply summary_at_get_other; assumption|].
  rewrite summary_at_keys, length_cons. apply le_n_S, present_length.
Qed.

(** ** [save_sqlite]: an append-only table *)

Section SqliteFrame.

Variable wall_clock : nat -> datetime.
Variables rid fetched_at : string.

(** The insert loop only reads the clock. *)
Lemma insert_all_ticks results : forall inserted d r d',
  insert_all wall_clock rid fetched_at results inserted d = (r, d') ->
  exists k, d' = ticked k d.
Proof.
  induction results as [|stat rest IH]; intros inserted d r d' E.
  - cbn in E. injection E as _ <-. exists 0%nat. now rewrite ticked_0.
  - rewrite insert_all_cons in E.
    destruct (execute_insert_cases (table_row rid fetched_at stat) inserted (ticked 1 d))
      as [Hok | (e & Hfail)].
    + rewrite (bind_ok _ _ _ _ _ Hok) in E. apply IH in E. destruct E as (k & ->).
      exists (1 + k)%nat. apply ticked_ticked.
    + rewrite (bind_raise _ _ _ _ _ Hfail) in E. injection E as _ <-.
      exists 1%nat. reflexivity.
Qed.

End SqliteFrame.

Lemma table_row_keys rid fetched_at r :
  Dict.keys (table_row rid fetched_at r) = SQLITE_COLUMNS.
Proof.
  unfold table_row, Dict.keys. rewrite !map_cons, map_map. cbn [fst].
  rewrite map_id. reflexivity.
Qed.

Lemma table_rows_prepared_other output_dir db_name d q :
  q <> (output_dir, db_name) ->
  table_rows q (prepared output_dir db_name d) = table_rows q d.
Proof.
  intros Hq. unfold table_rows, prepared. cbn [databases].
  destruct (lookup (output_dir, db_name) (databases d)); [reflexivity|].
  rewrite (lookup_store_other _ _ _ _ Hq). reflexivity.
Qed.

(** Whatever the records, [save_sqlite] only appends: the rows of the table
    stay as they were, in place, followed by no new row or by one per record,
    each with exactly the 22 columns in their fixed order.  No other database
    and no file is changed, and with an empty list nothing at all is
    changed: no directory, no database file, no clock reading. *)
Theorem save_sqlite_append_only
  (wall_clock : nat -> datetime) (results : list dict) (output_dir db_name : string)
  (run_id : option string) (d : disk) (r : result path) (d' : disk) :
  save_sqlite wall_clock results output_dir db_name run_id d = (r, d') ->
  let p := (output_dir, db_name) in
  (exists new,
     table_rows p d' = table_rows p d ++ new
     /\ Forall (fun row => Dict.keys row = SQLITE_COLUMNS) new
     /\ (new = [] \/ List.length new = List.length results))
  /\ files d' = files d
  /\ (forall q, q <> p -> table_rows q d' = table_rows q d)
  /\ (results = [] -> r = inr p /\ d' = d).
Proof.
  intros E p. destruct results as [|r1 rest].
  - cbn in E. injection E as <- <-.
    split; [exists []; rewrite app_nil_r; auto|]. auto.
  - rewrite save_sqlite_steps in E.
    set (t := wall_clock (ticks d)) in *.
    destruct (insert_all wall_clock (run_id_of run_id t) (isoformat_z t) (r1 :: rest) []
                (prepared output_dir db_name d)) as [[e | inserted] d1] eqn:Eins;
      pose proof (insert_all_ticks _ _ _ _ _ _ _ _ Eins) as (k & Hk);
      pose proof (insert_all_result _ _ _ _ _ _ _ _ Eins) as [_ Hrows];
      injection E as <- <-; subst d1.
    + split; [|split; [reflexivity | split; [|discriminate]]].
      * exists []. rewrite app_nil_r. split; [|auto].
        apply table_rows_prepared.
      * intros q Hq. apply (table_rows_prepared_other _ _ _ _ Hq).
    + rewrite (Hrows inserted eq_refl). cbn [app].
      split; [|split; [reflexivity | split; [|discriminate]]].
      * eexists. split; [|split].
        -- unfold table_rows at 1. cbn [databases]. rewrite lookup_store_same.
           f_equal. apply table_rows_prepared.
        -- apply Forall_map, Forall_forall. intros stat _. apply table_row_keys.
        -- right. apply length_map.
      * intros q Hq. unfold table_rows at 1. cbn [databases].
        rewrite (lookup_store_other _ _ _ _ Hq).
        apply (table_rows_prepared_other _ _ _ _ Hq).
Qed.

(** * Properties of the players argument *)

(** ** Stripping *)

Lemma lstrip_length s : (String.length (lstrip s) <= String.length s)%nat.
Proof.
  induction s as [|c s IH]; cbn [lstrip]; [lia|].
  destruct (is_space c); cbn [String.length] in *; lia.
Qed.

Lemma lstrip_fixed c s : lstrip (String c s) = String c s -> is_space c = false.
Proof.
  cbn [lstrip]. destruct (is_space c); [|reflexivity].
  intros H. pose proof (lstrip_length s) as Hl. rewrite H in Hl.
  cbn [String.length] in Hl. lia.
Qed.

Lemma lstrip_idem s : lstrip (lstrip s) = lstrip s.
Proof.
  induction s as [|c s IH]; [reflexivity|].
  cbn [lstrip]. destruct (is_space c) eqn:E; [exact IH|].
  cbn [lstrip]. rewrite E. reflexivity.
Qed.

Lemma rstrip_cons c s :
  rstrip (String c s)
  = match rstrip s with
    | EmptyString => if is_space c then EmptyString else String c EmptyString
    | t => String c t
    end.
Proof. reflexivity. Qed.

Lemma rstrip_idem s : rstrip (rstrip s) = rstrip s.
Proof.
  induction s as [|c s IH]; [reflexivity|].
  rewrite rstrip_cons. destruct (rstrip s) as [|c' t] eqn:E.
  - destruct (is_space c) eqn:Ec; [reflexivity|].
    rewrite rstrip_cons. cbn [rstrip]. rewrite Ec. reflexivity.
  - rewrite rstrip_cons, IH. reflexivity.
Qed.

Lemma rstrip_lstrip s : rstrip (lstrip s) = lstrip (rstrip s).
Proof.
  induction s as [|c s IH]; [reflexivity|].
  rewrite rstrip_cons. cbn [lstrip]. destruct (is_space c) eqn:Ec.
  - rewrite IH. destruct (rstrip s) as [|c' t]; [reflexivity|].
    cbn [lstrip]. rewrite Ec. reflexivity.
  - rewrite rstrip_cons.
    destruct (rstrip s) as [|c' t]; rewrite ?Ec; cbn [lstrip]; rewrite Ec; reflexivity.
Qed.

Lemma strip_idem s : strip (strip s) = strip s.
Proof.
  unfold strip. rewrite rstrip_lstrip, rstrip_idem, lstrip_idem. reflexivity.
Qed.

Lemma trimmed_strip s : trimmed s = true -> strip s = s.
Proof.
  unfold trimmed, strip. intros H. apply andb_prop in H. destruct H as [Hl Hr].
  apply String.eqb_eq in Hl, Hr. rewrite Hr. exact Hl.
Qed.

Lemma rstrip_app_fixed a b : rstrip b = b -> b <> "" -> rstrip (a ++ b) = (a ++ b)%string.
Proof.
  intros Hb Hne. induction a as [|c a IH]; [exact Hb|].
  cbn [String.append]. rewrite rstrip_cons, IH.
  destruct (a ++ b)%string as [|c' t] eqn:E; [|reflexivity].
  destruct a; cbn in E; [congruence | discriminate].
Qed.

(** ** Characters of the pieces *)

Lemma contains_char_cons c a s :
  contains_char c (String a s) = (Ascii.eqb c a || contains_char c s)%bool.
Proof. reflexivity. Qed.

Lemma contains_char_app c a b :
  contains_char c (a ++ b) = (contains_char c a || contains_char c b)%bool.
Proof.
  induction a as [|x a IH]; [reflexivity|].
  cbn [String.append]. rewrite !contains_char_cons, IH. apply orb_assoc.
Qed.

Lemma contains_char_lstrip c s :
  contains_char c s = false -> contains_char c (lstrip s) = false.
Proof.
  induction s as [|a s IH]; [reflexivity|].
  cbn [lstrip]. destruct (is_space a); [|auto].
  rewrite contains_char_cons. intros H. apply orb_false_elim in H. apply IH, H.
Qed.

Lemma contains_char_rstrip c s :
  contains_char c s = false -> contains_char c (rstrip s) = false.
Proof.
  induction s as [|a s IH]; [reflexivity|].
  rewrite contains_char_cons, rstrip_cons. intros H. apply orb_false_elim in H.
  destruct H as [Ha Hs]. specialize (IH Hs).
  destruct (rstrip s) as [|c' t].
  - destruct (is_space a); [reflexivity|].
    rewrite contains_char_cons, Ha. reflexivity.
  - rewrite contains_char_cons, Ha, IH. reflexivity.
Qed.

Lemma contains_char_strip c s :
  contains_char c s = false -> contains_char c (strip s) = false.
Proof. intros H. apply contains_char_lstrip, contains_char_rstrip, H. Qed.

Lemma split_char_nonempty sep s : split_char sep s <> [].
Proof.
  destruct s as [|c s]; [discriminate|]. cbn [split_char].
  destruct (Ascii.eqb c sep); [discriminate|].
  destruct (split_char sep s); discriminate.
Qed.

(** No piece of a split holds the separator. *)
Lemma split_char_pieces sep s :
  Forall (fun piece => contains_char sep piece = false) (split_char sep s).
Proof.
  induction s as [|c s IH]; [repeat constructor|].
  cbn [split_char]. destruct (Ascii.eqb c sep) eqn:E.
  - constructor; [reflexivity | exact IH].
  - destruct (split_char sep s) as [|piece pieces].
    + constructor; [|constructor]. rewrite contains_char_cons, Ascii.eqb_sym, E. reflexivity.
    + inversion IH as [|? ? Hp Hps]; subst. constructor; [|exact Hps].
      rewrite contains_char_cons, Ascii.eqb_sym, E, Hp. reflexivity.
Qed.

(** A character that is not in the text is in none of its pieces. *)
Lemma split_char_other sep c s :
  contains_char c s = false ->
  Forall (fun piece => contains_char c piece = false) (split_char sep s).
Proof.
  induction s as [|a s IH]; [repeat constructor|].
  rewrite contains_char_cons. intros H. apply orb_false_elim in H.
  destruct H as [Ha Hs]. specialize (IH Hs).
  cbn [split_char]. destruct (Ascii.eqb a sep).
  - constructor; [reflexivity | exact IH].
  - destruct (split_char sep s) as [|piece pieces].
    + constructor; [|constructor]. rewrite contains_char_cons, Ha. reflexivity.
    + inversion IH as [|? ? Hp Hps]; subst. constructor; [|exact Hps].
      rewrite contains_char_cons, Ha, Hp. reflexivity.
Qed.

Lemma partition_char_parts sep s before after :
  partition_char sep s = Some (before, after) ->
  s = (before ++ String sep after)%string /\ contains_char sep before = false.
Proof.
  revert before. induction s as [|c s IH]; intros before; [discriminate|].
  cbn [partition_char]. destruct (Ascii.eqb c sep) eqn:E.
  - intros [= <- <-]. apply Ascii.eqb_eq in E. subst. split; reflexivity.
  - destruct (partition_char sep s) as [[b a]|]; [|discriminate].
    intros [= <- <-]. destruct (IH b eq_refl) as [-> Hb].
    split; [reflexivity|]. rewrite contains_char_cons, Ascii.eqb_sym, E, Hb. reflexivity.
Qed.

Lemma split_char_single sep s :
  contains_char sep s = false -> split_char sep s = [s].
Proof.
  induction s as [|c s IH]; [reflexivity|].
  rewrite contains_char_cons. intros H. apply orb_false_elim in H. destruct H as [Hc Hs].
  cbn [split_char]. rewrite Ascii.eqb_sym, Hc, (IH Hs). reflexivity.
Qed.

Lemma split_char_app sep a b :
  contains_char sep a = false ->
  split_char sep (a ++ String sep b) = a :: split_char sep b.
Proof.
  induction a as [|c a IH].
  - intros _. cbn [String.append split_char]. rewrite Ascii.eqb_refl. reflexivity.
  - rewrite contains_char_cons. intros H. apply orb_false_elim in H. destruct H as [Hc Ha].
    cbn [String.append split_char]. rewrite Ascii.eqb_sym, Hc, (IH Ha). reflexivity.
Qed.

(** Splitting what was joined gives the pieces back. *)
Lemma split_char_concat (pieces : list string) :
  pieces <> [] ->
  Forall (fun piece => contains_char ";"%char piece = false) pieces ->
  split_char ";"%char (String.concat ";" pieces) = pieces.
Proof.
  induction pieces as [|x rest IH]; [congruence|].
  intros _ Hall. inversion Hall as [|? ? Hx Hrest]; subst.
  destruct rest as [|y rest'].
  - cbn [String.concat]. apply split_char_single, Hx.
  - change (String.concat ";" (x :: y :: rest'))
      with (x ++ String ";"%char (String.concat ";" (y :: rest')))%string.
    rewrite (split_char_app _ _ _ Hx), IH; [reflexivity | discriminate | exact Hrest].
Qed.

Lemma partition_char_app sep a b :
  contains_char sep a = false ->
  partition_char sep (a ++ String sep b) = Some (a, b).
Proof.
  induction a as [|c a IH].
  - intros _. cbn [String.append partition_char]. rewrite Ascii.eqb_refl. reflexivity.
  - rewrite contains_char_cons. intros H. apply orb_false_elim in H. destruct H as [Hc Ha].
    cbn [String.append partition_char]. rewrite Ascii.eqb_sym, Hc, (IH Ha). reflexivity.
Qed.

Lemma partition_char_none sep s :
  partition_char sep s = None -> contains_char sep s = false.
Proof.
  induction s as [|c s IH]; [reflexivity|].
  cbn [partition_char]. destruct (Ascii.eqb c sep) eqn:E; [discriminate|].
  destruct (partition_char sep s) as [[b a]|]; [discriminate|].
  intros _. rewrite contains_char_cons, Ascii.eqb_sym, E. apply IH. reflexivity.
Qed.

(** ** [parse_players_arg] *)

(** Every descriptor [parse_players_arg] builds has a platform that is not
    empty (["pc"] stands in for a missing or blank one), a name and a platform
    without surrounding white space, no [;] in either and no [,] in the name;
    and there are at most as many descriptors as [;]-separated parts.  The
    name itself may be empty. *)
Theorem parse_players_arg_descriptors (s : string) :
  (List.length (parse_players_arg s) <= List.length (split_char ";"%char s))%nat
  /\ forall p, In p (parse_players_arg s) ->
       pd_platform p <> ""
       /\ strip (pd_name p) = pd_name p
       /\ strip (pd_platform p) = pd_platform p
       /\ contains_char ";"%char (pd_name p) = false
       /\ contains_char ","%char (pd_name p) = false
       /\ contains_char ";"%char (pd_platform p) = false.
Proof.
  unfold parse_players_arg. split.
  - induction (split_char ";"%char s) as [|part parts IH]; [reflexivity|].
    cbn [flat_map]. rewrite length_app. cbn [List.length].
    assert (H : (List.length (player_of_part part) <= 1)%nat).
    { unfold player_of_part. destruct (String.eqb (strip part) ""); [cbn; lia|].
      destruct (partition_char ","%char (strip part)) as [[a b]|]; cbn; lia. }
    lia.
  - intros p Hin. apply in_flat_map in Hin. destruct Hin as (part & Hpart & Hp).
    pose proof (split_char_pieces ";"%char s) as Hall.
    rewrite Forall_forall in Hall. specialize (Hall part Hpart).
    apply contains_char_strip in Hall.
    unfold player_of_part in Hp.
    destruct (String.eqb (strip part) ""); [destruct Hp|].
    destruct (partition_char ","%char (strip part)) as [[name platform]|] eqn:E.
    + destruct Hp as [<- | []]. cbn [pd_name pd_platform].
      apply partition_char_parts in E. destruct E as [Epart Hname].
      rewrite Epart, contains_char_app, contains_char_cons in Hall.
      apply orb_false_elim in Hall. destruct Hall as [Hn Hpf].
      apply orb_false_elim in Hpf. destruct Hpf as [_ Hpf].
      split; [|split; [apply strip_idem | split; [|split; [|split]]]].
      * destruct (String.eqb (strip platform) "") eqn:Epf; [discriminate|].
        apply String.eqb_neq. exact Epf.
      * destruct (String.eqb (strip platform) ""); [reflexivity | apply strip_idem].
      * apply contains_char_strip, Hn.
      * apply contains_char_strip, Hname.
      * destruct (String.eqb (strip platform) ""); [reflexivity|].
        apply contains_char_strip, Hpf.
    + destruct Hp as [<- | []]. cbn [pd_name pd_platform].
      split; [discriminate|]. split; [apply strip_idem|]. split; [reflexivity|].
      split; [apply contains_char_strip, Hall|].
      split; [apply contains_char_strip, partition_char_none, E | reflexivity].
Qed.

Lemma expressible_parts p :
  expressible p = true ->
  trimmed (pd_name p) = true /\ trimmed (pd_platform p) = true
  /\ contains_char ";"%char (pd_name p) = false
  /\ contains_char ","%char (pd_name p) = false
  /\ contains_char ";"%char (pd_platform p) = false
  /\ pd_platform p <> "".
Proof.
  unfold expressible. rewrite !andb_true_iff, !negb_true_iff, String.eqb_neq. tauto.
Qed.

Lemma player_of_part_expressible p :
  expressible p = true ->
  player_of_part (pd_name p ++ "," ++ pd_platform p) = [p].
Proof.
  intros H. apply expressible_parts in H.
  destruct p as [name platform]. cbn [pd_name pd_platform] in *.
  destruct H as (Hname & Hplat & H1 & H2 & H3 & H4).
  assert (Hstrip : strip (name ++ "," ++ platform) = (name ++ "," ++ platform)%string).
  { unfold strip. apply andb_prop in Hname, Hplat.
    destruct Hname as [Hnl _], Hplat as [_ Hpr].
    apply String.eqb_eq in Hnl, Hpr.
    rewrite rstrip_app_fixed.
    - destruct name as [|c name]; [reflexivity|].
      apply lstrip_fixed in Hnl. cbn [String.append lstrip]. rewrite Hnl. reflexivity.
    - change ("," ++ platform)%string with (String ","%char platform).
      rewrite rstrip_cons, Hpr. destruct platform; [congruence | reflexivity].
    - discriminate. }
  unfold player_of_part. rewrite Hstrip.
  assert (Hne : String.eqb (name ++ "," ++ platform) "" = false).
  { destruct name; reflexivity. }
  rewrite Hne.
  change (name ++ "," ++ platform)%string with (name ++ String ","%char platform)%string.
  rewrite (partition_char_app _ _ _ H2).
  rewrite (trimmed_strip _ Hname), (trimmed_strip _ Hplat).
  apply String.eqb_neq in H4. rewrite H4. reflexivity.
Qed.

Lemma expressible_no_semicolon p :
  expressible p = true ->
  contains_char ";"%char (pd_name p ++ "," ++ pd_platform p) = false.
Proof.
  intros H. apply expressible_parts in H. destruct H as (_ & _ & H1 & _ & H3 & _).
  rewrite !contains_char_app, H1, H3. reflexivity.
Qed.

(** Writing descriptors as a [--players] text and parsing it gives them back,
    in order, for descriptors the syntax can express: name and platform
    trimmed and without [;], no [,] in the name, and a platform that is not
    empty. *)
Theorem parse_players_arg_round_trip (players : list PlayerDescriptor) :
  forallb expressible players = true ->
  parse_players_arg (players_arg players) = players.
Proof.
  intros Hall. destruct players as [|p rest]; [reflexivity|].
  unfold parse_players_arg, players_arg.
  rewrite split_char_concat.
  - induction (p :: rest) as [|q qs IH]; [reflexivity|].
    cbn [forallb] in Hall. apply andb_prop in Hall. destruct Hall as [Hq Hqs].
    cbn [map flat_map]. rewrite (player_of_part_expressible q Hq), (IH Hqs). reflexivity.
  - discriminate.
  - apply Forall_map, Forall_forall. intros q Hq.
    rewrite forallb_forall in Hall. apply expressible_no_semicolon, Hall, Hq.
Qed.

(** ** The base URL of the client *)

Lemma rstrip_slash_cons c s :
  rstrip_slash (String c s)
  = match rstrip_slash s with
    | EmptyString => if Ascii.eqb c "/"%char then EmptyString else String c EmptyString
    | t => String c t
    end.
Proof. reflexivity. Qed.

(** The client keeps its base URL without trailing slashes: what it keeps
    never ends in [/], one more trailing slash in the argument makes no
    difference, and stripping again changes nothing; so the URL of a request
    is that base followed by the path. *)
Theorem mk_client_base_url (url : string) (rate max : Z) :
  (forall t, base_url (mk_client url rate max) <> (t ++ "/")%string)
  /\ base_url (mk_client (url ++ "/") rate max) = base_url (mk_client url rate max)
  /\ base_url (mk_client (base_url (mk_client url rate max)) rate max)
     = base_url (mk_client url rate max)
  /\ (forall method path params json,
        req_url (mk_request (mk_client url rate max) method path params json)
        = (rstrip_slash url ++ path)%string).
Proof.
  unfold mk_client. cbn [base_url].
  assert (Hlast : forall s t, rstrip_slash s <> (t ++ "/")%string).
  { induction s as [|c s IH]; intros t.
    - destruct t; discriminate.
    - rewrite rstrip_slash_cons. destruct (rstrip_slash s) as [|c' u] eqn:E.
      + destruct (Ascii.eqb c "/"%char) eqn:Ec.
        * destruct t; discriminate.
        * destruct t as [|a t]; cbn.
          -- intros [= ->]. discriminate Ec.
          -- intros [= _ H]. destruct t; discriminate.
      + destruct t as [|a t]; cbn; [discriminate|].
        intros [= _ H]. apply (IH t). exact H. }
  assert (Hslash : forall s, rstrip_slash (s ++ "/") = rstrip_slash s).
  { induction s as [|c s IH]; [reflexivity|].
    cbn [String.append]. rewrite !rstrip_slash_cons, IH. reflexivity. }
  assert (Hidem : forall s, rstrip_slash (rstrip_slash s) = rstrip_slash s).
  { induction s as [|c s IH]; [reflexivity|].
    rewrite rstrip_slash_cons. destruct (rstrip_slash s) as [|c' u] eqn:E.
    - destruct (Ascii.eqb c "/"%char) eqn:Ec; [reflexivity|].
      rewrite rstrip_slash_cons. cbn [rstrip_slash]. rewrite Ec. reflexivity.
    - rewrite rstrip_slash_cons, IH. reflexivity. }
  split; [apply Hlast|]. split; [apply Hslash|]. split; [apply Hidem|].
  reflexivity.
Qed.

(** * The further properties at concrete inputs *)

Lemma request_succeeds_after_retries_witness :
  exists s',
    _request server_recovering default_client GET "/bf6/player/" None None fresh
    = (inr (PDict [("id", PInt 7)]), s')
    /\ advances fresh s' 2
         [Http (mk_request default_client GET "/bf6/player/" None None);
          BackoffSleep 1000;
          Http (mk_request default_client GET "/bf6/player/" None None)].
Proof.
  apply (request_succeeds_after_retries server_recovering default_client GET
           "/bf6/player/" None None fresh 1 200 "{}" (PDict [("id", PInt 7)])).
  - reflexivity.
  - intros k Hk. assert (k = 0%nat) as -> by lia. reflexivity.
  - reflexivity.
  - lia.
Defined.

Lemma request_invalid_json_not_retried_witness :
  exists s',
    _request server_garbled default_client GET "/bf6/stats/" None None fresh
    = (inl (BF6APIError
              "Invalid JSON response: Expecting value: line 1 column 1 (char 0)"), s')
    /\ advances fresh s' 1 [Http (mk_request default_client GET "/bf6/stats/" None None)].
Proof.
  apply (request_invalid_json_not_retried server_garbled default_client GET
           "/bf6/stats/" None None fresh 0 200 "<html>maintenance</html>"
           "Expecting value: line 1 column 1 (char 0)").
  - reflexivity.
  - intros k Hk. lia.
  - reflexivity.
  - lia.
Defined.

Lemma request_bounded_and_only_api_errors_witness :
  _request server_echo client_without_attempts GET "/bf6/stats/" None None fresh
  = (inl (BF6APIError "Max retries exceeded"), fresh).
Proof.
  apply (request_bounded_and_only_api_errors server_echo client_without_attempts GET
           "/bf6/stats/" None None fresh).
  cbn. lia.
Defined.

Lemma get_player_id_shapes_witness :
  exists s',
    get_player_id (server_answering "[1001]" (PList [PInt 1001])) default_client
                  "alice" "pc" fresh
    = (inr (PDict [("id", PInt 1001)]), s')
    /\ pid_of (PDict [("id", PInt 1001)]) = "1001".
Proof.
  destruct (get_player_id_shapes (server_answering "[1001]" (PList [PInt 1001]))
              default_client "alice" "pc" fresh) as [_ H].
  destruct (H (PList [PInt 1001])
              (snd (_request (server_answering "[1001]" (PList [PInt 1001])) default_client
                             GET "/bf6/player/"
                             (Some [("name", PStr "alice"); ("platform", PStr "pc")])
                             None fresh)) eq_refl) as (_ & _ & Hwrap & _).
  destruct (Hwrap (PInt 1001) [] eq_refl ltac:(discriminate)) as [E Hpid].
  eexists. split; [exact E | exact Hpid].
Defined.

Lemma get_stats_parameters_witness :
  get_stats server_echo default_client (Some "") None "pc" fresh
  = (inl (ValueError "Provide either name or player_id"), fresh)
  /\ get_stats server_echo default_client (Some "alice") (Some (PInt 1001)) "pc" fresh
     = _request server_echo default_client GET "/bf6/stats/"
                (Some [("platform", PStr "pc"); ("playerid", PStr "1001")]) None fresh.
Proof.
  split.
  - destruct (get_stats_parameters server_echo default_client (Some "") None "pc" fresh)
      as (_ & _ & H & _).
    apply H; [reflexivity | right; reflexivity].
  - destruct (get_stats_parameters server_echo default_client (Some "alice")
                (Some (PInt 1001)) "pc" fresh) as (H & _).
    apply (H (PInt 1001) eq_refl).
Defined.

Lemma run_pipeline_exceptions_witness :
  fst (run_pipeline server_echo [alice; nameless] false DEFAULT_RATE_LIMIT_SEC fresh)
  = inl (ValueError "Provide either name or player_id")
  /\ exists p, In p [alice; nameless] /\ pd_name p = "".
Proof.
  pose proof (run_pipeline_exceptions server_echo [alice; nameless] false
                DEFAULT_RATE_LIMIT_SEC fresh
                (ValueError "Provide either name or player_id") eq_refl) as H.
  cbn [andb] in H. destruct H as [_ H]. split; [reflexivity | exact H].
Defined.

Lemma run_pipeline_single_in_order_witness :
  exists s',
    run_pipeline server_echo [alice; carol] false DEFAULT_RATE_LIMIT_SEC fresh
    = (inr [PDict [("id", PStr "id-alice")]; PDict [("id", PStr "id-carol")]], s').
Proof.
  destruct (run_pipeline_single_in_order server_echo [alice; carol] false
              DEFAULT_RATE_LIMIT_SEC fresh echo_lookup) as (s' & E & _).
  - left. reflexivity.
  - intros p [<- | [<- | []]]; discriminate.
  - intros n p [<- | [<- | []]]; eexists; reflexivity.
  - exists s'. exact E.
Defined.

Lemma run_pipeline_nobody_resolves_witness :
  exists s',
    run_pipeline server_unknown [alice; bob] true DEFAULT_RATE_LIMIT_SEC fresh
    = (inr [], s')
    /\ sent s' = 2%nat.
Proof.
  destruct (run_pipeline_nobody_resolves server_unknown [alice; bob]
              DEFAULT_RATE_LIMIT_SEC fresh) as (s' & E & [Hsent _]).
  - cbn. lia.
  - intros n p _. exists 404, "not found", (JsonFail "Expecting value").
    split; [reflexivity | lia].
  - exists s'. split; [exact E | exact Hsent].
Defined.

Lemma setdefault_append_invariants_witness :
  NoDup (map fst (setdefault_append "psn" "1003" [("pc", ["1001"; "1002"])])).
Proof.
  destruct (setdefault_append_invariants "psn" "1003" [("pc", ["1001"; "1002"])])
    as (_ & _ & H & _).
  apply H. repeat constructor. intros [].
Defined.

Lemma load_config_format_checks_witness :
  load_config false no_yaml sample_json_loads players_json
  = load_config true (fun _ => inr PNone) sample_json_loads players_json
  /\ load_config true sample_yaml_safe_load sample_json_loads undecodable_toml
     = inl (UnicodeDecodeError
              "'utf-8' codec can't decode byte 0xff in position 0: invalid start byte").
Proof.
  split.
  - destruct (load_config_format_checks false no_yaml sample_json_loads players_json
                eq_refl) as [_ H].
    destruct (H players_json_text eq_refl) as (_ & _ & _ & Hjson).
    destruct (Hjson eq_refl) as [Hindep _]. apply Hindep.
  - destruct (load_config_format_checks true sample_yaml_safe_load sample_json_loads
                undecodable_toml eq_refl) as [H _].
    apply H. reflexivity.
Defined.

Lemma flatten_summary_projects_witness :
  exists summary,
    flatten_summary clock_2026 bar_stats empty_disk = (inr summary, ticked 1 empty_disk)
    /\ Dict.get "deaths" summary = Some (PInt 4)
    /\ Dict.get "weapons" summary = None.
Proof.
  destruct (flatten_summary_projects clock_2026 bar_stats empty_disk)
    as (summary & E & _ & _ & _ & Hkeep & Hdrop & _).
  exists summary. split; [exact E|]. split.
  - rewrite Hkeep; [reflexivity|]. apply existsb_eqb_In. reflexivity.
  - apply Hdrop; [discriminate|]. apply existsb_eqb_false. reflexivity.
Defined.

Lemma save_sqlite_append_only_witness :
  let run := save_sqlite clock_2026 [foo_stats; nested_stats] "output" "bf6_stats.db"
                         (Some "run1") disk_with_history in
  files (snd run) = files disk_with_history
  /\ exists new,
       table_rows ("output", "bf6_stats.db") (snd run)
       = table_rows ("output", "bf6_stats.db") disk_with_history ++ new.
Proof.
  intros run.
  destruct (save_sqlite_append_only clock_2026 [foo_stats; nested_stats] "output"
              "bf6_stats.db" (Some "run1") disk_with_history (fst run) (snd run))
    as ((new & Hrows & _) & Hfiles & _).
  - apply surjective_pairing.
  - split; [exact Hfiles|]. exists new. exact Hrows.
Defined.

Lemma parse_players_arg_descriptors_witness :
  parse_players_arg " a , pc ; ;b,;c"
  = [ {| pd_name := "a"; pd_platform := "pc" |};
      {| pd_name := "b"; pd_platform := "pc" |};
      {| pd_name := "c"; pd_platform := "pc" |} ]
  /\ pd_platform {| pd_name := "b"; pd_platform := "pc" |} <> "".
Proof.
  split; [reflexivity|].
  destruct (parse_players_arg_descriptors " a , pc ; ;b,;c") as [_ H].
  apply (H {| pd_name := "b"; pd_platform := "pc" |}).
  right. left. reflexivity.
Defined.

Lemma parse_players_arg_round_trip_witness :
  parse_players_arg "alice,pc;bob,pc;carol,psn" = [alice; bob; carol].
Proof.
  apply (parse_players_arg_round_trip [alice; bob; carol]). reflexivity.
Defined.

Lemma mk_client_base_url_witness :
  base_url (mk_client "https://api.gametools.network//" 1000 3) = BASE_URL
  /\ BASE_URL <> ("https://api.gametools.network" ++ "/")%string.
Proof.
  destruct (mk_client_base_url BASE_URL 1000 3) as (Hlast & _ & _ & _).
  split; [reflexivity|]. apply (Hlast "https://api.gametools.network").
Defined.

(** * The header loop on arbitrary summaries *)







